(** * Portfolio backend: contact-form submissions and the mock-data seeder

    A shallow embedding of [src/mockdata.ts] (the seeding routine
    [populate_with_mock_data]) and of the model class
    [ContactFormSubmission] (its static [create], [get_by_id], [update]
    and [delete]).

    The TypeScript code is asynchronous and talks to a MongoDB driver.
    It is embedded as a program over an interface of calls ([call]): the
    code is a tree of calls and continuations ([prog]), with JavaScript
    exceptions as [Throw] and [try]/[catch]/[finally] as combinators.
    The driver, the clock, [Math.random], the logger and the module-level
    flag [populationAttempted] are interpreted over an explicit [World].
    Whether an awaited driver call succeeds is decided by the environment:
    each process carries a list of [outcome]s, one consumed per awaited
    call.  [session.withTransaction] is the driver's: it runs the callback
    again on an error labelled [TransientTransactionError] and sends the
    commit again on one labelled [UnknownTransactionCommitResult]
    ([transact]), and only the writes that carry the session belong to the
    transaction ([run_in_transaction]). *)

From Stdlib Require Import ZArith NArith String Ascii List Sorted Lia.
From stdpp Require Import base option gmap strings list.

Local Open Scope string_scope.

(** ** Errors and results *)

(** A thrown JavaScript error object: its [code] property (set by the
    driver on server errors, e.g. 11000 for a duplicate key), what
    [toString()] gives, and the labels the server and the driver have put
    on it ([errorLabels], read by [hasErrorLabel]). *)
Record error := MkError {
  code : option Z;
  description : string;
  errorLabels : list string
}.

Inductive res (A : Type) : Type :=
  | Val (a : A)
  | Exn (e : error).
Arguments Val {A} a.
Arguments Exn {A} e.

Definition is_val {A : Type} (r : res A) : bool :=
  match r with Val _ => true | Exn _ => false end.

(** ** ObjectId *)

(** A 12-byte ObjectId, as the number its 24 hex digits denote. *)
Abbreviation ObjectId := N (only parsing).

Definition hex_value (c : ascii) : option N :=
  let n := N_of_ascii c in
  if (48 <=? n)%N && (n <=? 57)%N then Some (n - 48)%N
  else if (97 <=? n)%N && (n <=? 102)%N then Some (n - 87)%N
  else if (65 <=? n)%N && (n <=? 70)%N then Some (n - 55)%N
  else None.

Fixpoint hex_number (acc : N) (s : string) : option N :=
  match s with
  | EmptyString => Some acc
  | String c s' =>
      match hex_value c with
      | Some d => hex_number (16 * acc + d)%N s'
      | None => None
      end
  end.

Definition BSONError : error :=
  MkError None "BSONError: input must be a 24 character hex string, 12 byte Uint8Array, or an integer" [].

(** [new ObjectId(s)] on a string: throws unless [s] is 24 hex digits. *)
Definition new_ObjectId (s : string) : res ObjectId :=
  if Nat.eqb (String.length s) 24 then
    match hex_number 0 s with
    | Some n => Val n
    | None => Exn BSONError
    end
  else Exn BSONError.

Definition hex_char (d : N) : ascii :=
  ascii_of_N (if (d <? 10)%N then 48 + d else 87 + d)%N.

Fixpoint hex_digits (k : nat) (n : N) (acc : string) : string :=
  match k with
  | O => acc
  | S k' => hex_digits k' (n / 16)%N (String (hex_char (n mod 16)%N) acc)
  end.

Definition toHexString (id : ObjectId) : string := hex_digits 24 id "".

Arguments new_ObjectId : simpl never.
Arguments toHexString : simpl never.

(** ** Documents *)

(** Field values of the untyped collection [mock_data_execution]. *)
Inductive value :=
  | VBool (b : bool)
  | VNum (n : Z)
  | VStr (s : string).

Abbreviation document := (gmap string value) (only parsing).

(** [Omit<ContactFormSubmission, "id">]: a stored submission. *)
Module Doc.
Record t := Make {
  name : string;
  email : string;
  subject : string;
  message : string;
  submission_timestamp : Z
}.
End Doc.

(** [Partial<Omit<ContactFormSubmission, "id">>]: the argument of
    [update]; an absent key is [None]. *)
Module Partial.
Record t := Make {
  name : option string;
  email : option string;
  subject : option string;
  message : option string;
  submission_timestamp : option Z
}.
End Partial.

(** [{ $set: fields }] on a stored submission: every key present in
    [fields] replaces the stored one, the others stay. *)
Definition set_fields (fields : Partial.t) (d : Doc.t) : Doc.t :=
  {| Doc.name := default (Doc.name d) (Partial.name fields);
     Doc.email := default (Doc.email d) (Partial.email fields);
     Doc.subject := default (Doc.subject d) (Partial.subject fields);
     Doc.message := default (Doc.message d) (Partial.message fields);
     Doc.submission_timestamp :=
       default (Doc.submission_timestamp d) (Partial.submission_timestamp fields) |}.

(** ** The datastore *)

Record Db := MkDb {
  mock_data_execution : gmap N (gmap string value);
  contact_form_submissions : list (ObjectId * Doc.t)
}.

Inductive update_doc :=
  | SetOnInsert (fields : document)   (* { $setOnInsert: fields } *)
  | Set_ (fields : document).         (* { $set: fields } *)

Record UpdateOptions := MkOptions { upsert : bool; session : bool }.

Record UpdateResult := MkUpdateResult { matchedCount : N; upsertedCount : N }.

Record InsertOneResult := MkInsertOneResult { acknowledged : bool; insertedId : ObjectId }.

(** [collection.updateOne({ _id: id }, u, { upsert })] on the status
    collection.  On a match [$set] overwrites the named fields and
    [$setOnInsert] changes nothing; without a match the document is
    inserted when [upsert] is set. *)
Definition updateOne (coll : gmap N (gmap string value)) (id : ObjectId)
    (u : update_doc) (ups : bool) : gmap N (gmap string value) * UpdateResult :=
  match coll !! id with
  | Some d =>
      match u with
      | Set_ fields => (<[id := fields ∪ d]> coll, MkUpdateResult 1 0)
      | SetOnInsert _ => (coll, MkUpdateResult 1 0)
      end
  | None =>
      if ups then
        match u with
        | Set_ fields | SetOnInsert fields => (<[id := fields]> coll, MkUpdateResult 0 1)
        end
      else (coll, MkUpdateResult 0 0)
  end.

(** The driver numbers the documents of one [insertMany] consecutively. *)
Fixpoint with_ids (next : N) (docs : list Doc.t) : list (ObjectId * Doc.t) :=
  match docs with
  | [] => []
  | d :: ds => (next, d) :: with_ids (N.succ next) ds
  end.

Fixpoint findOne (id : ObjectId) (coll : list (ObjectId * Doc.t)) : option (ObjectId * Doc.t) :=
  match coll with
  | [] => None
  | (i, d) :: rest => if N.eqb i id then Some (i, d) else findOne id rest
  end.

(** [findOneAndUpdate({ _id }, { $set }, { returnDocument: "after" })]:
    the first match is updated in place and returned as updated. *)
Fixpoint findOneAndUpdate (id : ObjectId) (fields : Partial.t)
    (coll : list (ObjectId * Doc.t)) : list (ObjectId * Doc.t) * option (ObjectId * Doc.t) :=
  match coll with
  | [] => ([], None)
  | (i, d) :: rest =>
      if N.eqb i id then ((i, set_fields fields d) :: rest, Some (i, set_fields fields d))
      else let (rest', r) := findOneAndUpdate id fields rest in ((i, d) :: rest', r)
  end.

(** [deleteOne({ _id })]: removes the first match; the count deleted. *)
Fixpoint deleteOne (id : ObjectId) (coll : list (ObjectId * Doc.t)) : list (ObjectId * Doc.t) * N :=
  match coll with
  | [] => ([], 0%N)
  | (i, d) :: rest =>
      if N.eqb i id then (rest, 1%N)
      else let (rest', n) := deleteOne id rest in ((i, d) :: rest', n)
  end.

(** ** The process and the world *)

(** What the environment decides for one awaited driver call: it
    succeeds, it fails with an error, or (for an upsert that finds the
    record already inserted by a concurrent writer) the server reports the
    lost race as a duplicate-key error instead of a match. *)
Inductive outcome :=
  | Normal
  | Raced
  | Fault (e : error).

Definition E11000 : error :=
  MkError (Some 11000%Z) "MongoServerError: E11000 duplicate key error collection" [].

Inductive level := INFO | ERROR.

(** The calls the code makes.  The first group is synchronous (module
    state, logger, clock, randomness, the un-awaited [endSession]); the
    second group is awaited driver calls. *)
Inductive call : Type :=
  | GetPopulationAttempted
  | SetPopulationAttempted (b : bool)
  | LogInfo (msg : string)
  | LogError (msg : string) (e : option error)
  | DateNow
  | MathRandom
  | EndSession
  | GetDb
  | GetClient
  | StartSession
  | StatusUpdateOne (id : ObjectId) (u : update_doc) (opts : UpdateOptions)
  | InsertMany (docs : list Doc.t) (in_session : bool)
  | InsertOne (doc : Doc.t)
  | FindOne (id : ObjectId)
  | FindOneAndUpdate (id : ObjectId) (fields : Partial.t)
  | DeleteOne (id : ObjectId)
  | CommitTransaction.

Definition reply (c : call) : Type :=
  match c with
  | GetPopulationAttempted => bool
  | DateNow => Z
  | MathRandom => string
  | StatusUpdateOne _ _ _ => UpdateResult
  | InsertOne _ => InsertOneResult
  | FindOne _ | FindOneAndUpdate _ _ => option (ObjectId * Doc.t)
  | DeleteOne _ => N
  | _ => unit
  end.

Definition awaited (c : call) : bool :=
  match c with
  | GetPopulationAttempted | SetPopulationAttempted _ | LogInfo _ | LogError _ _
  | DateNow | MathRandom | EndSession => false
  | _ => true
  end.

(** Writes to the collection [contact_form_submissions]. *)
Definition writes_submissions (c : call) : bool :=
  match c with
  | InsertMany _ _ | InsertOne _ | FindOneAndUpdate _ _ | DeleteOne _ => true
  | _ => false
  end.

Definition is_batch_insert (c : call) : bool :=
  match c with InsertMany _ _ => true | _ => false end.

(** What one process gets from outside: the readings of [Date.now()] in
    milliseconds, the strings [Math.random().toString(36).substring(2, 15)]
    gives, the outcomes of its awaited driver calls (each in the order the
    process asks), whether the write concern acknowledges writes, and how
    many times the 120 seconds [withTransaction] allows itself let the
    driver start a transaction over or send a commit again. *)
Record Env := MkEnv {
  clock : nat -> Z;
  random : nat -> string;
  oracle : nat -> outcome;
  write_concern_ack : bool;
  retries_in_time : nat
}.

(** State local to one Node process. *)
Record Proc := MkProc {
  env : Env;
  populationAttempted : bool;          (* the module-level flag *)
  logs : list (level * string * option error);   (* newest first *)
  clock_reads : nat;                   (* readings of the clock so far *)
  random_reads : nat;
  awaits : nat;                        (* awaited driver calls so far *)
  issued : list call;                  (* driver calls made, newest first *)
  next_oid : N                         (* the driver's ObjectId generator *)
}.

Record World := MkWorld { db : Db; proc : Proc }.

Definition fresh_db : Db := MkDb ∅ [].

Definition with_flag (b : bool) (p : Proc) : Proc :=
  MkProc (env p) b (logs p) (clock_reads p) (random_reads p) (awaits p) (issued p)
         (next_oid p).

Definition with_log (l : level * string * option error) (p : Proc) : Proc :=
  MkProc (env p) (populationAttempted p) (l :: logs p) (clock_reads p) (random_reads p)
         (awaits p) (issued p) (next_oid p).

Definition read_clock (p : Proc) : Z * Proc :=
  (clock (env p) (clock_reads p),
   MkProc (env p) (populationAttempted p) (logs p) (S (clock_reads p)) (random_reads p)
          (awaits p) (issued p) (next_oid p)).

Definition read_random (p : Proc) : string * Proc :=
  (random (env p) (random_reads p),
   MkProc (env p) (populationAttempted p) (logs p) (clock_reads p) (S (random_reads p))
          (awaits p) (issued p) (next_oid p)).

Definition record_call (c : call) (p : Proc) : Proc :=
  MkProc (env p) (populationAttempted p) (logs p) (clock_reads p) (random_reads p)
         (awaits p) (c :: issued p) (next_oid p).

Definition next_outcome (p : Proc) : outcome * Proc :=
  (oracle (env p) (awaits p),
   MkProc (env p) (populationAttempted p) (logs p) (clock_reads p) (random_reads p)
          (S (awaits p)) (issued p) (next_oid p)).

Definition take_oids (n : N) (p : Proc) : Proc :=
  MkProc (env p) (populationAttempted p) (logs p) (clock_reads p) (random_reads p)
         (awaits p) (issued p) (next_oid p + n)%N.

Definition fault_of (o : outcome) : option error :=
  match o with Fault e => Some e | _ => None end.

(** An awaited driver call: it is recorded, the environment's outcome is
    consumed, and a [Fault] rejects the promise without touching the
    datastore. *)
Definition attempt {R : Type} (c : call) (w : World)
    (act : outcome -> Db -> Proc -> res R * World) : res R * World :=
  let (o, p) := next_outcome (record_call c (proc w)) in
  match fault_of o with
  | Some e => (Exn e, MkWorld (db w) p)
  | None => act o (db w) p
  end.

(** [updateOne] on the status collection as the server answers it: an
    upsert that lost the race to a concurrent insert of the same [_id] is
    answered with E11000 when the environment says so ([Raced]); in every
    other case the update is applied. *)
Definition statusUpdateOne (o : outcome) (d : Db) (id : ObjectId) (u : update_doc)
    (opts : UpdateOptions) : res UpdateResult * Db :=
  match o, upsert opts, mock_data_execution d !! id with
  | Raced, true, Some _ => (Exn E11000, d)
  | _, _, _ =>
      let (coll, r) := updateOne (mock_data_execution d) id u (upsert opts) in
      (Val r, MkDb coll (contact_form_submissions d))
  end.

Definition perform (c : call) (w : World) : res (reply c) * World :=
  match c as c' return res (reply c') * World with
  | GetPopulationAttempted => (Val (populationAttempted (proc w)), w)
  | SetPopulationAttempted b => (Val tt, MkWorld (db w) (with_flag b (proc w)))
  | LogInfo msg => (Val tt, MkWorld (db w) (with_log (INFO, msg, None) (proc w)))
  | LogError msg e => (Val tt, MkWorld (db w) (with_log (ERROR, msg, e) (proc w)))
  | DateNow => let (t, p) := read_clock (proc w) in (Val t, MkWorld (db w) p)
  | MathRandom => let (s, p) := read_random (proc w) in (Val s, MkWorld (db w) p)
  | EndSession => (Val tt, MkWorld (db w) (record_call EndSession (proc w)))
  | GetDb => attempt GetDb w (fun _ d p => (Val tt, MkWorld d p))
  | GetClient => attempt GetClient w (fun _ d p => (Val tt, MkWorld d p))
  | StartSession => attempt StartSession w (fun _ d p => (Val tt, MkWorld d p))
  | CommitTransaction => attempt CommitTransaction w (fun _ d p => (Val tt, MkWorld d p))
  | StatusUpdateOne id u opts =>
      attempt (StatusUpdateOne id u opts) w (fun o d p =>
        let (r, d') := statusUpdateOne o d id u opts in (r, MkWorld d' p))
  | InsertMany docs s =>
      attempt (InsertMany docs s) w (fun _ d p =>
        (Val tt,
         MkWorld (MkDb (mock_data_execution d)
                       (contact_form_submissions d ++ with_ids (next_oid p) docs))
                 (take_oids (N.of_nat (length docs)) p)))
  | InsertOne doc =>
      attempt (InsertOne doc) w (fun _ d p =>
        (Val (MkInsertOneResult (write_concern_ack (env p)) (next_oid p)),
         MkWorld (MkDb (mock_data_execution d)
                       (contact_form_submissions d ++ [(next_oid p, doc)]))
                 (take_oids 1 p)))
  | FindOne id =>
      attempt (FindOne id) w (fun _ d p =>
        (Val (findOne id (contact_form_submissions d)), MkWorld d p))
  | FindOneAndUpdate id fields =>
      attempt (FindOneAndUpdate id fields) w (fun _ d p =>
        let (coll, r) := findOneAndUpdate id fields (contact_form_submissions d) in
        (Val r, MkWorld (MkDb (mock_data_execution d) coll) p))
  | DeleteOne id =>
      attempt (DeleteOne id) w (fun _ d p =>
        let (coll, n) := deleteOne id (contact_form_submissions d) in
        (Val n, MkWorld (MkDb (mock_data_execution d) coll) p))
  end.

(** ** Programs *)

(** A computation: it returns, throws, makes a call and continues with
    the reply (or the error the call threw), or runs [body] inside
    [session.withTransaction]. *)
Inductive prog (A : Type) : Type :=
  | Ret (a : A)
  | Throw (e : error)
  | Do (c : call) (k : res (reply c) -> prog A)
  | WithTransaction (body : prog unit) (k : res unit -> prog A).
Arguments Ret {A} a.
Arguments Throw {A} e.
Arguments Do {A} c k.
Arguments WithTransaction {A} body k.

Definition invoke (c : call) : prog (reply c) :=
  Do c (fun r => match r with Val v => Ret v | Exn e => Throw e end).

Definition withTransaction (body : prog unit) : prog unit :=
  WithTransaction body (fun r => match r with Val v => Ret v | Exn e => Throw e end).

Fixpoint bind {A B : Type} (p : prog A) (f : A -> prog B) : prog B :=
  match p with
  | Ret a => f a
  | Throw e => Throw e
  | Do c k => Do c (fun r => bind (k r) f)
  | WithTransaction body k => WithTransaction body (fun r => bind (k r) f)
  end.

#[global] Instance prog_ret : MRet prog := @Ret.
#[global] Instance prog_bind : MBind prog := fun A B f p => bind p f.

(** [try { p } catch (error) { handler error }] *)
Fixpoint try_catch {A : Type} (p : prog A) (handler : error -> prog A) : prog A :=
  match p with
  | Ret a => Ret a
  | Throw e => handler e
  | Do c k => Do c (fun r => try_catch (k r) handler)
  | WithTransaction body k => WithTransaction body (fun r => try_catch (k r) handler)
  end.

(** [try { p } finally { cleanup }] *)
Fixpoint try_finally {A : Type} (p : prog A) (cleanup : prog unit) : prog A :=
  match p with
  | Ret a => bind cleanup (fun _ => Ret a)
  | Throw e => bind cleanup (fun _ => Throw e)
  | Do c k => Do c (fun r => try_finally (k r) cleanup)
  | WithTransaction body k => WithTransaction body (fun r => try_finally (k r) cleanup)
  end.

(** ** Running a program to completion *)

Definition set_db (d : Db) (w : World) : World := MkWorld d (proc w).

(** *** [session.withTransaction] *)

Definition TransientTransactionError : string := "TransientTransactionError".
Definition UnknownTransactionCommitResult : string := "UnknownTransactionCommitResult".

(** [error.hasErrorLabel(label)] *)
Definition hasErrorLabel (e : error) (label : string) : bool :=
  existsb (String.eqb label) (errorLabels e).

(** The driver's [isMaxTimeMSExpiredError]: the server's code 50. *)
Definition isMaxTimeMSExpiredError (e : error) : bool :=
  bool_decide (code e = Some 50%Z).

(** A write belongs to the transaction when it is given the session. *)
Definition carries_session (c : call) : bool :=
  match c with
  | InsertMany _ in_session => in_session
  | StatusUpdateOne _ _ opts => session opts
  | _ => false
  end.

(** [startTransaction] on a session that has a transaction under way. *)
Definition TransactionInProgress : error :=
  MkError None "MongoTransactionError: Transaction already in progress" [].

(** The callback of [withTransaction], run while the transaction is under
    way.  [w] holds the datastore as the transaction sees it; [outside]
    is the datastore as it is for everyone else, which is what stays when
    the transaction is aborted: a call that carries the session leaves it
    alone, and a call that does not carry the session is applied to it as
    well. *)
Fixpoint run_in_transaction {A : Type} (p : prog A) (outside : Db) (w : World) :
    res A * World * Db :=
  match p with
  | Ret a => (Val a, w, outside)
  | Throw e => (Exn e, w, outside)
  | Do c k =>
      let (r, w') := perform c w in
      run_in_transaction (k r)
        (if carries_session c then outside
         else db (snd (perform c (MkWorld outside (proc w)))))
        w'
  | WithTransaction _ k => run_in_transaction (k (Exn TransactionInProgress)) outside w
  end.

(** Where [withTransaction] is: about to start a transaction and run the
    callback, or about to commit (the callback has returned; [outside] is
    the datastore without the transaction's writes). *)
Inductive stage :=
  | Callback
  | Commit (outside : Db).

(** The loop of [withTransaction].  When the callback throws, the
    transaction is aborted; an error labelled [TransientTransactionError]
    makes the driver start over, any other is thrown.  When the callback
    returns, the driver commits; it commits again on an error labelled
    [UnknownTransactionCommitResult] (unless the server's time limit
    expired), starts over on [TransientTransactionError], and throws any
    other.  Nothing is tried again once the time is up ([retries] is how
    many more tries the time allows).  Whenever an error is thrown the
    datastore is left without the transaction's writes.  (The driver's
    [abortTransaction] is not a call the world records: the driver
    ignores whether it succeeds.) *)
Fixpoint transact (callback : World -> res unit * World * Db) (retries : nat)
    (s : stage) (w : World) : res unit * World :=
  let '(r, w1, outside) :=
    match s with
    | Callback => callback w
    | Commit outside => (Val tt, w, outside)
    end in
  match r with
  | Exn e =>
      if hasErrorLabel e TransientTransactionError then
        match retries with
        | S n => transact callback n Callback (set_db outside w1)
        | O => (Exn e, set_db outside w1)
        end
      else (Exn e, set_db outside w1)
  | Val _ =>
      let (c, w2) := perform CommitTransaction w1 in
      match c with
      | Val _ => (Val tt, w2)
      | Exn e =>
          match retries with
          | S n =>
              if negb (isMaxTimeMSExpiredError e) &&
                 hasErrorLabel e UnknownTransactionCommitResult
              then transact callback n (Commit outside) w2
              else if hasErrorLabel e TransientTransactionError
              then transact callback n Callback (set_db outside w2)
              else (Exn e, set_db outside w2)
          | O => (Exn e, set_db outside w2)
          end
      end
  end.

(** [session.withTransaction(body)], called in world [w]. *)
Definition run_withTransaction_in (body : prog unit) (w : World) : res unit * World :=
  transact (fun w0 => run_in_transaction body (db w0) w0)
           (retries_in_time (env (proc w))) Callback w.

Fixpoint run {A : Type} (p : prog A) (w : World) : res A * World :=
  match p with
  | Ret a => (Val a, w)
  | Throw e => (Exn e, w)
  | Do c k => let (r, w') := perform c w in run (k r) w'
  | WithTransaction body k =>
      let (r, w') := run_withTransaction_in body w in run (k r) w'
  end.

(** Every call of [p] either carries the session or writes nothing, and
    [p] starts no transaction of its own: run as a callback, [p] does to
    the datastore outside nothing at all. *)
Fixpoint enrolled {A : Type} (p : prog A) : Prop :=
  match p with
  | Ret _ | Throw _ => True
  | Do c k =>
      (forall (d : Db) (q : Proc),
         (if carries_session c then d else db (snd (perform c (MkWorld d q)))) = d) /\
      (forall r, enrolled (k r))
  | WithTransaction _ _ => False
  end.

(** ** models/contact_form_submission.ts *)

Module ContactFormSubmission.

Record t := Make {
  id : string;
  name : string;
  email : string;
  subject : string;
  message : string;
  submission_timestamp : Z
}.

(** [fromDocument(doc)]: [null] for a missing document. *)
Definition fromDocument (doc : option (ObjectId * Doc.t)) : option t :=
  match doc with
  | None => None
  | Some (_id, d) =>
      Some (Make (toHexString _id) (Doc.name d) (Doc.email d) (Doc.subject d)
                 (Doc.message d) (Doc.submission_timestamp d))
  end.

Definition toDocument (this : t) : Doc.t :=
  Doc.Make (name this) (email this) (subject this) (message this)
           (submission_timestamp this).

Definition create (name email subject message : string) : prog (option t) :=
  try_catch
    (invoke GetDb;;
     now ← invoke DateNow;
     let submission_timestamp := (now / 1000)%Z in
     let newSubmissionData :=
       Doc.Make name email subject message submission_timestamp in
     result ← invoke (InsertOne newSubmissionData);
     (* [result.insertedId] is an ObjectId object, which is truthy *)
     if acknowledged result then
       Ret (Some (Make (toHexString (insertedId result)) name email subject message
                       submission_timestamp))
     else Ret None)
    (fun error =>
       invoke (LogError "Error creating contact form submission: " (Some error));;
       Ret None).

Definition get_by_id (id : string) : prog (option t) :=
  try_catch
    (invoke GetDb;;
     match new_ObjectId id with
     | Exn e => Throw e
     | Val _id =>
         doc ← invoke (FindOne _id);
         Ret (fromDocument doc)
     end)
    (fun error =>
       invoke (LogError ("Error getting contact form submission by id " ++ id ++ ": ")
                        (Some error));;
       Ret None).

Definition update (id : string) (updateFields : Partial.t) : prog (option t) :=
  try_catch
    (invoke GetDb;;
     match new_ObjectId id with
     | Exn e => Throw e
     | Val _id =>
         result ← invoke (FindOneAndUpdate _id updateFields);
         Ret (fromDocument result)
     end)
    (fun error =>
       invoke (LogError ("Error updating contact form submission with id " ++ id ++ ": ")
                        (Some error));;
       Ret None).

Definition delete (id : string) : prog bool :=
  try_catch
    (invoke GetDb;;
     match new_ObjectId id with
     | Exn e => Throw e
     | Val _id =>
         deletedCount ← invoke (DeleteOne _id);
         Ret (N.eqb deletedCount 1)
     end)
    (fun error =>
       invoke (LogError ("Error deleting contact form submission with id " ++ id ++ ": ")
                        (Some error));;
       Ret false).

End ContactFormSubmission.

(** ** mockdata.ts *)

(** One entry of the array literal [mockSubmissions]: its timestamp is
    [Math.floor(Date.now() / 1000) - offset], the clock being read when
    the entry is built. *)
Definition mock (name email subject message : string) (offset : Z) : prog Doc.t :=
  now ← invoke DateNow;
  Ret (Doc.Make name email subject message (now / 1000 - offset)%Z).

Definition mockSubmissions : prog (list Doc.t) :=
  s0 ← mock "Rajesh Kumar" "rajesh.kumar@example.com" "Collaboration Opportunity"
        "Hi Kaviya, I came across your portfolio and I'm impressed with your full-stack development skills. I'd like to discuss a potential collaboration on a MERN stack project. Please let me know if you're interested."
        (86400 * 7);
  s1 ← mock "Priya Sharma" "priya.sharma@techcorp.com"
        "Job Opportunity - Senior Full Stack Developer"
        "Hello Kaviya, We are looking for a talented Full Stack Developer to join our team. Your experience with React, Node.js, and MongoDB aligns perfectly with our requirements. Would you be available for a discussion?"
        (86400 * 5);
  s2 ← mock "Arun Patel" "arun.patel@startup.io" "Freelance Project Inquiry"
        "Hi, I'm working on a weather application and noticed your weather project in your portfolio. I'd love to discuss a freelance opportunity to build something similar with additional features. Let me know your availability."
        (86400 * 3);
  s3 ← mock "Sneha Reddy" "sneha.reddy@designstudio.com" "UI/UX Collaboration"
        "Hello Kaviya, I'm a UI/UX designer and I'm impressed by your portfolio design. I'd like to collaborate on some projects where we can combine our skills. Are you open to freelance work?"
        (86400 * 2);
  s4 ← mock "Vikram Singh" "vikram.singh@gmail.com" "Question about GitHub Profile Finder"
        "Hey Kaviya, I really liked your GitHub Profile Finder project. I'm a beginner developer and would love to know more about how you implemented it. Could you share some insights or resources?"
        86400;
  s5 ← mock "Meera Iyer" "meera.iyer@webagency.com" "Portfolio Website Development"
        "Hi Kaviya, Our agency is looking for a developer to build portfolio websites for our clients. Your portfolio is exactly the kind of quality we're looking for. Would you be interested in taking on such projects?"
        43200;
  s6 ← mock "Karthik Menon" "karthik.menon@example.com" "Mentorship Request"
        "Hello Kaviya, I'm a student learning full-stack development and I'm really inspired by your work. Would you be open to mentoring or providing guidance on my learning journey? I'd really appreciate any help."
        21600;
  s7 ← mock "Divya Nair" "divya.nair@techsolutions.in" "Recipe Finder App - Partnership"
        "Hi Kaviya, I run a food blog and I'm interested in integrating a recipe finder feature similar to your project. Would you be interested in discussing a partnership or custom development work?"
        7200;
  s8 ← mock "Arjun Desai" "arjun.desai@innovate.com" "Speaking Opportunity at Tech Conference"
        "Hello Kaviya, We're organizing a tech conference in Coimbatore and would love to have you as a speaker to share your experience as a Full Stack Developer. Please let us know if you'd be interested."
        3600;
  s9 ← mock "Lakshmi Krishnan" "lakshmi.k@devteam.com" "Budget Tracking App Inquiry"
        "Hi Kaviya, I saw your budget tracking application and I'm interested in having a similar app developed for our small business. Could we schedule a call to discuss the requirements and pricing?"
        1800;
  Ret [s0; s1; s2; s3; s4; s5; s6; s7; s8; s9].

Arguments mockSubmissions : simpl never.

Definition insertMockData (session : bool) : prog unit :=
  docs ← mockSubmissions;
  invoke (InsertMany docs session).

(** [new ObjectId("000000000000000000000001")] *)
Definition mock_data_id : ObjectId := 1%N.

Definition populate_with_mock_data : prog unit :=
  attempted ← invoke GetPopulationAttempted;
  if attempted : bool then
    invoke (LogInfo "Population already attempted in this process, skipping")
  else
    invoke (SetPopulationAttempted true);;
    invoke GetDb;;
    try_catch
      (now ← invoke DateNow;
       token ← invoke MathRandom;
       result ← invoke (StatusUpdateOne mock_data_id
                   (SetOnInsert {[ "executed" := VBool true;
                                   "timestamp" := VNum (now / 1000)%Z;
                                   "instance" := VStr ("instance-" ++ token) ]})
                   (MkOptions true false));
       if N.eqb (upsertedCount result) 0 then
         invoke (LogInfo "Mock data flag already exists, skipping execution")
       else
         invoke (LogInfo "Starting mock data population for storm_preview_user...");;
         invoke GetClient;;
         invoke StartSession;;
         try_finally
           (try_catch
              (withTransaction
                 (insertMockData true;;
                  now ← invoke DateNow;
                  invoke (StatusUpdateOne mock_data_id
                            (Set_ {[ "completed" := VBool true;
                                     "completedTimestamp" := VNum (now / 1000)%Z ]})
                            (MkOptions false true));;
                  invoke (LogInfo "Successfully populated mock data")))
              (fun error =>
                 invoke (LogError "Failed to populate mock data during transaction:"
                                  (Some error));;
                 try_catch
                   (now ← invoke DateNow;
                    invoke (StatusUpdateOne mock_data_id
                              (Set_ {[ "failed" := VBool true;
                                       "failedTimestamp" := VNum (now / 1000)%Z;
                                       "error" := VStr (description error) ]})
                              (MkOptions false false));;
                    Ret tt)
                   (fun updateError =>
                      invoke (LogError "Failed to update error state:" (Some updateError)));;
                 Throw error))
           (invoke EndSession))
      (fun error =>
         if bool_decide (code error = Some 11000%Z) then
           invoke (LogInfo "Another process is handling population, skipping")
         else
           invoke (LogError "Failed to initialize mock data population:" (Some error));;
           Throw error).
(** The callback [populate_with_mock_data] gives to [withTransaction]. *)
Definition seeding_callback : prog unit :=
  insertMockData true;;
  now ← invoke DateNow;
  invoke (StatusUpdateOne mock_data_id
            (Set_ {[ "completed" := VBool true;
                     "completedTimestamp" := VNum (now / 1000)%Z ]})
            (MkOptions false true));;
  invoke (LogInfo "Successfully populated mock data").

(** The fields the completion update sets, at clock reading [now]. *)
Definition completion (now : Z) : gmap string value :=
  {[ "completed" := VBool true; "completedTimestamp" := VNum (now / 1000)%Z ]}.

(** ** The batch of [insertMockData] *)

(** The offsets of the ten entries of [mockSubmissions], in list order:
    7, 5, 3, 2 and 1 days, then 12, 6, 2 and 1 hours, then 30 minutes. *)
Definition offsets : list Z :=
  [86400 * 7; 86400 * 5; 86400 * 3; 86400 * 2; 86400; 43200; 21600; 7200; 3600; 1800]%Z.

Definition strictly_decreasing (l : list Z) : Prop := StronglySorted (fun a b => (b < a)%Z) l.
Definition strictly_increasing (l : list Z) : Prop := StronglySorted Z.lt l.

(** [Date.now()] never goes backwards. *)
Definition monotone_clock (e : Env) : Prop :=
  forall i j : nat, i <= j -> (clock e i <= clock e j)%Z.

Definition all_fields_non_empty (d : Doc.t) : Prop :=
  Doc.name d <> "" /\ Doc.email d <> "" /\ Doc.subject d <> "" /\ Doc.message d <> "".

(** The timestamps a batch built from clock readings [f k], [f (k+1)], ...
    gets: each reading in seconds, minus the entry's offset. *)
Definition stamps (f : nat -> Z) (k : nat) (offs : list Z) : list Z :=
  zip_with (fun i off => (f i / 1000 - off)%Z) (seq k (length offs)) offs.


(** The batch a process builds when it evaluates [mockSubmissions] in
    world [w]. *)
Definition built_batch (w : World) : list Doc.t :=
  match fst (run mockSubmissions w) with
  | Val docs => docs
  | Exn _ => []
  end.

Arguments built_batch : simpl never.

(** The process after [n] more readings of the clock. *)
Definition after_clock_reads (n : nat) (p : Proc) : Proc :=
  MkProc (env p) (populationAttempted p) (logs p) (n + clock_reads p) (random_reads p)
         (awaits p) (issued p) (next_oid p).

(** ** Sample environments *)

(** A clock that advances one millisecond per reading and a datastore
    that never fails. *)
Definition steady_env : Env :=
  MkEnv (fun i => 1700000000123 + Z.of_nat i)%Z (fun _ => "k3x9q") (fun _ => Normal) true 3.

(** The same, with the outcomes of the awaited calls scripted: the i-th
    awaited call gets the i-th outcome of [script], and [Normal] beyond. *)
Definition scripted_env (script : list outcome) : Env :=
  MkEnv (fun i => 1700000000123 + Z.of_nat i)%Z (fun _ => "k3x9q")
        (fun i => nth i script Normal) true 3.

(** A process that has just started. *)
Definition boot_proc (e : Env) : Proc := MkProc e false [] 0 0 0 [] 100.

(** ** Notions the claims are stated with *)

(** One of the next [n] awaited calls of the process is made to fail. *)
Definition faulted (n : nat) (p : Proc) : Prop :=
  exists (i : nat) (e : error), i < n /\ oracle (env p) (i + awaits p) = Fault e.

(** None of the next [n] awaited calls of the process is made to fail. *)
Definition calm (n : nat) (p : Proc) : Prop :=
  forall i : nat, i < n -> fault_of (oracle (env p) (i + awaits p)) = None.

(** The stored timestamp of each submission, by identifier. *)
Definition stored_timestamps (d : Db) : list (ObjectId * Z) :=
  map (fun x => (fst x, Doc.submission_timestamp (snd x))) (contact_form_submissions d).

(** A datastore holding one submission, stored at ObjectId
    [000000000000000000000001] with timestamp 1700000000. *)
Definition one_submission_db : Db :=
  MkDb ∅ [(1%N, Doc.Make "Asha" "asha@example.com" "Hello" "A question" 1700000000)].

(** [{ submission_timestamp: 0 }] *)
Definition only_timestamp (t : Z) : Partial.t :=
  Partial.Make None None None None (Some t).

(** [{ subject: s }] *)
Definition only_subject (s : string) : Partial.t :=
  Partial.Make None None (Some s) None None.

Fixpoint count_calls (f : call -> bool) (l : list call) : nat :=
  match l with
  | [] => 0
  | c :: l' => if f c then S (count_calls f l') else count_calls f l'
  end.

(** The number of batch inserts among the calls a process has made. *)
Definition batch_inserts (p : Proc) : nat := count_calls is_batch_insert (issued p).

(** The number of calls a process has made that write to the submissions
    store. *)
Definition submission_writes (p : Proc) : nat := count_calls writes_submissions (issued p).

(** A datastore in which the record at the fixed identifier exists, with
    [executed = true]. *)
Definition seeded_record : gmap string value :=
  {[ "executed" := VBool true; "timestamp" := VNum 1690000000;
     "instance" := VStr "instance-a1b2c3" ]}.

Definition locked_db : Db := MkDb {[ mock_data_id := seeded_record ]} [].

(** The transactional phase of a process that is about to make its
    awaited calls [getDb], the lock upsert, [getClient], [startSession]
    (calls 0 to 3 from now) fails with [e]: at the batch insert (call 4),
    at the completion update (call 5) or at the commit (call 6).  The
    index is that of the awaited call that follows the failure. *)
Inductive transaction_fails (p : Proc) (e : error) : nat -> Prop :=
  | insert_fails :
      oracle (env p) (4 + awaits p) = Fault e ->
      transaction_fails p e 5
  | completion_fails :
      fault_of (oracle (env p) (4 + awaits p)) = None ->
      oracle (env p) (5 + awaits p) = Fault e ->
      transaction_fails p e 6
  | commit_fails :
      fault_of (oracle (env p) (4 + awaits p)) = None ->
      fault_of (oracle (env p) (5 + awaits p)) = None ->
      oracle (env p) (6 + awaits p) = Fault e ->
      transaction_fails p e 7.

(** The update that records a failure [e], made at clock reading [now]. *)
Definition failure_mark (now : Z) (e : error) : call :=
  StatusUpdateOne mock_data_id
    (Set_ {[ "failed" := VBool true;
             "failedTimestamp" := VNum (now / 1000)%Z;
             "error" := VStr (description e) ]})
    (MkOptions false false).

Definition connection_lost : error := MkError None "MongoNetworkError: connection lost" [].

(** The server refuses a write (code 121); the driver throws such an
    error as it is. *)
Definition validation_failed : error :=
  MkError (Some 121%Z) "MongoServerError: Document failed validation" [].

(** A connection lost while a transaction is under way: the driver labels
    the error, and [withTransaction] starts over on it. *)
Definition connection_lost_in_transaction : error :=
  MkError None "MongoNetworkError: connection lost" [TransientTransactionError].

(** The environment's answers, call by call, for a process that acquires
    the lock on a fresh datastore: [getDb], the lock upsert, [getClient],
    [startSession], then the batch insert, the completion update, the
    commit. *)
Definition completion_update_fails : list outcome :=
  [Normal; Normal; Normal; Normal; Normal; Fault validation_failed].

(** The same, with a completion update that fails because the connection
    is lost, and calls that succeed from then on. *)
Definition completion_update_fails_once : list outcome :=
  [Normal; Normal; Normal; Normal; Normal; Fault connection_lost_in_transaction].

Definition batch_insert_hits_duplicate_key : list outcome :=
  [Normal; Normal; Normal; Normal; Fault E11000].

Definition duplicate_key_then_status_write_fails : list outcome :=
  [Normal; Normal; Normal; Normal; Fault E11000; Fault connection_lost].

Definition lock_insert_hits_duplicate_key : list outcome :=
  [Normal; Fault E11000].

Definition fresh_world (script : list outcome) : World :=
  MkWorld fresh_db (boot_proc (scripted_env script)).

(** ** Several processes on one datastore *)

(** One invocation in its own process runs from one awaited call to the
    next: [resume] executes the synchronous code up to the next awaited
    driver call, and that call.  A transaction is one step: the
    transaction facility makes its writes and its commit take effect
    together (a [withTransaction] the driver has to try again is taken
    whole as well). *)
Fixpoint resume {A : Type} (p : prog A) (w : World) : prog A * World :=
  match p with
  | Ret a => (Ret a, w)
  | Throw e => (Throw e, w)
  | Do c k =>
      let (r, w') := perform c w in
      if awaited c then (k r, w') else resume (k r) w'
  | WithTransaction body k =>
      let (r, w') := run_withTransaction_in body w in (k r, w')
  end.

(** The processes, each with what is left of its invocation, and the
    datastore they share. *)
Record Config := MkConfig {
  shared : Db;
  threads : list (Proc * prog unit)
}.

(** Process [i] takes its next step on the shared datastore. *)
Definition step_on (d : Db) (t : Proc * prog unit) : Db * (Proc * prog unit) :=
  let (code, w) := resume (snd t) (MkWorld d (fst t)) in (db w, (proc w, code)).

Definition schedule (c : Config) (i : nat) : Config :=
  match threads c !! i with
  | Some t => let (d, t') := step_on (shared c) t in MkConfig d (<[i := t']> (threads c))
  | None => c
  end.

Definition run_schedule (sched : list nat) (c : Config) : Config :=
  fold_left schedule sched c.

(** [N] processes boot on a fresh datastore and each calls
    [populate_with_mock_data()]. *)
Definition boot (procs : list Proc) : Config :=
  MkConfig fresh_db (map (fun p => (p, populate_with_mock_data)) procs).

(** A process that has just started, on a datastore whose calls do not
    fail (a lost upsert race may still be answered with E11000). *)
Definition fresh_process (p : Proc) : Prop :=
  populationAttempted p = false /\
  issued p = [] /\
  forall i : nat, fault_of (oracle (env p) i) = None.

(** Every process gets at least [n] steps. *)
Definition fair (n : nat) (processes : nat) (sched : list nat) : Prop :=
  forall i : nat, i < processes -> n <= count_occ Nat.eq_dec sched i.

(** A list of documents that is one evaluation of [mockSubmissions]. *)
Definition is_mock_batch (docs : list Doc.t) : Prop :=
  exists w : World, fst (run mockSubmissions w) = Val docs.

Definition locked (d : Db) : Prop :=
  is_Some (mock_data_execution d !! mock_data_id).

(** The submissions store holds one batch and nothing else. *)
Definition holds_one_batch (d : Db) : Prop :=
  exists (oid : ObjectId) (docs : list Doc.t),
    is_mock_batch docs /\ contact_form_submissions d = with_ids oid docs.

(** *** What a process will do, by the steps it has left

    [idle n t]: within [n] steps, on a datastore where the record
    exists, [t] returns normally without writing.  [holder n t]: [t]
    holds the lock; within [n] steps, on a datastore where the record
    exists and the submissions store is empty, it inserts the batch once
    and returns normally.  [racer n t]: [t] has not tried the lock yet;
    it takes it if the record is absent when it tries, and is idle
    otherwise. *)
Fixpoint idle (n : nat) (t : Proc * prog unit) : Prop :=
  match n with
  | O => snd t = Ret tt
  | S n' =>
      forall d : Db, locked d ->
        fst (step_on d t) = d /\
        batch_inserts (fst (snd (step_on d t))) = batch_inserts (fst t) /\
        idle n' (snd (step_on d t))
  end.

Fixpoint holder (n : nat) (t : Proc * prog unit) : Prop :=
  match n with
  | O => False
  | S n' =>
      forall d : Db, locked d -> contact_form_submissions d = [] ->
        (fst (step_on d t) = d /\
         batch_inserts (fst (snd (step_on d t))) = batch_inserts (fst t) /\
         holder n' (snd (step_on d t))) \/
        (locked (fst (step_on d t)) /\ holds_one_batch (fst (step_on d t)) /\
         batch_inserts (fst (snd (step_on d t))) = S (batch_inserts (fst t)) /\
         idle n' (snd (step_on d t)))
  end.

Fixpoint racer (n : nat) (t : Proc * prog unit) : Prop :=
  match n with
  | O => False
  | S n' =>
      forall d : Db,
        batch_inserts (fst (snd (step_on d t))) = batch_inserts (fst t) /\
        ((fst (step_on d t) = d /\ racer n' (snd (step_on d t))) \/
         (locked d /\ fst (step_on d t) = d /\ idle n' (snd (step_on d t))) \/
         (~ locked d /\ locked (fst (step_on d t)) /\
          contact_form_submissions (fst (step_on d t)) = contact_form_submissions d /\
          holder n' (snd (step_on d t))))
  end.

(** *** The invariant of the race *)

Inductive role := Racer | Holder | Idle.

Definition plays (r : role) (n : nat) (t : Proc * prog unit) : Prop :=
  match r with
  | Racer => racer n t
  | Holder => holder n t
  | Idle => idle n t
  end.

(** The datastore has no record yet, or process [h] holds the lock and
    has not inserted yet, or process [h] has inserted the batch. *)
Inductive phase := Unlocked | Held (h : nat) | Seeded (h : nat).

(** Each invocation needs at most six steps. *)
Definition steps_left (done : list nat) (i : nat) : nat :=
  6 - count_occ Nat.eq_dec done i.

Definition race_invariant (n : nat) (done : list nat) (c : Config) : Prop :=
  length (threads c) = n /\
  exists (ph : phase) (role_of : nat -> role),
    (forall i t, threads c !! i = Some t -> plays (role_of i) (steps_left done i) t) /\
    match ph with
    | Unlocked =>
        ~ locked (shared c) /\
        contact_form_submissions (shared c) = [] /\
        (forall i, role_of i = Racer) /\
        (forall i t, threads c !! i = Some t -> batch_inserts (fst t) = 0)
    | Held h =>
        locked (shared c) /\
        contact_form_submissions (shared c) = [] /\
        h < n /\ role_of h = Holder /\
        (forall i, i <> h -> role_of i <> Holder) /\
        (forall i t, threads c !! i = Some t -> batch_inserts (fst t) = 0)
    | Seeded h =>
        locked (shared c) /\
        holds_one_batch (shared c) /\
        h < n /\
        (forall i, role_of i <> Holder) /\
        (forall i t, threads c !! i = Some t ->
                     batch_inserts (fst t) = if Nat.eqb i h then 1 else 0)
    end.

(** [role_of], with process [i] now playing [r]. *)
Definition with_role (role_of : nat -> role) (i : nat) (r : role) (j : nat) : role :=
  if Nat.eqb j i then r else role_of j.

(** Three processes booting together, scheduled in turn. *)
Definition three_processes : list Proc :=
  [boot_proc steady_env; boot_proc steady_env; boot_proc steady_env].

Definition round_robin : list nat :=
  [0; 1; 2; 0; 1; 2; 0; 1; 2; 0; 1; 2; 0; 1; 2; 0; 1; 2].

(** ** Notions the further properties are stated with *)

(** What the datastore holds when the transaction has gone through: the
    record with the completion fields, and one batch after the
    submissions there were. *)
Definition seeded_from (st : gmap N (gmap string value)) (subs : list (ObjectId * Doc.t))
    (d : gmap string value) (after : Db) : Prop :=
  exists (oid : ObjectId) (docs : list Doc.t) (now : Z),
    is_mock_batch docs /\
    after = MkDb (<[mock_data_id := completion now ∪ d]> st) (subs ++ with_ids oid docs).


(** The [completed] field of the status record, if there is a record and
    it has the field. *)
Definition completed_field (d : Db) : option value :=
  match mock_data_execution d !! mock_data_id with
  | Some record => record !! "completed"
  | None => None
  end.

(** ** index.ts: seeding at boot *)

(** The promise [mockDataInitialized]: the seeder is called when the
    environment variable [USE_MOCK] is the string ["true"], and an error
    it throws is logged.  ([console.log] writes to standard output, which
    the world does not hold.) *)
Definition mockDataInitialized (USE_MOCK : option string) : prog unit :=
  if bool_decide (USE_MOCK = Some "true") then
    try_catch
      (populate_with_mock_data;;
       invoke (LogInfo "Mock data initialization complete"))
      (fun mockError =>
         invoke (LogError "Mock data initialization failed:" (Some mockError)))
  else Ret tt.

(** ** Notions for the stored submissions *)

(** Identifiers are 12 bytes and no two stored documents share one. *)
Definition ids_unique (coll : list (ObjectId * Doc.t)) : Prop :=
  NoDup (map fst coll).

(** The collection without the documents stored at [_id]. *)
Definition without (_id : ObjectId) (coll : list (ObjectId * Doc.t)) : list (ObjectId * Doc.t) :=
  List.filter (fun x => negb (N.eqb (fst x) _id)) coll.

(** The collection with [fields] written over the documents stored at
    [_id]. *)
Definition patched (_id : ObjectId) (fields : Partial.t) (coll : list (ObjectId * Doc.t)) :
    list (ObjectId * Doc.t) :=
  map (fun x => if N.eqb (fst x) _id then (fst x, set_fields fields (snd x)) else x) coll.

(** ** Request handlers *)

(** A value of a parsed JSON request body, or [undefined] for a key the
    body does not have.  Of a number the handlers test only whether it is
    falsy ([0], [-0], [NaN]); an array is an object. *)
Inductive jsvalue :=
  | JUndefined
  | JNull
  | JBoolean (b : bool)
  | JNumber (falsy : bool)
  | JString (s : string)
  | JObject.

(** [!!v] *)
Definition truthy (v : jsvalue) : bool :=
  match v with
  | JUndefined | JNull => false
  | JBoolean b => b
  | JNumber falsy => negb falsy
  | JString s => negb (Nat.eqb (String.length s) 0)
  | JObject => true
  end.

(** Strings are sequences of code units; a [string] here holds the code
    units below 256.  Among those, the white space and line terminators
    of the language are TAB, LF, VT, FF, CR, SP and NBSP. *)
Definition is_white_space (c : ascii) : bool :=
  let n := N_of_ascii c in
  ((9 <=? n) && (n <=? 13) || (n =? 32) || (n =? 160))%N.

Fixpoint trimStart (s : string) : string :=
  match s with
  | EmptyString => EmptyString
  | String c s' => if is_white_space c then trimStart s' else s
  end.

Fixpoint trimEnd (s : string) : string :=
  match s with
  | EmptyString => EmptyString
  | String c s' =>
      match trimEnd s' with
      | EmptyString => if is_white_space c then EmptyString else String c EmptyString
      | t => String c t
      end
  end.

(** [s.trim()] *)
Definition trim (s : string) : string := trimEnd (trimStart s).

(** Regular expressions, as far as the pattern of the handler needs them,
    closed under derivatives. *)
Inductive regex :=
  | Void
  | Eps
  | Class (f : ascii -> bool)
  | Cat (r1 r2 : regex)
  | Alt (r1 r2 : regex)
  | Star (r : regex).

(** [r+] *)
Definition Plus (r : regex) : regex := Cat r (Star r).

(** A literal character. *)
Definition Chr (c : ascii) : regex := Class (Ascii.eqb c).

Fixpoint nullable (r : regex) : bool :=
  match r with
  | Void => false
  | Eps => true
  | Class _ => false
  | Cat r1 r2 => nullable r1 && nullable r2
  | Alt r1 r2 => nullable r1 || nullable r2
  | Star _ => true
  end.

Fixpoint derive (c : ascii) (r : regex) : regex :=
  match r with
  | Void => Void
  | Eps => Void
  | Class f => if f c then Eps else Void
  | Cat r1 r2 =>
      if nullable r1 then Alt (Cat (derive c r1) r2) (derive c r2)
      else Cat (derive c r1) r2
  | Alt r1 r2 => Alt (derive c r1) (derive c r2)
  | Star r' => Cat (derive c r') (Star r')
  end.

(** [/^r$/.test(s)]: the whole of [s] matches [r]. *)
Fixpoint test (r : regex) (s : string) : bool :=
  match s with
  | EmptyString => nullable r
  | String c s' => test (derive c r) s'
  end.

(** The strings a regular expression denotes. *)
Inductive matches : regex -> string -> Prop :=
  | matches_eps : matches Eps ""
  | matches_class (f : ascii -> bool) (c : ascii) :
      f c = true -> matches (Class f) (String c "")
  | matches_cat (r1 r2 : regex) (s1 s2 : string) :
      matches r1 s1 -> matches r2 s2 -> matches (Cat r1 r2) (s1 ++ s2)
  | matches_alt_l (r1 r2 : regex) (s : string) :
      matches r1 s -> matches (Alt r1 r2) s
  | matches_alt_r (r1 r2 : regex) (s : string) :
      matches r2 s -> matches (Alt r1 r2) s
  | matches_star_nil (r : regex) : matches (Star r) ""
  | matches_star_cons (r : regex) (s1 s2 : string) :
      matches r s1 -> matches (Star r) s2 -> matches (Star r) (s1 ++ s2).

(** [[^\s@]] *)
Definition not_space_or_at (c : ascii) : bool :=
  negb (is_white_space c || Ascii.eqb c "@").

(** [/^[^\s@]+@[^\s@]+\.[^\s@]+$/] *)
Definition emailRegex : regex :=
  Cat (Plus (Class not_space_or_at))
      (Cat (Chr "@")
           (Cat (Plus (Class not_space_or_at))
                (Cat (Chr ".") (Plus (Class not_space_or_at))))).

(** Every character of [s] is in the class [f]. *)
Fixpoint all_chars (f : ascii -> bool) (s : string) : bool :=
  match s with
  | EmptyString => true
  | String c s' => f c && all_chars f s'
  end.

(** The body of a request, by the four keys the handler reads. *)
Module Body.

Record t := Make {
  name : jsvalue;
  email : jsvalue;
  subject : jsvalue;
  message : jsvalue
}.

End Body.

(** What a handler sends: the JSON of [res.status(..).json(..)]. *)
Inductive json :=
  | ErrorJson (error : string)
  | SubmissionJson (contact_form_submission_id name email subject message : string)
                   (submission_timestamp : Z).

(** What a handler does with a request: it answers, or it hands an error
    to [next]. *)
Inductive handled :=
  | Responded (status : nat) (body : json)
  | Next (e : error).

(** [new Error(message)] *)
Definition new_Error (message : string) : error :=
  MkError None ("Error: " ++ message) [].

Definition createContactFormSubmission (body : Body.t) : prog handled :=
  try_catch
    (if negb (truthy (Body.name body)) then
       Ret (Responded 400 (ErrorJson "Name is required"))
     else match Body.name body with
     | JString name =>
     if Nat.eqb (String.length (trim name)) 0 then
       Ret (Responded 400 (ErrorJson "Name cannot be empty"))
     else if negb (truthy (Body.email body)) then
       Ret (Responded 400 (ErrorJson "Email is required"))
     else match Body.email body with
     | JString email =>
     if Nat.eqb (String.length (trim email)) 0 then
       Ret (Responded 400 (ErrorJson "Email cannot be empty"))
     else if negb (test emailRegex email) then
       Ret (Responded 400 (ErrorJson "Email must be a valid email address"))
     else if negb (truthy (Body.subject body)) then
       Ret (Responded 400 (ErrorJson "Subject is required"))
     else match Body.subject body with
     | JString subject =>
     if Nat.eqb (String.length (trim subject)) 0 then
       Ret (Responded 400 (ErrorJson "Subject cannot be empty"))
     else if negb (truthy (Body.message body)) then
       Ret (Responded 400 (ErrorJson "Message is required"))
     else match Body.message body with
     | JString message =>
     if Nat.eqb (String.length (trim message)) 0 then
       Ret (Responded 400 (ErrorJson "Message cannot be empty"))
     else
       createdSubmission ← ContactFormSubmission.create
                             (trim name) (trim email) (trim subject) (trim message);
       match createdSubmission with
       | None => Ret (Next (new_Error "Failed to create contact form submission"))
       | Some created =>
           savedSubmission ← ContactFormSubmission.get_by_id
                               (ContactFormSubmission.id created);
           match savedSubmission with
           | None =>
               Ret (Next (new_Error "Failed to retrieve created contact form submission"))
           | Some saved =>
               Ret (Responded 201
                      (SubmissionJson (ContactFormSubmission.id saved)
                         (ContactFormSubmission.name saved)
                         (ContactFormSubmission.email saved)
                         (ContactFormSubmission.subject saved)
                         (ContactFormSubmission.message saved)
                         (ContactFormSubmission.submission_timestamp saved)))
           end
       end
     | _ => Ret (Responded 400 (ErrorJson "Message must be a string"))
     end
     | _ => Ret (Responded 400 (ErrorJson "Subject must be a string"))
     end
     | _ => Ret (Responded 400 (ErrorJson "Email must be a string"))
     end
     | _ => Ret (Responded 400 (ErrorJson "Name must be a string"))
     end)
    (fun e => Ret (Next e)).

(** The handler of [GET /api/contact_form_submissions/:contact_form_submission_id],
    on the value of the route parameter. *)
Definition getContactFormSubmission (contactFormSubmissionId : string) : prog handled :=
  try_catch
    (if negb (truthy (JString contactFormSubmissionId)) then
       Ret (Responded 400 (ErrorJson "Contact form submission ID is required"))
     else
       submission ← ContactFormSubmission.get_by_id contactFormSubmissionId;
       match submission with
       | None =>
           Ret (Responded 404
                  (ErrorJson "Contact form submission with the given ID not found"))
       | Some found =>
           Ret (Responded 200
                  (SubmissionJson (ContactFormSubmission.id found)
                     (ContactFormSubmission.name found)
                     (ContactFormSubmission.email found)
                     (ContactFormSubmission.subject found)
                     (ContactFormSubmission.message found)
                     (ContactFormSubmission.submission_timestamp found)))
       end)
    (fun e => Ret (Next e)).

(** A body whose four fields are the given strings. *)
Definition body_of (name email subject message : string) : Body.t :=
  Body.Make (JString name) (JString email) (JString subject) (JString message).

(** [s] is not empty and neither starts nor ends with white space. *)
Definition trimmed (s : string) : Prop :=
  s <> "" /\ trim s = s.

(** The document has the shape the create handler stores: no field is
    empty or has white space around it, and the email matches the pattern. *)
Definition well_formed (d : Doc.t) : Prop :=
  trimmed (Doc.name d) /\ trimmed (Doc.email d) /\ trimmed (Doc.subject d) /\
  trimmed (Doc.message d) /\ test emailRegex (Doc.email d) = true.
(** ** Equations of the interpreter *)

Lemma run_bind {A B : Type} (p : prog A) (f : A -> prog B) (w : World) :
  run (bind p f) w =
  match run p w with
  | (Val a, w') => run (f a) w'
  | (Exn e, w') => (Exn e, w')
  end.
Proof.
  revert f w. induction p as [A a | A e | A c k IH | A body _ k IH]; intros f w; simpl.
  - reflexivity.
  - reflexivity.
  - destruct (perform c w) as [r w']. apply IH.
  - destruct (run_withTransaction_in body w) as [r w']. apply IH.
Qed.

Lemma run_try_catch {A : Type} (p : prog A) (h : error -> prog A) (w : World) :
  run (try_catch p h) w =
  match run p w with
  | (Val a, w') => (Val a, w')
  | (Exn e, w') => run (h e) w'
  end.
Proof.
  revert h w. induction p as [A a | A e | A c k IH | A body _ k IH]; intros h w; simpl.
  - reflexivity.
  - reflexivity.
  - destruct (perform c w) as [r w']. apply IH.
  - destruct (run_withTransaction_in body w) as [r w']. apply IH.
Qed.

Lemma run_try_finally {A : Type} (p : prog A) (f : prog unit) (w : World) :
  run (try_finally p f) w =
  match run p w with
  | (r, w') =>
      match run f w' with
      | (Val _, w'') => (r, w'')
      | (Exn e, w'') => (Exn e, w'')
      end
  end.
Proof.
  revert f w. induction p as [A a | A e | A c k IH | A body _ k IH]; intros f w; simpl.
  - rewrite run_bind. destruct (run f w) as [[[]|e'] w']; reflexivity.
  - rewrite run_bind. destruct (run f w) as [[[]|e'] w']; reflexivity.
  - destruct (perform c w) as [r w']. apply IH.
  - destruct (run_withTransaction_in body w) as [r w']. apply IH.
Qed.

Lemma run_invoke (c : call) (w : World) : run (invoke c) w = perform c w.
Proof. unfold invoke. simpl. destruct (perform c w) as [[v|e] w']; reflexivity. Qed.

(** Rewriting with the equations above, one construct at a time. *)
Ltac run_invoke :=
  match goal with
  | |- context [run (invoke ?c) ?w] =>
      let H := fresh in
      pose proof (run_invoke c w) as H; cbn [reply] in H; rewrite H; clear H
  end.

Lemma run_withTransaction (body : prog unit) (w : World) :
  run (withTransaction body) w = run_withTransaction_in body w.
Proof.
  unfold withTransaction. simpl.
  destruct (run_withTransaction_in body w) as [[[]|e] w']; reflexivity.
Qed.

(** *** The loop of [withTransaction], one turn at a time *)

Lemma transact_callback (callback : World -> res unit * World * Db) (n : nat) (w : World) :
  transact callback n Callback w =
  match callback w with
  | (Val _, w1, outside) => transact callback n (Commit outside) w1
  | (Exn e, w1, outside) =>
      if hasErrorLabel e TransientTransactionError then
        match n with
        | S m => transact callback m Callback (set_db outside w1)
        | O => (Exn e, set_db outside w1)
        end
      else (Exn e, set_db outside w1)
  end.
Proof. destruct n; cbn [transact]; destruct (callback w) as [[[[] | e] w1] outside]; reflexivity. Qed.

Lemma transact_commit (callback : World -> res unit * World * Db) (n : nat) (outside : Db)
    (w : World) :
  transact callback n (Commit outside) w =
  match perform CommitTransaction w with
  | (Val _, w2) => (Val tt, w2)
  | (Exn e, w2) =>
      match n with
      | S m =>
          if negb (isMaxTimeMSExpiredError e) &&
             hasErrorLabel e UnknownTransactionCommitResult
          then transact callback m (Commit outside) w2
          else if hasErrorLabel e TransientTransactionError
          then transact callback m Callback (set_db outside w2)
          else (Exn e, set_db outside w2)
      | O => (Exn e, set_db outside w2)
      end
  end.
Proof.
  destruct n; cbn [transact]; destruct (perform CommitTransaction w) as [[[] | e] w2];
    reflexivity.
Qed.

(** *** Callbacks whose writes all carry the session *)

Lemma run_in_transaction_enrolled {A : Type} (p : prog A) (outside : Db) (w : World) :
  enrolled p -> run_in_transaction p outside w = (run p w, outside).
Proof.
  revert outside w.
  induction p as [A a | A e | A c k IH | A body _ k IH]; intros outside w; cbn [enrolled].
  - reflexivity.
  - reflexivity.
  - intros [Hc Hk]. cbn [run_in_transaction run]. rewrite (Hc outside (proc w)).
    destruct (perform c w) as [r w']. apply IH. apply Hk.
  - intros [].
Qed.

Lemma enrolled_bind {A B : Type} (p : prog A) (f : A -> prog B) :
  enrolled p -> (forall a, enrolled (f a)) -> enrolled (bind p f).
Proof.
  induction p as [A a | A e | A c k IH | A body _ k IH]; cbn [enrolled bind]; intros Hp Hf.
  - apply Hf.
  - exact I.
  - destruct Hp as [Hc Hk]. split; [exact Hc |]. intros r. apply IH; [apply Hk | exact Hf].
  - destruct Hp.
Qed.

Lemma enrolled_invoke (c : call) :
  (forall (d : Db) (q : Proc),
     (if carries_session c then d else db (snd (perform c (MkWorld d q)))) = d) ->
  enrolled (invoke c).
Proof. intros Hc. split; [exact Hc |]. intros [v | e]; exact I. Qed.

Lemma enrolled_mock (name email subject message : string) (offset : Z) :
  enrolled (mock name email subject message offset).
Proof.
  unfold mock. apply enrolled_bind; [| intros now; exact I].
  apply enrolled_invoke. intros d q. reflexivity.
Qed.

Lemma enrolled_mockSubmissions : enrolled mockSubmissions.
Proof.
  unfold mockSubmissions.
  repeat (change (mbind ?f ?p) with (bind p f); apply enrolled_bind;
          [apply enrolled_mock | intros ?]).
  exact I.
Qed.

(** The batch insert is the transaction's when it is given the session. *)
Lemma enrolled_insertMockData : enrolled (insertMockData true).
Proof.
  unfold insertMockData. change (mbind ?f ?p) with (bind p f).
  apply enrolled_bind; [exact enrolled_mockSubmissions |].
  intros docs. apply enrolled_invoke. intros d q. reflexivity.
Qed.

(** A callback is enrolled, by its structure. *)
Ltac enrolled :=
  repeat match goal with
         | |- enrolled (mbind _ _) => change (mbind ?f ?p) with (bind p f)
         | |- enrolled (bind _ _) => apply enrolled_bind
         | |- enrolled (insertMockData true) => exact enrolled_insertMockData
         | |- enrolled (invoke _) => apply enrolled_invoke; intros ? ?; reflexivity
         | |- enrolled (Ret _) => exact I
         | |- enrolled (mret _) => exact I
         | |- forall _, _ => intros ?
         end.

Lemma enrolled_seeding_callback : enrolled seeding_callback.
Proof. unfold seeding_callback. enrolled. Qed.

(** The callback of the seeder, by its name. *)
Ltac name_callback :=
  match goal with
  | |- context [run_in_transaction ?b ?o ?w] =>
      change b with seeding_callback;
      rewrite (run_in_transaction_enrolled seeding_callback o w enrolled_seeding_callback);
      unfold seeding_callback
  end.

Lemma later_stamps (f : nat -> Z) (offs : list Z) (k : nat) (off t : Z) :
  (forall i j : nat, i <= j -> (f i <= f j)%Z) ->
  Forall (fun o => (o < off)%Z) offs ->
  (t <= f k)%Z ->
  Forall (fun x => (t / 1000 - off < x)%Z) (stamps f k offs).
Proof.
  intros Hmono Hoffs. revert k.
  induction Hoffs as [| o offs Ho _ IH]; intros k Ht; unfold stamps; simpl.
  - constructor.
  - constructor.
    + assert (t / 1000 <= f k / 1000)%Z by (apply Z.div_le_mono; lia). lia.
    + apply IH. transitivity (f k); [exact Ht | apply Hmono; lia].
Qed.

Lemma stamps_increasing (f : nat -> Z) (offs : list Z) (k : nat) :
  (forall i j : nat, i <= j -> (f i <= f j)%Z) ->
  strictly_decreasing offs ->
  strictly_increasing (stamps f k offs).
Proof.
  intros Hmono Hdec. revert k.
  induction Hdec as [| o offs _ IH Hall]; intros k; unfold stamps; simpl.
  - constructor.
  - constructor.
    + apply IH.
    + apply later_stamps; [exact Hmono | exact Hall | apply Hmono; lia].
Qed.

Lemma offsets_strictly_decreasing : strictly_decreasing offsets.
Proof. unfold strictly_decreasing, offsets. repeat constructor; lia. Qed.

(** ** The batch is fixed, complete and ordered *)

Lemma run_mock (name email subject message : string) (offset : Z) (w : World) :
  run (mock name email subject message offset) w =
  (Val (Doc.Make name email subject message
                 (clock (env (proc w)) (clock_reads (proc w)) / 1000 - offset)%Z),
   MkWorld (db w) (snd (read_clock (proc w)))).
Proof. reflexivity. Qed.

Ltac proc_fields :=
  cbn [proc db env populationAttempted logs clock_reads random_reads awaits issued
       next_oid fst snd read_clock read_random record_call next_outcome with_flag
       with_log take_oids set_db].

Lemma run_mockSubmissions (w : World) :
  exists docs : list Doc.t,
    run mockSubmissions w =
      (Val docs,
       MkWorld (db w)
         (MkProc (env (proc w)) (populationAttempted (proc w)) (logs (proc w))
                 (10 + clock_reads (proc w)) (random_reads (proc w)) (awaits (proc w))
                 (issued (proc w)) (next_oid (proc w)))) /\
    length docs = 10 /\
    Forall all_fields_non_empty docs /\
    map Doc.submission_timestamp docs =
      stamps (clock (env (proc w))) (clock_reads (proc w)) offsets.
Proof.
  destruct w as [d [en fl lg cr rr aw iss oid]].
  unfold mockSubmissions.
  repeat (change (mbind ?f ?p) with (bind p f); rewrite run_bind, run_mock; proc_fields).
  cbn [run mret prog_ret].
  eexists. split; [reflexivity |].
  split; [reflexivity |].
  split; [| reflexivity].
  repeat constructor; discriminate.
Qed.

Lemma run_mockSubmissions_eq (w : World) :
  run mockSubmissions w =
  (Val (built_batch w), MkWorld (db w) (after_clock_reads 10 (proc w))).
Proof.
  unfold built_batch.
  destruct (run_mockSubmissions w) as (docs & -> & _). reflexivity.
Qed.

Lemma last_is_greatest (l : list Z) :
  strictly_increasing l ->
  forall x : Z, x ∈ l -> (x <= default 0 (last l))%Z.
Proof.
  induction 1 as [| a l Hl IH Hall]; intros x Hx.
  - apply elem_of_nil in Hx. contradiction.
  - destruct l as [| b l'].
    + apply list_elem_of_singleton in Hx. subst x. simpl. lia.
    + change (last (a :: b :: l')) with (last (b :: l')).
      apply elem_of_cons in Hx. destruct Hx as [-> | Hx]; [| apply IH; exact Hx].
      destruct (last (b :: l')) as [z |] eqn:Hlast; [| apply last_None in Hlast; discriminate Hlast].
      simpl. rewrite Forall_forall in Hall.
      assert (a < z)%Z; [| lia].
      apply Hall. apply list_elem_of_In. rewrite last_Some in Hlast.
      destruct Hlast as [l'' ->]. apply list_elem_of_In, elem_of_app. right. constructor.
Qed.

(** C7: the batch [insertMockData] hands to [insertMany] is a list of ten
    items, each with a non-empty name, email, subject and message; the
    timestamp of the i-th item is the clock reading taken when it is built,
    in seconds, minus the i-th of ten fixed offsets; the offsets strictly
    decrease in list order; and with a clock that never goes backwards the
    timestamps strictly increase in list order, so the last item is the
    most recent. *)
Theorem mock_batch_fixed_and_ordered (session : bool) (w : World) :
  exists docs : list Doc.t,
    fst (run mockSubmissions w) = Val docs /\
    issued (proc (snd (run (insertMockData session) w))) =
      InsertMany docs session :: issued (proc w) /\
    length docs = 10 /\
    Forall all_fields_non_empty docs /\
    map Doc.submission_timestamp docs =
      stamps (clock (env (proc w))) (clock_reads (proc w)) offsets /\
    strictly_decreasing offsets /\
    (monotone_clock (env (proc w)) ->
     strictly_increasing (map Doc.submission_timestamp docs) /\
     forall t : Z, t ∈ map Doc.submission_timestamp docs ->
       (t <= default 0 (last (map Doc.submission_timestamp docs)))%Z).
Proof.
  destruct (run_mockSubmissions w) as (docs & Hrun & Hlen & Hne & Hts).
  exists docs. split; [rewrite Hrun; reflexivity |].
  split.
  { unfold insertMockData. change (mbind ?f ?p) with (bind p f).
    rewrite run_bind, Hrun. cbv beta iota. run_invoke.
    cbn [perform]. unfold attempt. proc_fields.
    destruct (fault_of _); reflexivity. }
  split; [exact Hlen |]. split; [exact Hne |]. split; [exact Hts |].
  split; [exact offsets_strictly_decreasing |].
  intros Hmono.
  assert (Hinc : strictly_increasing (map Doc.submission_timestamp docs)).
  { rewrite Hts. apply stamps_increasing; [exact Hmono | exact offsets_strictly_decreasing]. }
  split; [exact Hinc |].
  apply last_is_greatest. exact Hinc.
Qed.

Lemma steady_env_monotone : monotone_clock steady_env.
Proof. intros i j Hij. simpl. lia. Qed.

Lemma mock_batch_fixed_and_ordered_witness :
  monotone_clock steady_env /\
  exists docs : list Doc.t,
    fst (run mockSubmissions (MkWorld fresh_db (boot_proc steady_env))) = Val docs /\
    strictly_increasing (map Doc.submission_timestamp docs).
Proof.
  split; [exact steady_env_monotone |].
  destruct (mock_batch_fixed_and_ordered true (MkWorld fresh_db (boot_proc steady_env)))
    as (docs & Hrun & _ & _ & _ & _ & _ & Hmono).
  exists docs. split; [exact Hrun |].
  apply Hmono. exact steady_env_monotone.
Defined.

(** ** The model class: errors stay inside *)

Lemma deleteOne_spec (id : ObjectId) (coll : list (ObjectId * Doc.t)) :
  (snd (deleteOne id coll) = 1%N /\ length coll = S (length (fst (deleteOne id coll)))) \/
  (snd (deleteOne id coll) = 0%N /\ fst (deleteOne id coll) = coll).
Proof.
  induction coll as [| [i d] rest IH]; simpl.
  - right. split; reflexivity.
  - destruct (N.eqb i id).
    + left. split; reflexivity.
    + destruct (deleteOne id rest) as [rest' n]. simpl in *.
      destruct IH as [[-> ->] | [-> ->]]; [left | right]; split; reflexivity.
Qed.

Ltac no_fault H :=
  let i := fresh "i" in let e := fresh "e" in let Hi := fresh "Hi" in let He := fresh "He" in
  destruct H as (i & e & Hi & He);
  destruct i as [| [| i]]; [simpl in He; congruence | simpl in He; congruence | lia].

Lemma create_returns (name email subject message : string) (w : World) :
  exists r : option ContactFormSubmission.t,
    fst (run (ContactFormSubmission.create name email subject message) w) = Val r /\
    (faulted 2 (proc w) -> r = None).
Proof.
  destruct w as [[st subs] [en fl lg cr rr aw iss oid]].
  unfold ContactFormSubmission.create. cbn. unfold attempt. cbn.
  destruct (oracle en aw) as [| | e0] eqn:H0; cbn;
    try (eexists; split; [reflexivity | reflexivity]);
    (destruct (oracle en (S aw)) as [| | e1] eqn:H1; cbn;
     try (destruct (write_concern_ack en)); cbn;
     eexists; (split; [reflexivity |]); intros Hf; try reflexivity; no_fault Hf).
Qed.

Lemma get_by_id_returns (id : string) (w : World) :
  exists r : option ContactFormSubmission.t,
    fst (run (ContactFormSubmission.get_by_id id) w) = Val r /\
    (faulted 2 (proc w) \/ is_val (new_ObjectId id) = false -> r = None).
Proof.
  destruct w as [[st subs] [en fl lg cr rr aw iss oid]].
  unfold ContactFormSubmission.get_by_id. cbn. unfold attempt. cbn.
  destruct (oracle en aw) as [| | e0] eqn:H0; cbn;
    try (eexists; split; [reflexivity | reflexivity]);
    (destruct (new_ObjectId id) as [_id | e]; cbn;
     [ destruct (oracle en (S aw)) as [| | e1] eqn:H1; cbn | ];
     eexists; (split; [reflexivity |]); intros [Hf | Hf]; try reflexivity;
     try discriminate Hf; no_fault Hf).
Qed.

Lemma update_returns (id : string) (updateFields : Partial.t) (w : World) :
  exists r : option ContactFormSubmission.t,
    fst (run (ContactFormSubmission.update id updateFields) w) = Val r /\
    (faulted 2 (proc w) \/ is_val (new_ObjectId id) = false -> r = None).
Proof.
  destruct w as [[st subs] [en fl lg cr rr aw iss oid]].
  unfold ContactFormSubmission.update. cbn. unfold attempt. cbn.
  destruct (oracle en aw) as [| | e0] eqn:H0; cbn;
    try (eexists; split; [reflexivity | reflexivity]);
    (destruct (new_ObjectId id) as [_id | e]; cbn;
     [ destruct (oracle en (S aw)) as [| | e1] eqn:H1; cbn;
       try destruct (findOneAndUpdate _id updateFields subs) as [coll r] | ];
     eexists; (split; [reflexivity |]); intros [Hf | Hf]; try reflexivity;
     try discriminate Hf; no_fault Hf).
Qed.

Lemma delete_returns (id : string) (w : World) :
  exists b : bool,
    fst (run (ContactFormSubmission.delete id) w) = Val b /\
    (faulted 2 (proc w) \/ is_val (new_ObjectId id) = false -> b = false) /\
    (b = true ->
     length (contact_form_submissions (db w)) =
     S (length (contact_form_submissions
                  (db (snd (run (ContactFormSubmission.delete id) w)))))) /\
    (b = false ->
     contact_form_submissions (db (snd (run (ContactFormSubmission.delete id) w))) =
     contact_form_submissions (db w)).
Proof.
  destruct w as [[st subs] [en fl lg cr rr aw iss oid]].
  unfold ContactFormSubmission.delete. cbn. unfold attempt. cbn.
  destruct (oracle en aw) as [| | e0] eqn:H0; cbn;
    try (exists false; repeat split; intros; congruence);
    (destruct (new_ObjectId id) as [_id | e]; cbn;
     [ destruct (oracle en (S aw)) as [| | e1] eqn:H1; cbn | ];
     try (exists false; repeat split; intros; congruence));
    (pose proof (deleteOne_spec _id subs) as Hdel;
     destruct (deleteOne _id subs) as [coll n]; cbn in *;
     destruct Hdel as [[-> Hlen] | [-> ->]]; cbn;
     eexists; (split; [reflexivity |]);
     (split; [intros [Hf | Hf]; [no_fault Hf | discriminate Hf] |]);
     split; intros; congruence).
Qed.

(** C10: on every input and whatever the datastore does, [create],
    [get_by_id] and [update] return a value and never throw; when a
    datastore call fails, or the identifier is not an ObjectId, the value
    is [null].  [delete] returns a boolean and never throws; it is [false]
    on any such error, and it is [true] exactly when one document was
    removed (on [false] the collection is as it was). *)
Theorem model_operations_never_raise (w : World) :
  (forall name email subject message : string,
     exists r, fst (run (ContactFormSubmission.create name email subject message) w) = Val r /\
               (faulted 2 (proc w) -> r = None)) /\
  (forall id : string,
     exists r, fst (run (ContactFormSubmission.get_by_id id) w) = Val r /\
               (faulted 2 (proc w) \/ is_val (new_ObjectId id) = false -> r = None)) /\
  (forall (id : string) (updateFields : Partial.t),
     exists r, fst (run (ContactFormSubmission.update id updateFields) w) = Val r /\
               (faulted 2 (proc w) \/ is_val (new_ObjectId id) = false -> r = None)) /\
  (forall id : string,
     exists b, fst (run (ContactFormSubmission.delete id) w) = Val b /\
               (faulted 2 (proc w) \/ is_val (new_ObjectId id) = false -> b = false) /\
               (b = true <->
                length (contact_form_submissions (db w)) =
                S (length (contact_form_submissions
                             (db (snd (run (ContactFormSubmission.delete id) w))))))).
Proof.
  split; [intros; apply create_returns |].
  split; [intros; apply get_by_id_returns |].
  split; [intros; apply update_returns |].
  intros id. destruct (delete_returns id w) as (b & Hrun & Herr & Htrue & Hfalse).
  exists b. split; [exact Hrun |]. split; [exact Herr |].
  split; [exact Htrue |].
  intros Hlen. destruct b; [reflexivity |].
  rewrite (Hfalse eq_refl) in Hlen. lia.
Qed.

(** ** The timestamp of a stored submission *)

Lemma findOneAndUpdate_timestamps (id : ObjectId) (fields : Partial.t)
    (coll : list (ObjectId * Doc.t)) :
  Partial.submission_timestamp fields = None ->
  map (fun x => (fst x, Doc.submission_timestamp (snd x)))
      (fst (findOneAndUpdate id fields coll)) =
  map (fun x => (fst x, Doc.submission_timestamp (snd x))) coll.
Proof.
  intros Hnone. induction coll as [| [i d] rest IH]; simpl.
  - reflexivity.
  - destruct (N.eqb i id); simpl.
    + unfold set_fields. rewrite Hnone. reflexivity.
    + destruct (findOneAndUpdate id fields rest) as [rest' r]. simpl in *.
      rewrite IH. reflexivity.
Qed.

Lemma findOneAndUpdate_found (id : ObjectId) (fields : Partial.t)
    (coll : list (ObjectId * Doc.t)) (d : Doc.t) :
  findOne id coll = Some (id, d) ->
  findOne id (fst (findOneAndUpdate id fields coll)) = Some (id, set_fields fields d) /\
  snd (findOneAndUpdate id fields coll) = Some (id, set_fields fields d).
Proof.
  induction coll as [| [i x] rest IH]; simpl; [discriminate |].
  destruct (N.eqb i id) eqn:Hi.
  - intros [= -> ->]. simpl. rewrite N.eqb_refl. split; reflexivity.
  - intros Hfind. destruct (findOneAndUpdate id fields rest) as [rest' r]. simpl in *.
    rewrite Hi. apply IH. exact Hfind.
Qed.

Lemma update_keeps_timestamps (id : string) (updateFields : Partial.t) (w : World) :
  Partial.submission_timestamp updateFields = None ->
  stored_timestamps (db (snd (run (ContactFormSubmission.update id updateFields) w))) =
  stored_timestamps (db w).
Proof.
  intros Hnone. destruct w as [[st subs] [en fl lg cr rr aw iss oid]].
  unfold ContactFormSubmission.update. cbn. unfold attempt. cbn.
  destruct (fault_of (oracle en aw)); cbn; [reflexivity |].
  destruct (new_ObjectId id) as [_id | e]; cbn; [| reflexivity].
  destruct (fault_of (oracle en (S aw))); cbn; [reflexivity |].
  pose proof (findOneAndUpdate_timestamps _id updateFields subs Hnone) as Hts.
  destruct (findOneAndUpdate _id updateFields subs) as [coll r]. cbn. exact Hts.
Qed.

Lemma update_overwrites (id : string) (_id : ObjectId) (updateFields : Partial.t)
    (d : Doc.t) (w : World) :
  new_ObjectId id = Val _id ->
  calm 2 (proc w) ->
  findOne _id (contact_form_submissions (db w)) = Some (_id, d) ->
  findOne _id (contact_form_submissions
                 (db (snd (run (ContactFormSubmission.update id updateFields) w)))) =
  Some (_id, set_fields updateFields d).
Proof.
  intros Hid Hcalm Hfind. destruct w as [[st subs] [en fl lg cr rr aw iss oid]].
  pose proof (Hcalm 0 ltac:(lia)) as H0. pose proof (Hcalm 1 ltac:(lia)) as H1.
  cbn in H0, H1, Hfind.
  unfold ContactFormSubmission.update. cbn. unfold attempt. cbn.
  rewrite H0. cbn. rewrite Hid. cbn. rewrite H1. cbn.
  pose proof (findOneAndUpdate_found _id updateFields subs d Hfind) as [Hnew _].
  destruct (findOneAndUpdate _id updateFields subs) as [coll r]. cbn. exact Hnew.
Qed.

Lemma create_stores_clock_reading (name email subject message : string) (w : World) :
  let stored := contact_form_submissions
                  (db (snd (run (ContactFormSubmission.create name email subject message) w))) in
  stored = contact_form_submissions (db w) \/
  stored = (contact_form_submissions (db w) ++
            [(next_oid (proc w),
              Doc.Make name email subject message
                       (clock (env (proc w)) (clock_reads (proc w)) / 1000)%Z)])%list.
Proof.
  destruct w as [[st subs] [en fl lg cr rr aw iss oid]].
  unfold ContactFormSubmission.create. cbn. unfold attempt. cbn.
  destruct (fault_of (oracle en aw)); cbn; [left; reflexivity |].
  destruct (fault_of (oracle en (S aw))); cbn; [left; reflexivity |].
  destruct (write_concern_ack en); cbn; right; reflexivity.
Qed.

(** C9, as the code has it: the timestamp a submission is stored with by
    [create] is the server's clock reading, in seconds; [update] leaves
    every stored timestamp unchanged when [updateFields] has no
    [submission_timestamp] key; and when it has one, the matched document
    is stored with the fields of [updateFields] written over its own, the
    timestamp among them. *)
Theorem submission_timestamp_server_assigned (w : World) :
  (forall name email subject message : string,
     let stored := contact_form_submissions
                     (db (snd (run (ContactFormSubmission.create name email subject message) w))) in
     stored = contact_form_submissions (db w) \/
     stored = (contact_form_submissions (db w) ++
               [(next_oid (proc w),
                 Doc.Make name email subject message
                          (clock (env (proc w)) (clock_reads (proc w)) / 1000)%Z)])%list) /\
  (forall (id : string) (updateFields : Partial.t),
     Partial.submission_timestamp updateFields = None ->
     stored_timestamps (db (snd (run (ContactFormSubmission.update id updateFields) w))) =
     stored_timestamps (db w)) /\
  (forall (id : string) (_id : ObjectId) (updateFields : Partial.t) (d : Doc.t) (t : Z),
     Partial.submission_timestamp updateFields = Some t ->
     new_ObjectId id = Val _id ->
     calm 2 (proc w) ->
     findOne _id (contact_form_submissions (db w)) = Some (_id, d) ->
     exists d' : Doc.t,
       findOne _id (contact_form_submissions
                      (db (snd (run (ContactFormSubmission.update id updateFields) w)))) =
       Some (_id, d') /\
       Doc.submission_timestamp d' = t).
Proof.
  split; [intros; apply create_stores_clock_reading |].
  split; [intros; apply update_keeps_timestamps; assumption |].
  intros id _id updateFields d t Hsome Hid Hcalm Hfind.
  exists (set_fields updateFields d). split.
  - apply update_overwrites; assumption.
  - unfold set_fields. rewrite Hsome. reflexivity.
Qed.

Lemma submission_timestamp_server_assigned_witness :
  stored_timestamps
    (db (snd (run (ContactFormSubmission.update "000000000000000000000001"
                     (only_subject "Changed"))
                  (MkWorld one_submission_db (boot_proc steady_env))))) =
  [(1%N, 1700000000%Z)].
Proof.
  destruct (submission_timestamp_server_assigned
              (MkWorld one_submission_db (boot_proc steady_env))) as (_ & Hkeep & _).
  rewrite (Hkeep "000000000000000000000001" (only_subject "Changed") eq_refl).
  reflexivity.
Defined.

(** C9 as stated fails: an [updateFields] that carries
    [submission_timestamp] replaces the stored timestamp. *)
Lemma update_overwrites_stored_timestamp :
  stored_timestamps one_submission_db = [(1%N, 1700000000%Z)] /\
  stored_timestamps
    (db (snd (run (ContactFormSubmission.update "000000000000000000000001"
                     (only_timestamp 0))
                  (MkWorld one_submission_db (boot_proc steady_env))))) =
  [(1%N, 0%Z)].
Proof. split; vm_compute; reflexivity. Qed.

(** ** Symbolic execution of programs *)

Lemma run_Ret {A : Type} (a : A) (w : World) : run (Ret a) w = (Val a, w).
Proof. reflexivity. Qed.

Lemma run_Throw {A : Type} (e : error) (w : World) : run (@Throw A e) w = (Exn e, w).
Proof. reflexivity. Qed.

Lemma run_insertMockData (session : bool) (w : World) :
  run (insertMockData session) w =
  perform (InsertMany (built_batch w) session)
          (MkWorld (db w) (after_clock_reads 10 (proc w))).
Proof.
  unfold insertMockData. change (mbind ?f ?p) with (bind p f).
  rewrite run_bind, run_mockSubmissions_eq. cbv beta iota. run_invoke. reflexivity.
Qed.

Ltac exec_step :=
  first
  [ progress change (mbind ?f ?p) with (bind p f)
  | progress change (mret ?a) with (Ret a)
  | match goal with
    | |- context [@run ?B (@bind ?A ?B ?p ?f) ?w] => rewrite (@run_bind A B p f w)
    | |- context [@run ?A (@try_catch ?A ?p ?h) ?w] => rewrite (@run_try_catch A p h w)
    | |- context [@run ?A (@try_finally ?A ?p ?f) ?w] => rewrite (@run_try_finally A p f w)
    | |- context [run (withTransaction ?b) ?w] => rewrite (run_withTransaction b w)
    | |- context [run_in_transaction ?b ?o ?w] =>
        rewrite (run_in_transaction_enrolled b o w) by enrolled
    | |- context [transact ?cb ?n (Commit ?o) ?w] => rewrite (transact_commit cb n o w)
    | H : hasErrorLabel ?e ?l = _ |- context [hasErrorLabel ?e ?l] => rewrite H
    | |- context [run (insertMockData ?s) ?w] => rewrite (run_insertMockData s w)
    | |- context [run (invoke ?c) ?w] => run_invoke
    | |- context [@run ?A (Ret ?a) ?w] => rewrite (@run_Ret A a w)
    | |- context [@run ?A (Throw ?e) ?w] => rewrite (@run_Throw A e w)
    | |- context [perform ?c ?w] =>
        progress (cbn [perform]; unfold attempt;
                  cbn [proc db env populationAttempted logs clock_reads random_reads awaits
                       issued next_oid fst snd read_clock read_random record_call
                       next_outcome with_flag with_log take_oids set_db after_clock_reads
                       upsert session upsertedCount matchedCount
                       mock_data_execution contact_form_submissions])
    | H : fault_of ?o = _ |- context [fault_of ?o] => rewrite H
    end
  | progress (cbv beta iota)
  | progress (cbn [reply upsertedCount matchedCount acknowledged insertedId N.eqb
                   mock_data_execution contact_form_submissions db proc]) ].

Ltac exec := repeat exec_step.

(** The status update, case by case. *)
Lemma upsert_absent (o : outcome) (st : gmap N (gmap string value))
    (subs : list (ObjectId * Doc.t)) (id : ObjectId) (fields : gmap string value) (s : bool) :
  st !! id = None ->
  statusUpdateOne o (MkDb st subs) id (SetOnInsert fields) (MkOptions true s) =
  (Val (MkUpdateResult 0 1), MkDb (<[id := fields]> st) subs).
Proof.
  intros Hnone. unfold statusUpdateOne, updateOne. cbn [mock_data_execution upsert].
  rewrite Hnone. destruct o; reflexivity.
Qed.

Lemma upsert_present (o : outcome) (st : gmap N (gmap string value))
    (subs : list (ObjectId * Doc.t)) (id : ObjectId) (fields d : gmap string value) (s : bool) :
  st !! id = Some d ->
  statusUpdateOne o (MkDb st subs) id (SetOnInsert fields) (MkOptions true s) =
  match o with
  | Raced => (Exn E11000, MkDb st subs)
  | _ => (Val (MkUpdateResult 1 0), MkDb st subs)
  end.
Proof.
  intros Hsome. unfold statusUpdateOne, updateOne. cbn [mock_data_execution upsert].
  rewrite Hsome. destruct o; reflexivity.
Qed.

Lemma set_present (o : outcome) (st : gmap N (gmap string value))
    (subs : list (ObjectId * Doc.t)) (id : ObjectId) (fields d : gmap string value) (s : bool) :
  st !! id = Some d ->
  statusUpdateOne o (MkDb st subs) id (Set_ fields) (MkOptions false s) =
  (Val (MkUpdateResult 1 0), MkDb (<[id := fields ∪ d]> st) subs).
Proof.
  intros Hsome. unfold statusUpdateOne, updateOne. cbn [mock_data_execution upsert].
  rewrite Hsome. destruct o; reflexivity.
Qed.

Lemma set_absent (o : outcome) (st : gmap N (gmap string value))
    (subs : list (ObjectId * Doc.t)) (id : ObjectId) (fields : gmap string value) (s : bool) :
  st !! id = None ->
  statusUpdateOne o (MkDb st subs) id (Set_ fields) (MkOptions false s) =
  (Val (MkUpdateResult 0 0), MkDb st subs).
Proof.
  intros Hnone. unfold statusUpdateOne, updateOne. cbn [mock_data_execution upsert].
  rewrite Hnone. destruct o; reflexivity.
Qed.

(** ** Every path of the seeder *)

(** Case analysis on what the environment answers, until the run is a
    value. *)
Ltac explore_step :=
  first
  [ exec_step
  | match goal with
    | |- context [fault_of (oracle ?e ?k)] =>
        let F := fresh "F" in destruct (fault_of (oracle e k)) eqn:F
    | H : ?st !! ?id = None
      |- context [statusUpdateOne ?o (MkDb ?st ?subs) ?id (SetOnInsert ?f) _] =>
        rewrite (upsert_absent o st subs id f _ H)
    | H : ?st !! ?id = Some ?d
      |- context [statusUpdateOne ?o (MkDb ?st ?subs) ?id (SetOnInsert ?f) _] =>
        rewrite (upsert_present o st subs id f d _ H); destruct o
    | |- context [statusUpdateOne ?o (MkDb (<[?id := ?d]> ?st) ?subs) ?id (Set_ ?f) _] =>
        rewrite (set_present o (<[id := d]> st) subs id f d _ (lookup_insert_eq st id d))
    | H : ?st !! ?id = Some ?d
      |- context [statusUpdateOne ?o (MkDb ?st ?subs) ?id (Set_ ?f) _] =>
        rewrite (set_present o st subs id f d _ H)
    | |- context [bool_decide ?P] =>
        let C := fresh "C" in destruct (bool_decide P) eqn:C
    end ].

Ltac explore := repeat explore_step.

(** Into [withTransaction], for the first run of the callback. *)
Ltac first_attempt := unfold run_withTransaction_in; rewrite transact_callback.

Ltac world_fields := proc_fields; cbn [mock_data_execution contact_form_submissions].

(** ** The transaction of the seeder *)

Lemma built_batch_is_mock_batch (w : World) : is_mock_batch (built_batch w).
Proof. exists w. rewrite run_mockSubmissions_eq. reflexivity. Qed.

(** One run of the callback, on a datastore that has the record: the
    batch insert is issued once; the callback throws with the datastore
    untouched outside, or returns having inserted the batch and set the
    completion fields. *)
Lemma seeding_callback_runs (w : World) (d : gmap string value) :
  mock_data_execution (db w) !! mock_data_id = Some d ->
  exists (r : res unit) (w1 : World),
    run seeding_callback w = (r, w1) /\
    env (proc w1) = env (proc w) /\
    populationAttempted (proc w1) = populationAttempted (proc w) /\
    batch_inserts (proc w1) = S (batch_inserts (proc w)) /\
    (r = Val tt ->
     exists (oid : ObjectId) (docs : list Doc.t) (now : Z),
       is_mock_batch docs /\
       db w1 =
         MkDb (<[mock_data_id := completion now ∪ d]> (mock_data_execution (db w)))
              (contact_form_submissions (db w) ++ with_ids oid docs)).
Proof.
  destruct w as [[st subs] [en fl lg cr rr aw iss oid]].
  cbn [db proc mock_data_execution contact_form_submissions env populationAttempted].
  intros Hst. unfold seeding_callback, batch_inserts.
  explore.
  all: eexists _, _; split; [reflexivity |].
  all: world_fields; cbn [count_calls is_batch_insert].
  all: repeat (split; [reflexivity |]).
  all: intros Hr; try discriminate Hr.
  all: eexists _, _, _; split; [apply built_batch_is_mock_batch | reflexivity].
Qed.

Lemma commit_performs (w : World) :
  exists (c : res unit) (w2 : World),
    perform CommitTransaction w = (c, w2) /\
    db w2 = db w /\
    env (proc w2) = env (proc w) /\
    populationAttempted (proc w2) = populationAttempted (proc w) /\
    batch_inserts (proc w2) = batch_inserts (proc w).
Proof.
  destruct w as [d [en fl lg cr rr aw iss oid]]. unfold batch_inserts.
  cbn [perform]. unfold attempt. proc_fields.
  destruct (fault_of (oracle en aw)); eexists _, _; repeat split; reflexivity.
Qed.

(** The loop of [withTransaction] around the callback of the seeder, from
    either stage and for any number of tries: the flag and the
    environment are as they were, each try issues one batch insert, and
    the loop ends with an error and the datastore as it was outside, or
    normally with the datastore seeded. *)
Lemma seeding_loop (st : gmap N (gmap string value)) (subs : list (ObjectId * Doc.t))
    (d : gmap string value) (n : nat) :
  st !! mock_data_id = Some d ->
  forall (s : stage) (w : World),
    match s with
    | Callback => db w = MkDb st subs
    | Commit outside => outside = MkDb st subs /\ seeded_from st subs d (db w)
    end ->
    exists (r : res unit) (w' : World),
      transact (fun w0 => run_in_transaction seeding_callback (db w0) w0) n s w = (r, w') /\
      env (proc w') = env (proc w) /\
      populationAttempted (proc w') = populationAttempted (proc w) /\
      batch_inserts (proc w') <=
        batch_inserts (proc w) + match s with Callback => S n | Commit _ => n end /\
      ((exists e : error, r = Exn e) /\ db w' = MkDb st subs \/
       r = Val tt /\ seeded_from st subs d (db w') /\
       batch_inserts (proc w) + match s with Callback => 1 | Commit _ => 0 end <=
         batch_inserts (proc w')).
Proof.
  intros Hst.
  set (cb := fun w0 : World => run_in_transaction seeding_callback (db w0) w0).
  assert (Hthrow : forall (e : error) (w : World) (k : nat),
            exists (r : res unit) (w' : World),
              (Exn e, set_db (MkDb st subs) w) = (r, w') /\
              env (proc w') = env (proc w) /\
              populationAttempted (proc w') = populationAttempted (proc w) /\
              batch_inserts (proc w') <= batch_inserts (proc w) + k /\
              ((exists e : error, r = Exn e) /\ db w' = MkDb st subs \/
               r = Val tt /\ seeded_from st subs d (db w') /\
               batch_inserts (proc w) + 0 <= batch_inserts (proc w'))).
  { intros e w k. eexists _, _. split; [reflexivity |].
    destruct w as [dw pw]. cbn [set_db proc db]. repeat split; [lia |].
    left. split; [eexists; reflexivity | reflexivity]. }
  assert (Hcallback : forall m : nat,
            (forall (outside : Db) (w : World),
               outside = MkDb st subs /\ seeded_from st subs d (db w) ->
               exists (r : res unit) (w' : World),
                 transact cb m (Commit outside) w = (r, w') /\
                 env (proc w') = env (proc w) /\
                 populationAttempted (proc w') = populationAttempted (proc w) /\
                 batch_inserts (proc w') <= batch_inserts (proc w) + m /\
                 ((exists e : error, r = Exn e) /\ db w' = MkDb st subs \/
                  r = Val tt /\ seeded_from st subs d (db w') /\
                  batch_inserts (proc w) + 0 <= batch_inserts (proc w'))) ->
            (forall w0 : World,
               db w0 = MkDb st subs ->
               exists (r : res unit) (w' : World),
                 match m with
                 | S k => transact cb k Callback w0
                 | O => (Exn (MkError None "" []), w0)
                 end = (r, w') /\
                 (m <> 0 ->
                 env (proc w') = env (proc w0) /\
                 populationAttempted (proc w') = populationAttempted (proc w0) /\
                 batch_inserts (proc w') <= batch_inserts (proc w0) + m /\
                 ((exists e : error, r = Exn e) /\ db w' = MkDb st subs \/
                  r = Val tt /\ seeded_from st subs d (db w') /\
                  batch_inserts (proc w0) + 1 <= batch_inserts (proc w')))) ->
            forall w : World,
              db w = MkDb st subs ->
              exists (r : res unit) (w' : World),
                transact cb m Callback w = (r, w') /\
                env (proc w') = env (proc w) /\
                populationAttempted (proc w') = populationAttempted (proc w) /\
                batch_inserts (proc w') <= batch_inserts (proc w) + S m /\
                ((exists e : error, r = Exn e) /\ db w' = MkDb st subs \/
                 r = Val tt /\ seeded_from st subs d (db w') /\
                 batch_inserts (proc w) + 1 <= batch_inserts (proc w'))).
  { intros m Hcommit Hagain w Hw.
    rewrite transact_callback. unfold cb at 1.
    rewrite (run_in_transaction_enrolled _ _ _ enrolled_seeding_callback).
    assert (Hrec : mock_data_execution (db w) !! mock_data_id = Some d)
      by (rewrite Hw; exact Hst).
    destruct (seeding_callback_runs w d Hrec) as (r & w1 & -> & Henv & Hfl & Hcnt & Hval).
    destruct r as [[] | e].
    - destruct (Hval eq_refl) as (oid & docs & now & Hdocs & Hdb1).
      rewrite Hw in Hdb1. cbn [mock_data_execution contact_form_submissions] in Hdb1.
      destruct (Hcommit (db w) w1) as (r & w' & Hrun & He & Hf & Hc & Hcases).
      { split; [exact Hw |]. exists oid, docs, now. split; [exact Hdocs | exact Hdb1]. }
      exists r, w'. split; [exact Hrun |].
      split; [congruence |]. split; [congruence |]. split; [lia |].
      destruct Hcases as [Hex | (Hr & Hseeded & Hge)]; [left; exact Hex | right].
      split; [exact Hr |]. split; [exact Hseeded | lia].
    - assert (Hgive_up :
        exists (r : res unit) (w' : World),
          (Exn e, set_db (db w) w1) = (r, w') /\
          env (proc w') = env (proc w) /\
          populationAttempted (proc w') = populationAttempted (proc w) /\
          batch_inserts (proc w') <= batch_inserts (proc w) + S m /\
          ((exists e : error, r = Exn e) /\ db w' = MkDb st subs \/
           r = Val tt /\ seeded_from st subs d (db w') /\
           batch_inserts (proc w) + 1 <= batch_inserts (proc w'))).
      { eexists _, _. split; [reflexivity |]. destruct w1 as [d1 p1].
        cbn [set_db proc db] in *. split; [exact Henv |]. split; [exact Hfl |].
        split; [lia |]. left. split; [eexists; reflexivity | exact Hw]. }
      destruct (hasErrorLabel e TransientTransactionError); [| exact Hgive_up].
      destruct m as [| k]; [exact Hgive_up |].
      destruct (Hagain (set_db (db w) w1)) as (r & w' & Hrun & Hrest).
      { destruct w1; exact Hw. }
      destruct (Hrest ltac:(discriminate)) as (He & Hf & Hc & Hcases).
      exists r, w'. split; [exact Hrun |].
      destruct w1 as [d1 p1]. cbn [set_db proc db] in *.
      split; [congruence |]. split; [congruence |]. split; [lia |].
      destruct Hcases as [Hex | (Hr & Hseeded & Hge)]; [left; exact Hex | right].
      split; [exact Hr |]. split; [exact Hseeded | lia]. }
  induction n as [| n IH].
  - assert (Hcommit : forall (outside : Db) (w : World),
              outside = MkDb st subs /\ seeded_from st subs d (db w) ->
              exists (r : res unit) (w' : World),
                transact cb 0 (Commit outside) w = (r, w') /\
                env (proc w') = env (proc w) /\
                populationAttempted (proc w') = populationAttempted (proc w) /\
                batch_inserts (proc w') <= batch_inserts (proc w) + 0 /\
                ((exists e : error, r = Exn e) /\ db w' = MkDb st subs \/
                 r = Val tt /\ seeded_from st subs d (db w') /\
                 batch_inserts (proc w) + 0 <= batch_inserts (proc w'))).
    { intros outside w [-> Hseeded]. rewrite transact_commit.
      destruct (commit_performs w) as (c & w2 & -> & Hdb & Henv & Hfl & Hcnt).
      destruct c as [[] | e].
      - exists (Val tt), w2. split; [reflexivity |].
        split; [exact Henv |]. split; [exact Hfl |]. split; [lia |].
        right. split; [reflexivity |]. split; [rewrite Hdb; exact Hseeded | lia].
      - destruct (Hthrow e w2 0) as (r & w' & Heq & He & Hf & Hc & Hcases).
        exists r, w'. split; [exact Heq |].
        split; [congruence |]. split; [congruence |]. split; [lia |].
        destruct Hcases as [Hex | (Hr & Hs & Hge)]; [left; exact Hex | right].
        split; [exact Hr |]. split; [exact Hs | lia]. }
    intros [| outside] w Hinv; [| exact (Hcommit outside w Hinv)].
    apply (Hcallback 0 Hcommit); [| exact Hinv].
    intros w0 _. eexists _, _. split; [reflexivity |]. intros H. contradiction.
  - assert (Hcommit : forall (outside : Db) (w : World),
              outside = MkDb st subs /\ seeded_from st subs d (db w) ->
              exists (r : res unit) (w' : World),
                transact cb (S n) (Commit outside) w = (r, w') /\
                env (proc w') = env (proc w) /\
                populationAttempted (proc w') = populationAttempted (proc w) /\
                batch_inserts (proc w') <= batch_inserts (proc w) + S n /\
                ((exists e : error, r = Exn e) /\ db w' = MkDb st subs \/
                 r = Val tt /\ seeded_from st subs d (db w') /\
                 batch_inserts (proc w) + 0 <= batch_inserts (proc w'))).
    { intros outside w [-> Hseeded]. rewrite transact_commit.
      destruct (commit_performs w) as (c & w2 & -> & Hdb & Henv & Hfl & Hcnt).
      destruct c as [[] | e].
      - exists (Val tt), w2. split; [reflexivity |].
        split; [exact Henv |]. split; [exact Hfl |]. split; [lia |].
        right. split; [reflexivity |]. split; [rewrite Hdb; exact Hseeded | lia].
      - destruct (negb (isMaxTimeMSExpiredError e) &&
                  hasErrorLabel e UnknownTransactionCommitResult).
        + destruct (IH (Commit (MkDb st subs)) w2) as (r & w' & Hrun & He & Hf & Hc & Hcases).
          { split; [reflexivity | rewrite Hdb; exact Hseeded]. }
          exists r, w'. split; [exact Hrun |].
          split; [congruence |]. split; [congruence |]. split; [lia |].
          destruct Hcases as [Hex | (Hr & Hs & Hge)]; [left; exact Hex | right].
          split; [exact Hr |]. split; [exact Hs | lia].
        + destruct (hasErrorLabel e TransientTransactionError).
          * destruct (IH Callback (set_db (MkDb st subs) w2))
              as (r & w' & Hrun & He & Hf & Hc & Hcases).
            { destruct w2; reflexivity. }
            exists r, w'. split; [exact Hrun |].
            destruct w2 as [d2 p2]. cbn [set_db proc db] in *.
            split; [congruence |]. split; [congruence |]. split; [lia |].
            destruct Hcases as [Hex | (Hr & Hs & Hge)]; [left; exact Hex | right].
            split; [exact Hr |]. split; [exact Hs | lia].
          * destruct (Hthrow e w2 (S n)) as (r & w' & Heq & He & Hf & Hc & Hcases).
            exists r, w'. split; [exact Heq |].
            split; [congruence |]. split; [congruence |]. split; [lia |].
            destruct Hcases as [Hex | (Hr & Hs & Hge)]; [left; exact Hex | right].
            split; [exact Hr |]. split; [exact Hs | lia]. }
    intros [| outside] w Hinv; [| exact (Hcommit outside w Hinv)].
    apply (Hcallback (S n) Hcommit); [| exact Hinv].
    intros w0 Hw0. destruct (IH Callback w0 Hw0) as (r & w' & Hrun & He & Hf & Hc & Hcases).
    exists r, w'. split; [exact Hrun |]. intros _.
    split; [exact He |]. split; [exact Hf |]. split; [lia |].
    destruct Hcases as [Hex | (Hr & Hs & Hge)]; [left; exact Hex | right].
    split; [exact Hr |]. split; [exact Hs | lia].
Qed.

(** [withTransaction] around the callback of the seeder, called on a
    datastore that has the record. *)
Lemma seeding_transaction_cases (w : World) (d : gmap string value) :
  mock_data_execution (db w) !! mock_data_id = Some d ->
  exists (r : res unit) (w' : World),
    run_withTransaction_in seeding_callback w = (r, w') /\
    env (proc w') = env (proc w) /\
    populationAttempted (proc w') = populationAttempted (proc w) /\
    batch_inserts (proc w') <=
      batch_inserts (proc w) + S (retries_in_time (env (proc w))) /\
    ((exists e : error, r = Exn e) /\ db w' = db w \/
     r = Val tt /\
     seeded_from (mock_data_execution (db w)) (contact_form_submissions (db w)) d (db w') /\
     S (batch_inserts (proc w)) <= batch_inserts (proc w')).
Proof.
  intros Hst. unfold run_withTransaction_in.
  destruct (seeding_loop (mock_data_execution (db w)) (contact_form_submissions (db w)) d
              (retries_in_time (env (proc w))) Hst Callback w)
    as (r & w' & Hrun & He & Hf & Hc & Hcases).
  { destruct w as [[st subs] p]. reflexivity. }
  exists r, w'. split; [exact Hrun |]. split; [exact He |]. split; [exact Hf |].
  split; [exact Hc |].
  destruct Hcases as [[Hex Hdb] | (Hr & Hs & Hge)]; [left | right].
  - split; [exact Hex |]. rewrite Hdb. destruct w as [[st subs] p]. reflexivity.
  - split; [exact Hr |]. split; [exact Hs | lia].
Qed.

(** Past the transaction of the seeder, on every path. *)
Ltac through_transaction :=
  match goal with
  | |- context [run_withTransaction_in ?b ?w] =>
      let r := fresh "r" in
      let w' := fresh "w'" in
      let Henv := fresh "Henv" in
      let Hfl := fresh "Hfl" in
      let Hcnt := fresh "Hcnt" in
      let Hcases := fresh "Hcases" in
      let Hdocs := fresh "Hdocs" in
      let Hge := fresh "Hge" in
      let Hex := fresh "Hex" in
      let e := fresh "e" in
      let oid := fresh "oid" in
      let docs := fresh "docs" in
      let now := fresh "now" in
      change b with seeding_callback;
      edestruct (seeding_transaction_cases w) as (r & w' & -> & Henv & Hfl & Hcnt & Hcases);
      [ cbn [db mock_data_execution]; apply lookup_insert_eq | ];
      destruct w' as [dw' pw']; destruct pw';
      cbn [db proc env populationAttempted mock_data_execution contact_form_submissions
           retries_in_time] in Henv, Hfl, Hcnt, Hcases;
      destruct Hcases as [[Hex Hcases] | (Hex & (oid & docs & now & Hdocs & Hcases) & Hge)];
      [destruct Hex as [e Hex] |];
      subst
  end.

Lemma populate_cases (w : World) :
  let r := run populate_with_mock_data w in
  populationAttempted (proc (snd r)) = true /\
  batch_inserts (proc (snd r)) <=
    batch_inserts (proc w) + S (retries_in_time (env (proc w))) /\
  (contact_form_submissions (db (snd r)) = contact_form_submissions (db w) /\
   completed_field (db (snd r)) = completed_field (db w) \/
   fst r = Val tt /\
   S (batch_inserts (proc w)) <= batch_inserts (proc (snd r)) /\
   completed_field (db (snd r)) = Some (VBool true) /\
   exists (oid : ObjectId) (docs : list Doc.t),
     is_mock_batch docs /\
     contact_form_submissions (db (snd r)) =
       (contact_form_submissions (db w) ++ with_ids oid docs)%list).
Proof.
  destruct w as [[st subs] [en fl lg cr rr aw iss oid]].
  cbv zeta. unfold populate_with_mock_data, batch_inserts, completed_field.
  destruct fl; destruct (st !! mock_data_id) as [d0 |] eqn:Hst.
  all: explore.
  all: try (through_transaction; explore).
  all: unfold batch_inserts, seeded_from in *.
  all: world_fields; cbn [count_calls is_batch_insert].
  all: cbn [issued proc db mock_data_execution contact_form_submissions
            count_calls is_batch_insert] in *.
  all: (split; [reflexivity |]); (split; [lia |]).
  all: try (left; split; [reflexivity |]; rewrite ?Hst, ?lookup_insert_eq; reflexivity).
  right. split; [reflexivity |]. split; [exact Hge |].
  split; [rewrite lookup_insert_eq; reflexivity |].
  eexists _, _. split; [exact Hdocs | reflexivity].
Qed.

(** With the flag set, a call logs one line and does nothing else. *)
Lemma populate_when_attempted (w : World) :
  populationAttempted (proc w) = true ->
  run populate_with_mock_data w =
  (Val tt,
   MkWorld (db w)
     (with_log (INFO, "Population already attempted in this process, skipping", None)
               (proc w))).
Proof.
  destruct w as [d [en fl lg cr rr aw iss oid]]. cbn [proc populationAttempted].
  intros ->. unfold populate_with_mock_data. exec. reflexivity.
Qed.

(** C4: two calls in a row in one process.  Whatever the first call met
    (a set flag, an existing record, a failing datastore, a transaction
    the driver ran more than once, a successful seeding), the second
    returns normally, leaves the datastore as the first left it and makes
    no driver call, so no batch insert.  Over both calls the submissions
    gain one batch or nothing; the batch insert is issued once for each
    time the driver runs the callback, which is at most once more than the
    tries [withTransaction] has time for. *)
Theorem second_call_is_a_no_op (w : World) :
  let first := run populate_with_mock_data w in
  let second := run populate_with_mock_data (snd first) in
  fst second = Val tt /\
  db (snd second) = db (snd first) /\
  issued (proc (snd second)) = issued (proc (snd first)) /\
  awaits (proc (snd second)) = awaits (proc (snd first)) /\
  batch_inserts (proc (snd second)) = batch_inserts (proc (snd first)) /\
  (contact_form_submissions (db (snd second)) = contact_form_submissions (db w) \/
   exists (oid : ObjectId) (docs : list Doc.t),
     is_mock_batch docs /\
     contact_form_submissions (db (snd second)) =
       (contact_form_submissions (db w) ++ with_ids oid docs)%list) /\
  batch_inserts (proc (snd second)) <=
    batch_inserts (proc w) + S (retries_in_time (env (proc w))).
Proof.
  cbv zeta.
  destruct (populate_cases w) as (Hflag & Hcount & Hstore).
  rewrite (populate_when_attempted _ Hflag). cbn [fst snd db proc].
  assert (Hsame : batch_inserts
                    (with_log (INFO, "Population already attempted in this process, skipping",
                               None)
                       (proc (snd (run populate_with_mock_data w)))) =
                  batch_inserts (proc (snd (run populate_with_mock_data w)))).
  { destruct (proc (snd (run populate_with_mock_data w))). reflexivity. }
  split; [reflexivity |]. split; [reflexivity |].
  split; [destruct (proc (snd (run populate_with_mock_data w))); reflexivity |].
  split; [destruct (proc (snd (run populate_with_mock_data w))); reflexivity |].
  split; [exact Hsame |].
  split; [| rewrite Hsame; exact Hcount].
  destruct Hstore as [[Hsubs _] | (_ & _ & _ & Hbatch)]; [left; exact Hsubs | right; exact Hbatch].
Qed.


(** ** The record already exists *)

(** With the record present nothing is written, whatever the datastore
    answers. *)
Lemma already_seeded_no_writes (w : World) (d0 : gmap string value) :
  mock_data_execution (db w) !! mock_data_id = Some d0 ->
  db (snd (run populate_with_mock_data w)) = db w /\
  submission_writes (proc (snd (run populate_with_mock_data w))) =
  submission_writes (proc w).
Proof.
  destruct w as [[st subs] [en fl lg cr rr aw iss oid]].
  cbn [db mock_data_execution]. intros Hst.
  unfold populate_with_mock_data, submission_writes.
  destruct fl.
  all: explore.
  all: world_fields; cbn [count_calls writes_submissions].
  all: split; reflexivity.
Qed.

Lemma already_seeded_returns (w : World) (d0 : gmap string value) :
  mock_data_execution (db w) !! mock_data_id = Some d0 ->
  calm 2 (proc w) ->
  fst (run populate_with_mock_data w) = Val tt.
Proof.
  destruct w as [[st subs] [en fl lg cr rr aw iss oid]].
  cbn [db mock_data_execution]. intros Hst Hcalm.
  pose proof (Hcalm 0 ltac:(lia)) as H0. pose proof (Hcalm 1 ltac:(lia)) as H1.
  cbn in H0, H1. clear Hcalm.
  unfold populate_with_mock_data.
  destruct fl.
  all: explore.
  all: try reflexivity.
  all: cbn in C; discriminate C.
Qed.

(** C3: when the record at the fixed identifier exists, a call writes
    nothing (the datastore is as before and no call that writes to the
    submissions store is made), and it returns normally when the two
    driver calls it makes are not made to fail. *)
Theorem already_seeded_short_circuit (w : World) (d0 : gmap string value) :
  mock_data_execution (db w) !! mock_data_id = Some d0 ->
  db (snd (run populate_with_mock_data w)) = db w /\
  submission_writes (proc (snd (run populate_with_mock_data w))) =
  submission_writes (proc w) /\
  (calm 2 (proc w) -> fst (run populate_with_mock_data w) = Val tt).
Proof.
  intros Hst. destruct (already_seeded_no_writes w d0 Hst) as [Hdb Hwrites].
  split; [exact Hdb |]. split; [exact Hwrites |].
  intros Hcalm. exact (already_seeded_returns w d0 Hst Hcalm).
Qed.

Lemma calm_steady (n : nat) (p : Proc) : env p = steady_env -> calm n p.
Proof. intros He i _. rewrite He. reflexivity. Qed.

Lemma already_seeded_short_circuit_witness :
  mock_data_execution locked_db !! mock_data_id = Some seeded_record /\
  fst (run populate_with_mock_data (MkWorld locked_db (boot_proc steady_env))) = Val tt.
Proof.
  assert (H : mock_data_execution locked_db !! mock_data_id = Some seeded_record)
    by apply lookup_singleton_eq.
  split; [exact H |].
  apply (already_seeded_short_circuit (MkWorld locked_db (boot_proc steady_env))
           seeded_record H).
  apply calm_steady. reflexivity.
Defined.

(** C8: on a match the conditional insert changes nothing.  At the call:
    with the record present, [updateOne] with [$setOnInsert] and
    [upsert: true] returns the collection as it was, whatever the fields;
    with the record absent it inserts exactly the fields.  In the
    seeder: a call that finds the record leaves the whole status
    collection as it was, so [executed], [timestamp] and [instance] keep
    their stored values. *)
Theorem upsert_leaves_existing_record (w : World) (d0 : gmap string value) :
  mock_data_execution (db w) !! mock_data_id = Some d0 ->
  (forall (o : outcome) (fields : gmap string value) (s : bool),
     snd (statusUpdateOne o (db w) mock_data_id (SetOnInsert fields) (MkOptions true s)) =
     db w) /\
  (forall fields : gmap string value,
     updateOne (mock_data_execution (db w)) mock_data_id (SetOnInsert fields) true =
     (mock_data_execution (db w), MkUpdateResult 1 0)) /\
  mock_data_execution (db (snd (run populate_with_mock_data w))) !! mock_data_id = Some d0.
Proof.
  intros Hst. split; [| split].
  - intros o fields s. destruct w as [[st subs] p]. cbn [db mock_data_execution] in *.
    rewrite (upsert_present o st subs mock_data_id fields d0 s Hst).
    destruct o; reflexivity.
  - intros fields. unfold updateOne. rewrite Hst. reflexivity.
  - destruct (already_seeded_no_writes w d0 Hst) as [-> _]. exact Hst.
Qed.

Lemma upsert_leaves_existing_record_witness :
  mock_data_execution
    (db (snd (run populate_with_mock_data (MkWorld locked_db (boot_proc steady_env)))))
    !! mock_data_id = Some seeded_record.
Proof.
  apply (upsert_leaves_existing_record (MkWorld locked_db (boot_proc steady_env))
           seeded_record).
  apply lookup_singleton_eq.
Defined.

(** X6: the record is written only by an insert: with no record at the
    identifier the upsert stores exactly [executed], [timestamp] and
    [instance]. *)
Lemma upsert_inserts_when_absent (w : World) :
  populationAttempted (proc w) = false ->
  mock_data_execution (db w) !! mock_data_id = None ->
  calm 2 (proc w) ->
  exists d : gmap string value,
    mock_data_execution (db (snd (run populate_with_mock_data w))) !! mock_data_id = Some d /\
    d !! "executed" = Some (VBool true) /\
    d !! "timestamp" =
      Some (VNum (clock (env (proc w)) (clock_reads (proc w)) / 1000)) /\
    d !! "instance" =
      Some (VStr ("instance-" ++ random (env (proc w)) (random_reads (proc w)))).
Proof.
  destruct w as [[st subs] [en fl lg cr rr aw iss oid]].
  cbn [db proc mock_data_execution populationAttempted env clock_reads random_reads].
  intros -> Hst Hcalm.
  pose proof (Hcalm 0 ltac:(lia)) as H0. pose proof (Hcalm 1 ltac:(lia)) as H1.
  cbn in H0, H1. clear Hcalm.
  unfold populate_with_mock_data.
  explore.
  all: try (through_transaction; explore).
  all: world_fields.
  all: rewrite ?lookup_insert_eq.
  all: eexists; split; [reflexivity |].
  all: repeat split; reflexivity.
Qed.

(** ** A failure inside the transaction *)

Lemma fault_of_Fault (o : outcome) (e : error) : o = Fault e -> fault_of o = Some e.
Proof. intros ->. reflexivity. Qed.



Ltac find_in := cbn [In]; repeat (first [left; reflexivity | right]).

(** X1: what the seeder does when [withTransaction] throws: the batch
    insert, the completion update or the commit fails with an error that
    carries neither [TransientTransactionError] nor
    [UnknownTransactionCommitResult], so that the driver does not try
    again.  The submissions store is as before, the writes having been the
    transaction's; the write that records the failure is made, outside the
    transaction; when that write fails too, its error is logged; and,
    whether it fails or not, the call throws the original error, unless
    the error's code is 11000, in which case the enclosing handler takes
    it for a lock conflict and the call returns normally. *)
Lemma transaction_failure_handling (w : World) (e : error) (k : nat) :
  populationAttempted (proc w) = false ->
  mock_data_execution (db w) !! mock_data_id = None ->
  calm 4 (proc w) ->
  transaction_fails (proc w) e k ->
  hasErrorLabel e TransientTransactionError = false ->
  hasErrorLabel e UnknownTransactionCommitResult = false ->
  let r := run populate_with_mock_data w in
  contact_form_submissions (db (snd r)) = contact_form_submissions (db w) /\
  (exists now : Z, In (failure_mark now e) (issued (proc (snd r)))) /\
  (forall e2 : error,
     oracle (env (proc w)) (k + awaits (proc w)) = Fault e2 ->
     In (ERROR, "Failed to update error state:", Some e2) (logs (proc (snd r)))) /\
  (code e <> Some 11000%Z -> fst r = Exn e) /\
  (code e = Some 11000%Z -> fst r = Val tt).
Proof.
  destruct w as [[st subs] [en fl lg cr rr aw iss oid]].
  cbn [db proc mock_data_execution contact_form_submissions populationAttempted env awaits].
  intros -> Hst Hcalm Hfails Htransient Hunknown.
  pose proof (Hcalm 0 ltac:(lia)) as H0. pose proof (Hcalm 1 ltac:(lia)) as H1.
  pose proof (Hcalm 2 ltac:(lia)) as H2. pose proof (Hcalm 3 ltac:(lia)) as H3.
  cbn in H0, H1, H2, H3. clear Hcalm.
  cbv zeta. unfold populate_with_mock_data, failure_mark.
  inversion Hfails as [Hi | Hi Hu | Hi Hu Hc]; subst k; clear Hfails;
    cbn [proc env awaits Nat.add] in *;
    repeat match goal with
           | H : oracle _ _ = Fault _ |- _ => apply fault_of_Fault in H
           end.
  all: explore. all: first_attempt. all: explore.
  all: try match goal with
           | |- context [match retries_in_time ?en with _ => _ end] =>
               destruct (retries_in_time en); rewrite ?andb_false_r
           end.
  all: explore.
  all: world_fields.
  all: (split; [reflexivity |]).
  all: (split; [eexists; find_in |]).
  all: (split; [intros e2 He2; apply fault_of_Fault in He2;
                first [congruence | assert (e2 = e0) by congruence; subst e2; find_in] |]).
  all: split; intros Hcode; try reflexivity.
  all: first [apply bool_decide_eq_true in C | apply bool_decide_eq_false in C]; congruence.
Qed.

Lemma transaction_failure_handling_witness :
  let r := run populate_with_mock_data (fresh_world completion_update_fails) in
  fst r = Exn validation_failed /\
  exists now : Z, In (failure_mark now validation_failed) (issued (proc (snd r))).
Proof.
  assert (Hcalm : calm 4 (proc (fresh_world completion_update_fails))).
  { intros i Hi. do 4 (destruct i as [| i]; [reflexivity |]). lia. }
  destruct (transaction_failure_handling (fresh_world completion_update_fails)
              validation_failed 6 eq_refl (lookup_empty _) Hcalm
              (completion_fails (proc (fresh_world completion_update_fails)) validation_failed
                 eq_refl eq_refl) eq_refl eq_refl)
    as (_ & Hmark & _ & Hraise & _).
  split; [apply Hraise; discriminate | exact Hmark].
Defined.

(** X2: a duplicate-key error at the lock insert is not an error of the
    seeder: the call logs, returns normally and writes nothing. *)
Lemma lock_conflict_returns (w : World) (e : error) :
  populationAttempted (proc w) = false ->
  calm 1 (proc w) ->
  oracle (env (proc w)) (1 + awaits (proc w)) = Fault e ->
  code e = Some 11000%Z ->
  let r := run populate_with_mock_data w in
  fst r = Val tt /\
  db (snd r) = db w /\
  In (INFO, "Another process is handling population, skipping", None)
     (logs (proc (snd r))).
Proof.
  destruct w as [[st subs] [en fl lg cr rr aw iss oid]].
  cbn [db proc populationAttempted env awaits].
  intros -> Hcalm Hfail Hcode.
  pose proof (Hcalm 0 ltac:(lia)) as H0. apply fault_of_Fault in Hfail.
  cbn in H0, Hfail. clear Hcalm.
  cbv zeta. unfold populate_with_mock_data.
  explore.
  all: world_fields.
  all: try (apply bool_decide_eq_false in C; congruence).
  all: split; [reflexivity |]; split; [reflexivity | find_in].
Qed.

Lemma lock_conflict_returns_witness :
  let r := run populate_with_mock_data (fresh_world lock_insert_hits_duplicate_key) in
  fst r = Val tt /\ db (snd r) = fresh_db.
Proof.
  assert (Hcalm : calm 1 (proc (fresh_world lock_insert_hits_duplicate_key))).
  { intros i Hi. destruct i as [| i]; [reflexivity | lia]. }
  destruct (lock_conflict_returns (fresh_world lock_insert_hits_duplicate_key)
              E11000 eq_refl Hcalm eq_refl eq_refl) as (Hret & Hdb & _).
  split; [exact Hret | exact Hdb].
Defined.

(** C5, at the failing input: the lock is acquired on a fresh datastore
    and the batch insert fails with a duplicate-key error (code 11000).
    The batch insert was attempted, the failure was recorded in the status
    record, and the call returned normally: the error was not re-raised. *)
Theorem duplicate_key_in_transaction_is_swallowed :
  let r := run populate_with_mock_data (fresh_world batch_insert_hits_duplicate_key) in
  fst r = Val tt /\
  batch_inserts (proc (snd r)) = 1 /\
  contact_form_submissions (db (snd r)) = [] /\
  (exists d : gmap string value,
     mock_data_execution (db (snd r)) !! mock_data_id = Some d /\
     d !! "failed" = Some (VBool true) /\
     d !! "error" = Some (VStr (description E11000))) /\
  map (fun l => snd (fst l)) (logs (proc (snd r))) =
    ["Another process is handling population, skipping";
     "Failed to populate mock data during transaction:";
     "Starting mock data population for storm_preview_user..."].
Proof.
  cbv zeta.
  split; [vm_compute; reflexivity |].
  split; [vm_compute; reflexivity |].
  split; [vm_compute; reflexivity |].
  split; [| vm_compute; reflexivity].
  eexists. split; [vm_compute; reflexivity |].
  split; vm_compute; reflexivity.
Qed.

(** C6, at the failing input: the batch insert fails with a
    duplicate-key error (code 11000) and the write that records the failure
    fails too.  The secondary error is logged and not thrown, and the
    original error is not thrown either: the call returns normally. *)
Theorem no_failure_reaches_the_caller_on_duplicate_key :
  let r := run populate_with_mock_data
             (fresh_world duplicate_key_then_status_write_fails) in
  fst r = Val tt /\
  (exists now : Z, In (failure_mark now E11000) (issued (proc (snd r)))) /\
  (exists d : gmap string value,
     mock_data_execution (db (snd r)) !! mock_data_id = Some d /\
     d !! "failed" = None) /\
  map (fun l => (snd (fst l), snd l)) (logs (proc (snd r))) =
    [("Another process is handling population, skipping", None);
     ("Failed to update error state:", Some connection_lost);
     ("Failed to populate mock data during transaction:", Some E11000);
     ("Starting mock data population for storm_preview_user...", None)].
Proof.
  cbv zeta.
  split; [vm_compute; reflexivity |].
  split; [exists 1700000000134%Z; vm_compute; find_in |].
  split; [| vm_compute; reflexivity].
  eexists. split; vm_compute; reflexivity.
Qed.

(** ** Processes racing for the lock *)

Lemma idle_returned (n : nat) (p : Proc) : idle n (p, Ret tt).
Proof.
  induction n as [| n IH]; [reflexivity |].
  intros d _. cbn [step_on resume fst snd db proc]. repeat split. exact IH.
Qed.

Lemma idle_intro (n : nat) (t : Proc * prog unit) :
  (forall (d d' : Db) (t' : Proc * prog unit),
     locked d -> step_on d t = (d', t') ->
     d' = d /\ batch_inserts (fst t') = batch_inserts (fst t) /\ idle n t') ->
  idle (S n) t.
Proof.
  intros H d Hd. destruct (step_on d t) as [d' t'] eqn:Hstep.
  exact (H d d' t' Hd Hstep).
Qed.

Lemma holder_intro (n : nat) (t : Proc * prog unit) :
  (forall (d d' : Db) (t' : Proc * prog unit),
     locked d -> contact_form_submissions d = [] -> step_on d t = (d', t') ->
     (d' = d /\ batch_inserts (fst t') = batch_inserts (fst t) /\ holder n t') \/
     (locked d' /\ holds_one_batch d' /\
      batch_inserts (fst t') = S (batch_inserts (fst t)) /\ idle n t')) ->
  holder (S n) t.
Proof.
  intros H d Hd Hsubs. destruct (step_on d t) as [d' t'] eqn:Hstep.
  exact (H d d' t' Hd Hsubs Hstep).
Qed.

Lemma racer_intro (n : nat) (t : Proc * prog unit) :
  (forall (d d' : Db) (t' : Proc * prog unit),
     step_on d t = (d', t') ->
     batch_inserts (fst t') = batch_inserts (fst t) /\
     ((d' = d /\ racer n t') \/
      (locked d /\ d' = d /\ idle n t') \/
      (~ locked d /\ locked d' /\
       contact_form_submissions d' = contact_form_submissions d /\ holder n t'))) ->
  racer (S n) t.
Proof.
  intros H d. destruct (step_on d t) as [d' t'] eqn:Hstep.
  exact (H d d' t' Hstep).
Qed.

Lemma E11000_is_a_conflict : bool_decide (code E11000 = Some 11000%Z) = true.
Proof. reflexivity. Qed.

(** One step of a process, computed. *)
Ltac resume_step :=
  unfold step_on;
  cbn [resume bind try_catch try_finally invoke withTransaction mbind prog_bind mret prog_ret
       awaited perform attempt fst snd proc db env populationAttempted logs
       clock_reads random_reads awaits issued next_oid read_clock read_random record_call
       next_outcome with_flag with_log take_oids set_db reply
       upsert session upsertedCount matchedCount N.eqb
       mock_data_execution contact_form_submissions].

Lemma run_Do {A : Type} (c : call) (k : res (reply c) -> prog A) (w : World) :
  run (Do c k) w = let (r, w') := perform c w in run (k r) w'.
Proof. reflexivity. Qed.

(** Inside a transaction the body runs to its end. *)
Ltac run_body :=
  repeat first
    [ exec_step
    | match goal with
      | |- context [@run ?A (Do ?c ?k) ?w] => rewrite (@run_Do A c k w)
      end ].

Ltac counts := cbn [fst snd batch_inserts issued count_calls is_batch_insert]; try reflexivity.

Opaque insertMockData built_batch.

Lemma fresh_process_races (p : Proc) :
  fresh_process p -> racer 6 (p, populate_with_mock_data).
Proof.
  destruct p as [en fl lg cr rr aw iss oid].
  intros (Hfl & Hiss & Hcalm). cbn in Hfl, Hiss, Hcalm. subst fl iss.
  (* getDb *)
  apply racer_intro. intros [st subs] d' t'.
  unfold populate_with_mock_data. resume_step. rewrite Hcalm. resume_step.
  intros [= <- <-]. split; [counts |]. left. split; [reflexivity |].
  (* the lock upsert *)
  apply racer_intro. intros [st1 subs1] d' t'.
  resume_step. rewrite Hcalm.
  destruct (st1 !! mock_data_id) as [x |] eqn:Hst1.
  - (* the record is there: no insert *)
    rewrite (upsert_present _ _ _ _ _ _ _ Hst1).
    assert (Hlocked : locked (MkDb st1 subs1)) by (exists x; exact Hst1).
    destruct (oracle en (S aw)); resume_step; intros [= <- <-].
    all: split; [counts |]; right; left; split; [exact Hlocked |]; split; [reflexivity |].
    all: apply idle_intro; intros [st2 subs2] d' t' _; resume_step;
      rewrite ?E11000_is_a_conflict; resume_step.
    all: intros [= <- <-]; split; [reflexivity |]; split; [counts |]; apply idle_returned.
  - (* the record is inserted: this process holds the lock *)
    rewrite (upsert_absent _ _ _ _ _ _ Hst1). resume_step. intros [= <- <-].
    split; [counts |]. right. right.
    split; [intros [x Hx]; cbn in Hx; congruence |].
    split; [eexists; cbn; apply lookup_insert_eq |].
    split; [reflexivity |].
    (* getClient *)
    apply holder_intro. intros [st2 subs2] d' t' Hlocked Hsubs.
    resume_step. rewrite Hcalm. resume_step. intros [= <- <-].
    left. split; [reflexivity |]. split; [counts |].
    (* startSession *)
    apply holder_intro. intros [st3 subs3] d' t' Hlocked3 Hsubs3.
    resume_step. rewrite Hcalm. resume_step. intros [= <- <-].
    left. split; [reflexivity |]. split; [counts |].
    (* the transaction *)
    apply holder_intro. intros [st4 subs4] d' t' [x4 Hx4] Hsubs4.
    cbn in Hx4, Hsubs4. subst subs4.
    resume_step. first_attempt. name_callback.
    repeat first [rewrite Hcalm | rewrite (set_present _ _ _ _ _ _ _ Hx4) | progress run_body].
    resume_step. intros [= <- <-].
    right. split; [eexists; cbn [mock_data_execution]; apply lookup_insert_eq |].
    split.
    { eexists _, _. split; [| reflexivity]. eexists. rewrite run_mockSubmissions_eq. reflexivity. }
    split; [counts |].
    (* endSession, and return *)
    apply idle_intro. intros [st5 subs5] d' t' _. resume_step. intros [= <- <-].
    split; [reflexivity |]. split; [counts | reflexivity].
Qed.

Transparent insertMockData built_batch.

Lemma steps_left_snoc_same (done : list nat) (i : nat) :
  steps_left (done ++ [i]) i = pred (steps_left done i).
Proof.
  unfold steps_left. rewrite count_occ_app. cbn [count_occ].
  destruct (Nat.eq_dec i i) as [_ | Hne]; [lia | contradiction].
Qed.

Lemma steps_left_snoc_other (done : list nat) (i j : nat) :
  j <> i -> steps_left (done ++ [i]) j = steps_left done j.
Proof.
  intros Hne. unfold steps_left. rewrite count_occ_app. cbn [count_occ].
  destruct (Nat.eq_dec i j) as [-> | _]; [contradiction | lia].
Qed.

Lemma run_schedule_snoc (sched : list nat) (i : nat) (c : Config) :
  run_schedule (sched ++ [i]) c = schedule (run_schedule sched c) i.
Proof. unfold run_schedule. rewrite fold_left_app. reflexivity. Qed.

(** What one step of a process does, by the role it plays. *)
Lemma step_cases (r : role) (n : nat) (t : Proc * prog unit) (d : Db) :
  plays r (S n) t ->
  (r = Racer \/ locked d) ->
  (r = Holder -> contact_form_submissions d = []) ->
  (fst (step_on d t) = d /\
   batch_inserts (fst (snd (step_on d t))) = batch_inserts (fst t) /\
   (plays r n (snd (step_on d t)) \/
    (r = Racer /\ locked d /\ idle n (snd (step_on d t))))) \/
  (r = Racer /\ ~ locked d /\ locked (fst (step_on d t)) /\
   contact_form_submissions (fst (step_on d t)) = contact_form_submissions d /\
   batch_inserts (fst (snd (step_on d t))) = batch_inserts (fst t) /\
   holder n (snd (step_on d t))) \/
  (r = Holder /\ locked (fst (step_on d t)) /\ holds_one_batch (fst (step_on d t)) /\
   batch_inserts (fst (snd (step_on d t))) = S (batch_inserts (fst t)) /\
   idle n (snd (step_on d t))).
Proof.
  intros Hplays Hlocked Hempty. destruct r; cbn [plays] in *.
  - destruct (Hplays d) as (Hcount & [(Hd & Hr) | [(Hl & Hd & Hi) | (Hn & Hl & Hs & Hh)]]).
    + left. split; [exact Hd |]. split; [exact Hcount |]. left. exact Hr.
    + left. split; [exact Hd |]. split; [exact Hcount |]. right. auto.
    + right. left. auto 10.
  - destruct Hlocked as [Hr | Hl]; [discriminate Hr |].
    destruct (Hplays d Hl (Hempty eq_refl)) as [(Hd & Hc & Hh) | (Hl' & Hb & Hc & Hi)].
    + left. auto.
    + right. right. auto 10.
  - destruct Hlocked as [Hr | Hl]; [discriminate Hr |].
    destruct (Hplays d Hl) as (Hd & Hc & Hi). left. auto.
Qed.

Lemma returned_stays (p : Proc) (d : Db) : step_on d (p, Ret tt) = (d, (p, Ret tt)).
Proof. reflexivity. Qed.

Lemma race_invariant_boot (procs : list Proc) :
  Forall fresh_process procs -> race_invariant (length procs) [] (boot procs).
Proof.
  intros Hfresh. split; [unfold boot; cbn [threads]; apply length_map |].
  exists Unlocked, (fun _ => Racer).
  assert (Hthreads : forall i t, threads (boot procs) !! i = Some t ->
            exists p, t = (p, populate_with_mock_data) /\ fresh_process p).
  { intros i t. unfold boot. cbn [threads]. rewrite list_lookup_fmap.
    destruct (procs !! i) as [p |] eqn:Hp; [| discriminate].
    intros [= <-]. exists p. split; [reflexivity |].
    rewrite Forall_forall in Hfresh. apply Hfresh.
    eapply list_elem_of_lookup_2. exact Hp. }
  split.
  - intros i t Ht. destruct (Hthreads i t Ht) as (p & -> & Hp).
    cbn [plays]. change (steps_left [] i) with 6. apply fresh_process_races. exact Hp.
  - split; [intros [x Hx]; cbn in Hx; rewrite lookup_empty in Hx; discriminate |].
    split; [reflexivity |]. split; [reflexivity |].
    intros i t Ht. destruct (Hthreads i t Ht) as (p & -> & (_ & Hiss & _)).
    unfold batch_inserts. cbn [fst]. rewrite Hiss. reflexivity.
Qed.

Lemma lookup_after_step (ths : list (Proc * prog unit)) (i j : nat) (t' t : Proc * prog unit) :
  i < length ths ->
  <[i := t']> ths !! j = Some t ->
  (j = i /\ t = t') \/ (j <> i /\ ths !! j = Some t).
Proof.
  intros Hi Hj. destruct (Nat.eq_dec j i) as [-> | Hne].
  - rewrite list_lookup_insert_eq in Hj by exact Hi. left. split; congruence.
  - rewrite list_lookup_insert_ne in Hj by congruence. right. auto.
Qed.

Lemma plays_after_step (done : list nat) (i m : nat) (ths : list (Proc * prog unit))
    (t' : Proc * prog unit) (role_of : nat -> role) (r' : role) :
  i < length ths ->
  steps_left done i = S m ->
  (forall j t, ths !! j = Some t -> plays (role_of j) (steps_left done j) t) ->
  plays r' m t' ->
  forall j t, <[i := t']> ths !! j = Some t ->
              plays (with_role role_of i r' j) (steps_left (done ++ [i]) j) t.
Proof.
  intros Hi Hleft Hplays Hnew j t Hj. unfold with_role.
  destruct (lookup_after_step ths i j t' t Hi Hj) as [[-> ->] | [Hne Hj']].
  - rewrite Nat.eqb_refl, steps_left_snoc_same, Hleft. exact Hnew.
  - apply Nat.eqb_neq in Hne as Hne'. rewrite Hne', steps_left_snoc_other by exact Hne.
    apply Hplays. exact Hj'.
Qed.

Lemma counts_after_step (i : nat) (ths : list (Proc * prog unit)) (t t' : Proc * prog unit)
    (f g : nat -> nat) :
  i < length ths ->
  (forall j u, ths !! j = Some u -> batch_inserts (fst u) = f j) ->
  batch_inserts (fst t') = g i ->
  (forall j, j <> i -> g j = f j) ->
  forall j u, <[i := t']> ths !! j = Some u -> batch_inserts (fst u) = g j.
Proof.
  intros Hi Hold Hnew Hsame j u Hj.
  destruct (lookup_after_step ths i j t' u Hi Hj) as [[-> ->] | [Hne Hj']].
  - exact Hnew.
  - rewrite (Hsame j Hne). apply Hold. exact Hj'.
Qed.

Lemma with_role_same (role_of : nat -> role) (i : nat) : 
  forall j, with_role role_of i (role_of i) j = role_of j.
Proof.
  intros j. unfold with_role. destruct (Nat.eqb j i) eqn:E; [| reflexivity].
  apply Nat.eqb_eq in E. subst j. reflexivity.
Qed.

(** The invariant is kept by every step of every process. *)
Lemma race_invariant_step (n : nat) (done : list nat) (c : Config) (i : nat) :
  race_invariant n done c -> race_invariant n (done ++ [i]) (schedule c i).
Proof.
  intros (Hlen & ph & role_of & Hplays & Hphase).
  unfold schedule. destruct (threads c !! i) as [t |] eqn:Ht.
  2: { split; [exact Hlen |]. exists ph, role_of. split; [| exact Hphase].
       intros j u Hj. rewrite steps_left_snoc_other; [apply Hplays; exact Hj |].
       intros ->. congruence. }
  assert (Hi : i < length (threads c)) by (eapply lookup_lt_Some; exact Ht).
  pose proof (Hplays i t Ht) as Hp.
  destruct (steps_left done i) as [| m] eqn:Hleft.
  { (* the process has returned: its step changes nothing *)
    assert (Hret : snd t = Ret tt)
      by (destruct (role_of i); cbn in Hp; [contradiction | contradiction | exact Hp]).
    destruct t as [p code]. cbn in Hret. subst code. rewrite returned_stays.
    rewrite list_insert_id by exact Ht. destruct c as [d ths]. cbn [shared threads] in *.
    split; [exact Hlen |]. exists ph, role_of. split; [| exact Hphase].
    intros j u Hj. destruct (Nat.eq_dec j i) as [-> | Hne].
    - rewrite steps_left_snoc_same, Hleft. cbn [pred]. rewrite <- Hleft. apply Hplays. exact Hj.
    - rewrite steps_left_snoc_other by exact Hne. apply Hplays. exact Hj. }
  destruct c as [d ths]. cbn [shared threads] in *.
  destruct (step_on d t) as [d' t'] eqn:Hstep.
  split; [cbn [threads]; rewrite length_insert; exact Hlen |].
  cbn [shared threads].
  assert (Hcases := fun Hl He => step_cases (role_of i) m t d Hp Hl He).
  rewrite Hstep in Hcases. cbn [fst snd] in Hcases.
  destruct ph as [| h | h].
  - (* no record yet *)
    destruct Hphase as (Hnl & Hsubs & Hroles & Hcounts).
    rewrite (Hroles i) in *.
    destruct (Hcases (or_introl eq_refl) ltac:(discriminate))
      as [(-> & Hc & [Hr | (_ & Hl & _)]) | [(_ & _ & Hl' & Hs & Hc & Hh) | (Hr & _)]];
      [| contradiction | | discriminate Hr].
    + exists Unlocked, role_of. split.
      * intros j u Hj. rewrite <- (with_role_same role_of i j).
        eapply plays_after_step; eauto. rewrite (Hroles i). exact Hr.
      * split; [exact Hnl |]. split; [exact Hsubs |]. split; [exact Hroles |].
        eapply (counts_after_step i ths t t' (fun _ => 0) (fun _ => 0)); eauto.
        rewrite Hc. apply (Hcounts i t Ht).
    + exists (Held i), (with_role role_of i Holder). split.
      * eapply plays_after_step; eauto.
      * split; [exact Hl' |]. split; [congruence |]. split; [lia |].
        split; [unfold with_role; rewrite Nat.eqb_refl; reflexivity |].
        split.
        { intros j Hne. unfold with_role. apply Nat.eqb_neq in Hne. rewrite Hne, Hroles.
          discriminate. }
        eapply (counts_after_step i ths t t' (fun _ => 0) (fun _ => 0)); eauto.
        rewrite Hc. apply (Hcounts i t Ht).
  - (* process h holds the lock *)
    destruct Hphase as (Hl & Hsubs & Hh & Hrole & Hothers & Hcounts).
    destruct (Hcases (or_intror Hl) (fun _ => Hsubs))
      as [(-> & Hc & [Hr | (Hrac & _ & Hidle)]) | [(Hrac & Hnl & _) | (Hr & Hl' & Hb & Hc & Hidle)]];
      [| | contradiction |].
    + exists (Held h), role_of. split.
      * intros j u Hj. rewrite <- (with_role_same role_of i j).
        eapply plays_after_step; eauto.
      * split; [exact Hl |]. split; [exact Hsubs |]. split; [exact Hh |].
        split; [exact Hrole |]. split; [exact Hothers |].
        eapply (counts_after_step i ths t t' (fun _ => 0) (fun _ => 0)); eauto.
        rewrite Hc. apply (Hcounts i t Ht).
    + exists (Held h), (with_role role_of i Idle). split.
      * eapply plays_after_step; eauto.
      * assert (Hne : i <> h) by (intros ->; congruence).
        split; [exact Hl |]. split; [exact Hsubs |]. split; [exact Hh |].
        split; [unfold with_role; apply Nat.eqb_neq in Hne; rewrite Nat.eqb_sym, Hne; exact Hrole |].
        split.
        { intros j Hj. unfold with_role. destruct (Nat.eqb j i); [discriminate | auto]. }
        eapply (counts_after_step i ths t t' (fun _ => 0) (fun _ => 0)); eauto.
        rewrite Hc. apply (Hcounts i t Ht).
    + assert (i = h) as -> by (destruct (Nat.eq_dec i h) as [E | E]; [exact E | destruct (Hothers i E Hr)]).
      exists (Seeded h), (with_role role_of h Idle). split.
      * eapply plays_after_step; eauto.
      * split; [exact Hl' |]. split; [exact Hb |]. split; [exact Hh |].
        split.
        { intros j. unfold with_role. destruct (Nat.eqb j h) eqn:E; [discriminate |].
          apply Hothers. apply Nat.eqb_neq. exact E. }
        eapply (counts_after_step h ths t t' (fun _ => 0)
                  (fun j => if Nat.eqb j h then 1 else 0)); eauto.
        { rewrite Nat.eqb_refl, Hc, (Hcounts h t Ht). reflexivity. }
        { intros j Hne. apply Nat.eqb_neq in Hne. rewrite Hne. reflexivity. }
  - (* the batch is in *)
    destruct Hphase as (Hl & Hb & Hh & Hnone & Hcounts).
    destruct (Hcases (or_intror Hl) (fun E => False_ind _ (Hnone i E)))
      as [(-> & Hc & [Hr | (Hrac & _ & Hidle)]) | [(Hrac & Hnl & _) | (Hr & _)]];
      [| | contradiction | destruct (Hnone i Hr)].
    + exists (Seeded h), role_of. split.
      * intros j u Hj. rewrite <- (with_role_same role_of i j).
        eapply plays_after_step; eauto.
      * split; [exact Hl |]. split; [exact Hb |]. split; [exact Hh |].
        split; [exact Hnone |].
        eapply (counts_after_step i ths t t' (fun j => if Nat.eqb j h then 1 else 0)
                  (fun j => if Nat.eqb j h then 1 else 0)); eauto.
        rewrite Hc. apply (Hcounts i t Ht).
    + exists (Seeded h), (with_role role_of i Idle). split.
      * eapply plays_after_step; eauto.
      * split; [exact Hl |]. split; [exact Hb |]. split; [exact Hh |].
        split.
        { intros j. unfold with_role. destruct (Nat.eqb j i); [discriminate | auto]. }
        eapply (counts_after_step i ths t t' (fun j => if Nat.eqb j h then 1 else 0)
                  (fun j => if Nat.eqb j h then 1 else 0)); eauto.
        rewrite Hc. apply (Hcounts i t Ht).
Qed.

Lemma one_batch_is_ten (d : Db) :
  holds_one_batch d -> length (contact_form_submissions d) = 10.
Proof.
  intros (oid & docs & (w & Hw) & ->).
  destruct (run_mockSubmissions w) as (docs' & Hrun & Hlen & _).
  rewrite Hrun in Hw. cbn [fst] in Hw. injection Hw as <-.
  clear Hrun. revert oid. generalize 10 Hlen. clear Hlen.
  induction docs' as [| x l IH]; intros n Hn oid; cbn [with_ids length] in *.
  - exact Hn.
  - destruct n as [| n]; [discriminate Hn |]. f_equal. apply IH. lia.
Qed.

Lemma race_invariant_holds (procs : list Proc) (sched : list nat) :
  Forall fresh_process procs ->
  race_invariant (length procs) sched (run_schedule sched (boot procs)).
Proof.
  intros Hfresh. induction sched as [| i sched IH] using rev_ind.
  - apply race_invariant_boot. exact Hfresh.
  - rewrite run_schedule_snoc. apply race_invariant_step. exact IH.
Qed.

(** C1: [N >= 1] processes boot on a fresh datastore and each calls the
    seeder once; their steps interleave in any order, every process
    getting the six steps an invocation needs at most; no datastore call
    is made to fail (the server may still answer a lost upsert race with
    E11000).  Then every invocation returns normally, exactly one
    process has made a batch insert (one, and every other none), and the
    submissions store holds exactly one batch, of ten documents. *)
Theorem exactly_one_process_seeds (procs : list Proc) (sched : list nat) :
  procs <> [] ->
  Forall fresh_process procs ->
  fair 6 (length procs) sched ->
  let c := run_schedule sched (boot procs) in
  length (threads c) = length procs /\
  Forall (fun t => snd t = Ret tt) (threads c) /\
  (exists h : nat,
     h < length procs /\
     forall i t, threads c !! i = Some t ->
                 batch_inserts (fst t) = if Nat.eqb i h then 1 else 0) /\
  holds_one_batch (shared c) /\
  length (contact_form_submissions (shared c)) = 10.
Proof.
  intros Hne Hfresh Hfair. cbv zeta.
  destruct (race_invariant_holds procs sched Hfresh)
    as (Hlen & ph & role_of & Hplays & Hphase).
  set (c := run_schedule sched (boot procs)) in *.
  assert (Hdone : forall i t, threads c !! i = Some t -> role_of i = Idle /\ snd t = Ret tt).
  { intros i t Ht. pose proof (Hplays i t Ht) as Hp.
    assert (Hi : i < length procs) by (rewrite <- Hlen; eapply lookup_lt_Some; exact Ht).
    assert (Hleft : steps_left sched i = 0) by (unfold steps_left; specialize (Hfair i Hi); lia).
    rewrite Hleft in Hp.
    destruct (role_of i); cbn in Hp; [contradiction | contradiction | auto]. }
  assert (Hfirst : exists t, threads c !! 0 = Some t).
  { apply lookup_lt_is_Some. rewrite Hlen. destruct procs; [contradiction | cbn; lia]. }
  split; [exact Hlen |].
  split.
  { apply Forall_lookup. intros i t Ht. apply (Hdone i t Ht). }
  destruct ph as [| h | h].
  - destruct Hphase as (_ & _ & Hroles & _). destruct Hfirst as [t Ht].
    destruct (Hdone 0 t Ht) as [Hr _]. rewrite Hroles in Hr. discriminate Hr.
  - destruct Hphase as (_ & _ & Hh & Hrole & _).
    assert (Hth : is_Some (threads c !! h)) by (apply lookup_lt_is_Some; lia).
    destruct Hth as [t Ht]. destruct (Hdone h t Ht) as [Hr _]. congruence.
  - destruct Hphase as (_ & Hb & Hh & _ & Hcounts).
    split; [exists h; split; [exact Hh | exact Hcounts] |].
    split; [exact Hb | apply one_batch_is_ten; exact Hb].
Qed.

Lemma steady_process_is_fresh : fresh_process (boot_proc steady_env).
Proof. repeat split. Qed.

Lemma exactly_one_process_seeds_witness :
  let c := run_schedule round_robin (boot three_processes) in
  Forall (fun t => snd t = Ret tt) (threads c) /\
  length (contact_form_submissions (shared c)) = 10.
Proof.
  assert (Hfair : fair 6 (length three_processes) round_robin).
  { intros i Hi. cbn in Hi. do 3 (destruct i as [| i]; [vm_compute; lia |]). lia. }
  assert (Hfresh : Forall fresh_process three_processes).
  { repeat constructor. }
  destruct (exactly_one_process_seeds three_processes round_robin
              ltac:(discriminate) Hfresh Hfair) as (_ & Hret & _ & _ & Hten).
  split; [exact Hret | exact Hten].
Defined.

(** ** The seeder, end to end *)

Lemma built_batch_spec (w : World) :
  length (built_batch w) = 10 /\
  Forall all_fields_non_empty (built_batch w) /\
  map Doc.submission_timestamp (built_batch w) =
    stamps (clock (env (proc w))) (clock_reads (proc w)) offsets.
Proof.
  destruct (run_mockSubmissions w) as (docs & Hrun & Hlen & Hne & Hts).
  unfold built_batch. rewrite Hrun. cbn [fst]. auto.
Qed.

Opaque built_batch.

(** X3: on a datastore without the record and whose calls succeed, one call
    of a fresh process returns normally and issues one batch insert.  It
    appends to the submissions store one batch as [mockSubmissions] builds
    it (ten documents, under the identifiers the driver generates next),
    with the timestamps of the clock readings that follow the one of the
    lock.  It leaves the status record with [executed], [timestamp] and
    [instance] as the lock upsert wrote them, with [completed] and
    [completedTimestamp], and without [failed]. *)
Lemma seeding_succeeds (w : World) :
  populationAttempted (proc w) = false ->
  mock_data_execution (db w) !! mock_data_id = None ->
  calm 7 (proc w) ->
  let r := run populate_with_mock_data w in
  let now := clock (env (proc w)) in
  let reads := clock_reads (proc w) in
  fst r = Val tt /\
  batch_inserts (proc (snd r)) = S (batch_inserts (proc w)) /\
  (exists docs : list Doc.t,
     is_mock_batch docs /\
     contact_form_submissions (db (snd r)) =
       (contact_form_submissions (db w) ++ with_ids (next_oid (proc w)) docs)%list /\
     length docs = 10 /\
     Forall all_fields_non_empty docs /\
     map Doc.submission_timestamp docs = stamps now (S reads) offsets) /\
  (exists d : gmap string value,
     mock_data_execution (db (snd r)) !! mock_data_id = Some d /\
     d !! "executed" = Some (VBool true) /\
     d !! "timestamp" = Some (VNum (now reads / 1000)) /\
     d !! "instance" =
       Some (VStr ("instance-" ++ random (env (proc w)) (random_reads (proc w)))) /\
     d !! "completed" = Some (VBool true) /\
     d !! "completedTimestamp" = Some (VNum (now (11 + reads) / 1000)) /\
     d !! "failed" = None).
Proof.
  destruct w as [[st subs] [en fl lg cr rr aw iss oid]].
  cbn [db proc mock_data_execution contact_form_submissions populationAttempted env
       clock_reads random_reads next_oid].
  intros -> Hst Hcalm.
  pose proof (Hcalm 0 ltac:(lia)) as H0. pose proof (Hcalm 1 ltac:(lia)) as H1.
  pose proof (Hcalm 2 ltac:(lia)) as H2. pose proof (Hcalm 3 ltac:(lia)) as H3.
  pose proof (Hcalm 4 ltac:(lia)) as H4. pose proof (Hcalm 5 ltac:(lia)) as H5.
  pose proof (Hcalm 6 ltac:(lia)) as H6.
  cbn in H0, H1, H2, H3, H4, H5, H6. clear Hcalm.
  cbv zeta. unfold populate_with_mock_data, batch_inserts.
  explore. first_attempt. explore.
  world_fields; cbn [count_calls is_batch_insert].
  rewrite ?lookup_insert_eq.
  split; [reflexivity |]. split; [reflexivity |].
  split.
  - eexists. split; [apply built_batch_is_mock_batch |]. split; [reflexivity |].
    match goal with |- context [built_batch ?W] => destruct (built_batch_spec W) as (Hl & Hn & Ht) end.
    split; [exact Hl |]. split; [exact Hn | exact Ht].
  - eexists. split; [reflexivity |]. repeat split; reflexivity.
Qed.

Lemma calm_scripted (n : nat) (script : list outcome) (p : Proc) :
  env p = scripted_env script ->
  awaits p = 0 ->
  (forall i, i < n -> fault_of (nth i script Normal) = None) ->
  calm n p.
Proof.
  intros He Ha H i Hi. rewrite He, Ha, Nat.add_0_r. cbn [oracle scripted_env]. apply H. exact Hi.
Qed.

(** Name the run, so that it is computed once. *)
Ltac one_run :=
  match goal with
  | |- context [run ?p ?w] =>
      let r := fresh "r" in
      let Hr := fresh "Hr" in
      remember (run p w) as r eqn:Hr; revert Hr
  end.

Lemma length_with_ids (oid : N) (docs : list Doc.t) :
  length (with_ids oid docs) = length docs.
Proof.
  revert oid. induction docs as [| x l IH]; intros oid; cbn [with_ids length].
  - reflexivity.
  - rewrite IH. reflexivity.
Qed.

Lemma seeding_succeeds_witness :
  let r := run populate_with_mock_data (MkWorld fresh_db (boot_proc steady_env)) in
  fst r = Val tt /\
  length (contact_form_submissions (db (snd r))) = 10.
Proof.
  destruct (seeding_succeeds (MkWorld fresh_db (boot_proc steady_env)) eq_refl
              (lookup_empty _) (calm_steady 7 (boot_proc steady_env) eq_refl))
    as (Hret & _ & (docs & _ & Hsubs & Hlen & _) & _).
  split; [exact Hret |].
  cbv zeta. rewrite Hsubs. change (contact_form_submissions (db (MkWorld fresh_db (boot_proc steady_env)))) with (@nil (N * Doc.t)).
  rewrite app_nil_l, length_with_ids. exact Hlen.
Defined.

(** X20: the driver runs the callback again.  The lock is acquired, the
    batch insert is made and the completion update fails with an error
    labelled [TransientTransactionError], while [withTransaction] has time
    left; the three calls of the second run (the batch insert, the
    completion update, the commit) succeed.  The call returns normally
    having issued the batch insert twice; the submissions store holds the
    batch of the second run and nothing of the first, and the record says
    [completed = true] and has no [failed] field. *)
Lemma transient_failure_is_retried (w : World) (e : error) :
  populationAttempted (proc w) = false ->
  mock_data_execution (db w) !! mock_data_id = None ->
  calm 5 (proc w) ->
  oracle (env (proc w)) (5 + awaits (proc w)) = Fault e ->
  hasErrorLabel e TransientTransactionError = true ->
  0 < retries_in_time (env (proc w)) ->
  (forall i : nat, 6 <= i < 9 -> fault_of (oracle (env (proc w)) (i + awaits (proc w))) = None) ->
  let r := run populate_with_mock_data w in
  let now := clock (env (proc w)) in
  let reads := clock_reads (proc w) in
  fst r = Val tt /\
  batch_inserts (proc (snd r)) = 2 + batch_inserts (proc w) /\
  (exists (oid : ObjectId) (docs : list Doc.t),
     is_mock_batch docs /\
     contact_form_submissions (db (snd r)) =
       (contact_form_submissions (db w) ++ with_ids oid docs)%list /\
     map Doc.submission_timestamp docs = stamps now (12 + reads) offsets) /\
  (exists d : gmap string value,
     mock_data_execution (db (snd r)) !! mock_data_id = Some d /\
     d !! "completed" = Some (VBool true) /\
     d !! "completedTimestamp" = Some (VNum (now (22 + reads) / 1000)) /\
     d !! "failed" = None).
Proof.
  destruct w as [[st subs] [en fl lg cr rr aw iss oid]].
  cbn [db proc mock_data_execution contact_form_submissions populationAttempted env
       clock_reads awaits].
  intros -> Hst Hcalm Hfail Hlabel Htime Hlater.
  pose proof (Hcalm 0 ltac:(lia)) as H0. pose proof (Hcalm 1 ltac:(lia)) as H1.
  pose proof (Hcalm 2 ltac:(lia)) as H2. pose proof (Hcalm 3 ltac:(lia)) as H3.
  pose proof (Hcalm 4 ltac:(lia)) as H4.
  pose proof (Hlater 6 ltac:(lia)) as H6. pose proof (Hlater 7 ltac:(lia)) as H7.
  pose proof (Hlater 8 ltac:(lia)) as H8.
  apply fault_of_Fault in Hfail.
  cbn in H0, H1, H2, H3, H4, Hfail, H6, H7, H8. clear Hcalm Hlater.
  destruct (retries_in_time en) as [| m] eqn:Hm; [lia |].
  cbv zeta. cbn [Nat.add]. unfold populate_with_mock_data, batch_inserts.
  explore. first_attempt. explore. rewrite Hm. rewrite transact_callback. explore.
  world_fields; cbn [count_calls is_batch_insert].
  rewrite ?lookup_insert_eq.
  split; [reflexivity |]. split; [reflexivity |].
  split.
  - eexists _, _. split; [apply built_batch_is_mock_batch |]. split; [reflexivity |].
    match goal with |- context [built_batch ?W] => destruct (built_batch_spec W) as (_ & _ & Ht) end.
    exact Ht.
  - eexists. split; [reflexivity |]. repeat split; reflexivity.
Qed.

Lemma transient_failure_is_retried_witness :
  let r := run populate_with_mock_data (fresh_world completion_update_fails_once) in
  fst r = Val tt /\
  batch_inserts (proc (snd r)) = 2 /\
  length (contact_form_submissions (db (snd r))) = 10.
Proof.
  assert (Hcalm : calm 5 (proc (fresh_world completion_update_fails_once))).
  { intros i Hi. do 5 (destruct i as [| i]; [reflexivity |]). lia. }
  destruct (transient_failure_is_retried (fresh_world completion_update_fails_once)
              connection_lost_in_transaction eq_refl (lookup_empty _) Hcalm eq_refl eq_refl
              ltac:(cbn; lia))
    as (Hret & Hcount & (oid & docs & [w0 Hdocs] & Hsubs & _) & _).
  { intros i Hi. destruct i as [| [| [| [| [| [| [| [| [| i]]]]]]]]]; try lia; reflexivity. }
  split; [exact Hret |]. split; [exact Hcount |].
  cbv zeta. rewrite Hsubs.
  change (contact_form_submissions (db (fresh_world completion_update_fails_once)))
    with (@nil (N * Doc.t)).
  rewrite app_nil_l, length_with_ids.
  destruct (run_mockSubmissions w0) as (docs' & Hrun & Hlen & _).
  rewrite Hrun in Hdocs. cbn [fst] in Hdocs. injection Hdocs as <-. exact Hlen.
Defined.

(** X4: whatever the datastore answers, however often the driver runs the
    callback again, and whatever state the call starts from, the
    submissions store after a call is either as it was, with the
    [completed] field of the status record as it was, or it is the store
    as it was followed by one batch as [mockSubmissions] builds it, and
    then the call has returned normally, the batch insert has been issued
    and the record says [completed = true]: no path stores part of a
    batch, two batches, or a batch without marking it.  The batch insert
    is issued at most once more than [withTransaction] has time to try
    again. *)
Lemma batch_all_or_nothing (w : World) :
  let r := run populate_with_mock_data w in
  (contact_form_submissions (db (snd r)) = contact_form_submissions (db w) /\
   completed_field (db (snd r)) = completed_field (db w) \/
   fst r = Val tt /\
   S (batch_inserts (proc w)) <= batch_inserts (proc (snd r)) /\
   completed_field (db (snd r)) = Some (VBool true) /\
   exists (oid : ObjectId) (docs : list Doc.t),
     is_mock_batch docs /\
     contact_form_submissions (db (snd r)) =
       (contact_form_submissions (db w) ++ with_ids oid docs)%list) /\
  batch_inserts (proc (snd r)) <=
    batch_inserts (proc w) + S (retries_in_time (env (proc w))).
Proof.
  cbv zeta. destruct (populate_cases w) as (_ & Hcount & Hstore).
  split; [exact Hstore | exact Hcount].
Qed.

(** X5: a failure before the lock is acquired: [getDb] fails, or the lock
    upsert fails with an error whose code is not 11000.  The error is
    thrown to the caller, the datastore is as it was, no batch insert is
    made, and the flag stays set, so that this process does not try
    again. *)
Lemma lock_phase_failure_is_thrown (w : World) (e : error) :
  populationAttempted (proc w) = false ->
  oracle (env (proc w)) (awaits (proc w)) = Fault e \/
  (fault_of (oracle (env (proc w)) (awaits (proc w))) = None /\
   oracle (env (proc w)) (1 + awaits (proc w)) = Fault e /\
   code e <> Some 11000%Z) ->
  let r := run populate_with_mock_data w in
  fst r = Exn e /\
  db (snd r) = db w /\
  batch_inserts (proc (snd r)) = batch_inserts (proc w) /\
  populationAttempted (proc (snd r)) = true /\
  fst (run populate_with_mock_data (snd r)) = Val tt.
Proof.
  destruct w as [[st subs] [en fl lg cr rr aw iss oid]].
  cbn [db proc populationAttempted env awaits].
  intros -> Hfail. cbv zeta.
  assert (Hthree :
    fst (run populate_with_mock_data
           (MkWorld (MkDb st subs) (MkProc en false lg cr rr aw iss oid))) = Exn e /\
    db (snd (run populate_with_mock_data
           (MkWorld (MkDb st subs) (MkProc en false lg cr rr aw iss oid)))) = MkDb st subs /\
    batch_inserts (proc (snd (run populate_with_mock_data
           (MkWorld (MkDb st subs) (MkProc en false lg cr rr aw iss oid))))) =
    batch_inserts (MkProc en false lg cr rr aw iss oid) /\
    populationAttempted (proc (snd (run populate_with_mock_data
           (MkWorld (MkDb st subs) (MkProc en false lg cr rr aw iss oid))))) = true).
  { unfold populate_with_mock_data, batch_inserts.
    destruct Hfail as [Hf | (H0 & Hf & Hcode)]; apply fault_of_Fault in Hf; cbn [Nat.add] in Hf.
    - explore. world_fields. repeat split; reflexivity.
    - explore; world_fields.
      + apply bool_decide_eq_true in C. contradiction.
      + repeat split; reflexivity. }
  destruct Hthree as (Hr & Hd & Hb & Hflag).
  split; [exact Hr |]. split; [exact Hd |]. split; [exact Hb |]. split; [exact Hflag |].
  rewrite (populate_when_attempted _ Hflag). reflexivity.
Qed.

Lemma lock_phase_failure_is_thrown_witness :
  let r := run populate_with_mock_data (fresh_world [Fault connection_lost]) in
  fst r = Exn connection_lost /\ db (snd r) = fresh_db.
Proof.
  destruct (lock_phase_failure_is_thrown (fresh_world [Fault connection_lost]) connection_lost
              eq_refl (or_introl eq_refl)) as (Hr & Hd & _).
  split; [exact Hr | exact Hd].
Defined.

Lemma upsert_inserts_when_absent_witness :
  exists d : gmap string value,
    mock_data_execution
      (db (snd (run populate_with_mock_data (MkWorld fresh_db (boot_proc steady_env)))))
      !! mock_data_id = Some d /\
    d !! "executed" = Some (VBool true).
Proof.
  destruct (upsert_inserts_when_absent (MkWorld fresh_db (boot_proc steady_env)) eq_refl
              (lookup_empty _) (calm_steady 2 (boot_proc steady_env) eq_refl)) as (d & Hd & Hex & _).
  exists d. split; [exact Hd | exact Hex].
Defined.

(** ** Seeding at boot *)

(** X7: boot never fails on account of the seeder: the promise resolves
    whatever the datastore answers; it calls the seeder only when
    [USE_MOCK] is ["true"] (otherwise the world is untouched); and what the
    seeder did is what is left in the datastore, with one more log line
    saying whether it returned or threw. *)
Lemma boot_survives_seeding (USE_MOCK : option string) (w : World) :
  let seeded := run populate_with_mock_data w in
  let booted := run (mockDataInitialized USE_MOCK) w in
  fst booted = Val tt /\
  (USE_MOCK <> Some "true" -> snd booted = w) /\
  (USE_MOCK = Some "true" ->
   db (snd booted) = db (snd seeded) /\
   issued (proc (snd booted)) = issued (proc (snd seeded)) /\
   logs (proc (snd booted)) =
     match fst seeded with
     | Val _ => (INFO, "Mock data initialization complete", None)
     | Exn e => (ERROR, "Mock data initialization failed:", Some e)
     end :: logs (proc (snd seeded))).
Proof.
  cbv zeta. unfold mockDataInitialized. case_bool_decide as Huse.
  - change (populate_with_mock_data;; ?q) with (bind populate_with_mock_data (fun _ => q)).
    rewrite run_try_catch, run_bind.
    destruct (run populate_with_mock_data w) as [[[] | e] [d p]]; cbn [fst snd].
    + run_invoke. cbn [perform fst snd db proc with_log logs issued].
      split; [reflexivity |]. split; [intros Hne; contradiction | intros _].
      repeat split; reflexivity.
    + run_invoke. cbn [perform fst snd db proc with_log logs issued].
      split; [reflexivity |]. split; [intros Hne; contradiction | intros _].
      repeat split; reflexivity.
  - cbn [run fst snd]. split; [reflexivity |]. split; [reflexivity | intros E; contradiction].
Qed.

(** ** ObjectIds and their hex strings *)

Lemma hex_value_char (d : N) : (d < 16)%N -> hex_value (hex_char d) = Some d.
Proof.
  intros Hd.
  assert (H : (d = 0 \/ d = 1 \/ d = 2 \/ d = 3 \/ d = 4 \/ d = 5 \/ d = 6 \/ d = 7 \/
               d = 8 \/ d = 9 \/ d = 10 \/ d = 11 \/ d = 12 \/ d = 13 \/ d = 14 \/ d = 15)%N)
    by lia.
  repeat (destruct H as [-> | H]; [reflexivity |]). subst d. reflexivity.
Qed.

Lemma length_hex_digits (k : nat) (n : N) (acc : string) :
  String.length (hex_digits k n acc) = k + String.length acc.
Proof.
  revert n acc. induction k as [| k IH]; intros n acc; cbn [hex_digits].
  - reflexivity.
  - rewrite IH. cbn [String.length]. lia.
Qed.

Lemma hex_number_digits (k : nat) (n a : N) (acc : string) :
  hex_number a (hex_digits k n acc) =
  hex_number (a * 16 ^ N.of_nat k + n mod 16 ^ N.of_nat k)%N acc.
Proof.
  revert n a acc. induction k as [| k IH]; intros n a acc; cbn [hex_digits].
  - cbn [N.of_nat]. rewrite N.pow_0_r, N.mod_1_r. f_equal. lia.
  - rewrite IH. cbn [hex_number].
    rewrite hex_value_char by (apply N.mod_lt; lia).
    f_equal. rewrite Nat2N.inj_succ, N.pow_succ_r'.
    assert (Hpos : (16 ^ N.of_nat k <> 0)%N) by (apply N.pow_nonzero; lia).
    rewrite N.Div0.mod_mul_r.
    set (X := (16 ^ N.of_nat k)%N) in *. lia.
Qed.

(** The 24 hex digits of an ObjectId denote it. *)
Lemma ObjectId_of_its_hex (id : ObjectId) :
  (id < 16 ^ 24)%N -> new_ObjectId (toHexString id) = Val id.
Proof.
  intros Hid. unfold new_ObjectId, toHexString.
  rewrite length_hex_digits. cbn [String.length Nat.add Nat.eqb].
  rewrite hex_number_digits. cbn [hex_number].
  change (N.of_nat 24) with 24%N. rewrite N.mul_0_l, N.add_0_l, N.mod_small by exact Hid.
  reflexivity.
Qed.

(** ** The model class on the store *)

Lemma findOne_Some_id (id : ObjectId) (coll : list (ObjectId * Doc.t)) (x : ObjectId * Doc.t) :
  findOne id coll = Some x -> fst x = id /\ In x coll.
Proof.
  induction coll as [| [i d] rest IH]; cbn [findOne]; [discriminate |].
  destruct (N.eqb i id) eqn:Hi.
  - intros [= <-]. apply N.eqb_eq in Hi. split; [exact Hi | left; reflexivity].
  - intros H. destruct (IH H) as [H1 H2]. split; [exact H1 | right; exact H2].
Qed.

Lemma findOne_None (id : ObjectId) (coll : list (ObjectId * Doc.t)) :
  findOne id coll = None <-> ~ In id (map fst coll).
Proof.
  induction coll as [| [i d] rest IH]; cbn [findOne map fst In].
  - split; [intros _ [] | reflexivity].
  - destruct (N.eqb i id) eqn:Hi.
    + apply N.eqb_eq in Hi. split; [discriminate | intros H; exfalso; apply H; left; exact Hi].
    + apply N.eqb_neq in Hi. rewrite IH. split; [intros H [E | E]; auto | intros H E; auto].
Qed.

Lemma findOne_app_new (id : ObjectId) (coll : list (ObjectId * Doc.t)) (d : Doc.t) :
  findOne id coll = None -> findOne id (coll ++ [(id, d)]) = Some (id, d).
Proof.
  induction coll as [| [i x] rest IH]; cbn [findOne app].
  - rewrite N.eqb_refl. reflexivity.
  - destruct (N.eqb i id); [discriminate | exact IH].
Qed.

Lemma findOne_app_old (id : ObjectId) (coll more : list (ObjectId * Doc.t))
    (x : ObjectId * Doc.t) :
  findOne id coll = Some x -> findOne id (coll ++ more) = Some x.
Proof.
  induction coll as [| [i y] rest IH]; cbn [findOne app]; [discriminate |].
  destruct (N.eqb i id); [auto | exact IH].
Qed.

Lemma deleteOne_missing (id : ObjectId) (coll : list (ObjectId * Doc.t)) :
  findOne id coll = None -> deleteOne id coll = (coll, 0%N).
Proof.
  induction coll as [| [i d] rest IH]; cbn [findOne deleteOne]; [reflexivity |].
  destruct (N.eqb i id); [discriminate |]. intros H. rewrite (IH H). reflexivity.
Qed.

Lemma without_absent (id : ObjectId) (coll : list (ObjectId * Doc.t)) :
  ~ In id (map fst coll) -> without id coll = coll.
Proof.
  induction coll as [| [i d] rest IH]; cbn [without List.filter map fst In]; [reflexivity |].
  intros H. destruct (N.eqb i id) eqn:Hi.
  - apply N.eqb_eq in Hi. exfalso. apply H. left. exact Hi.
  - cbn [negb]. f_equal. apply IH. intros E. apply H. right. exact E.
Qed.

Lemma deleteOne_stored (id : ObjectId) (coll : list (ObjectId * Doc.t)) (x : ObjectId * Doc.t) :
  ids_unique coll ->
  findOne id coll = Some x ->
  deleteOne id coll = (without id coll, 1%N) /\ findOne id (without id coll) = None.
Proof.
  unfold ids_unique.
  induction coll as [| [i d] rest IH]; cbn [findOne deleteOne without List.filter map fst];
    [discriminate |].
  intros Hnd Hfind. apply NoDup_cons in Hnd as [Hnotin Hnd].
  destruct (N.eqb i id) eqn:Hi.
  - apply N.eqb_eq in Hi. subst i. cbn [negb].
    apply list_elem_of_In in Hnotin || idtac.
    assert (Hno : ~ In id (map fst rest)) by (intros E; apply Hnotin, list_elem_of_In; exact E).
    fold (without id rest). rewrite (without_absent id rest Hno).
    split; [reflexivity | apply findOne_None; exact Hno].
  - cbn [negb]. fold (without id rest).
    destruct (IH Hnd Hfind) as [Hdel Hgone]. rewrite Hdel.
    split; [reflexivity |]. cbn [findOne]. rewrite Hi. exact Hgone.
Qed.

Lemma patched_absent (id : ObjectId) (fields : Partial.t) (coll : list (ObjectId * Doc.t)) :
  ~ In id (map fst coll) -> patched id fields coll = coll.
Proof.
  induction coll as [| [i d] rest IH]; cbn [patched map fst In]; [reflexivity |].
  intros H. destruct (N.eqb i id) eqn:Hi.
  - apply N.eqb_eq in Hi. exfalso. apply H. left. exact Hi.
  - f_equal. apply IH. intros E. apply H. right. exact E.
Qed.

Lemma findOneAndUpdate_missing (id : ObjectId) (fields : Partial.t)
    (coll : list (ObjectId * Doc.t)) :
  findOne id coll = None -> findOneAndUpdate id fields coll = (coll, None).
Proof.
  induction coll as [| [i d] rest IH]; cbn [findOne findOneAndUpdate]; [reflexivity |].
  destruct (N.eqb i id); [discriminate |]. intros H. rewrite (IH H). reflexivity.
Qed.

Lemma findOneAndUpdate_stored (id : ObjectId) (fields : Partial.t)
    (coll : list (ObjectId * Doc.t)) (d : Doc.t) :
  ids_unique coll ->
  findOne id coll = Some (id, d) ->
  findOneAndUpdate id fields coll = (patched id fields coll, Some (id, set_fields fields d)).
Proof.
  unfold ids_unique.
  induction coll as [| [i x] rest IH]; cbn [findOne findOneAndUpdate patched map fst snd];
    [discriminate |].
  intros Hnd Hfind. apply NoDup_cons in Hnd as [Hnotin Hnd].
  destruct (N.eqb i id) eqn:Hi.
  - injection Hfind as -> ->.
    assert (Hno : ~ In id (map fst rest)) by (intros E; apply Hnotin, list_elem_of_In; exact E).
    fold (patched id fields rest). rewrite (patched_absent id fields rest Hno). reflexivity.
  - fold (patched id fields rest). rewrite (IH Hnd Hfind). reflexivity.
Qed.

Lemma calm_at (n i : nat) (p : Proc) :
  calm n p -> i < n -> fault_of (oracle (env p) (i + awaits p)) = None.
Proof. intros H Hi. exact (H i Hi). Qed.

(** X8: a submission that [create] returned is the one [get_by_id] reads back
    under its id, and [create] appended exactly that document to the
    collection. *)
Lemma created_submission_is_read_back (name email subject message : string) (w : World) :
  calm 4 (proc w) ->
  write_concern_ack (env (proc w)) = true ->
  (next_oid (proc w) < 16 ^ 24)%N ->
  findOne (next_oid (proc w)) (contact_form_submissions (db w)) = None ->
  let created := run (ContactFormSubmission.create name email subject message) w in
  exists s : ContactFormSubmission.t,
    fst created = Val (Some s) /\
    ContactFormSubmission.toDocument s =
      Doc.Make name email subject message
               (clock (env (proc w)) (clock_reads (proc w)) / 1000) /\
    contact_form_submissions (db (snd created)) =
      (contact_form_submissions (db w) ++
       [(next_oid (proc w), ContactFormSubmission.toDocument s)])%list /\
    fst (run (ContactFormSubmission.get_by_id (ContactFormSubmission.id s)) (snd created)) =
      Val (Some s).
Proof.
  destruct w as [[st subs] [en fl lg cr rr aw iss oid]].
  cbn [proc db env next_oid contact_form_submissions clock_reads].
  intros Hcalm Hack Hoid Hfresh.
  pose proof (calm_at 4 0 _ Hcalm ltac:(lia)) as H0.
  pose proof (calm_at 4 1 _ Hcalm ltac:(lia)) as H1.
  pose proof (calm_at 4 2 _ Hcalm ltac:(lia)) as H2.
  pose proof (calm_at 4 3 _ Hcalm ltac:(lia)) as H3.
  cbn [env awaits Nat.add] in H0, H1, H2, H3.
  unfold ContactFormSubmission.create. cbn. unfold attempt. cbn.
  rewrite H0. cbn. rewrite H1. cbn. rewrite Hack. cbn.
  eexists. split; [reflexivity |]. split; [reflexivity |]. split; [reflexivity |].
  unfold ContactFormSubmission.get_by_id. cbn. unfold attempt. cbn.
  rewrite H2. cbn. rewrite (ObjectId_of_its_hex oid Hoid). cbn.
  rewrite H3. cbn. rewrite (findOne_app_new oid subs _ Hfresh). reflexivity.
Qed.

Lemma findOne_patched (id : ObjectId) (fields : Partial.t) (coll : list (ObjectId * Doc.t)) :
  findOne id (patched id fields coll) =
  match findOne id coll with
  | Some (i, d) => Some (i, set_fields fields d)
  | None => None
  end.
Proof.
  induction coll as [| [i d] rest IH]; cbn [findOne patched map fst snd]; [reflexivity |].
  destruct (N.eqb i id) eqn:Hi; cbn [findOne fst]; rewrite Hi; [reflexivity | exact IH].
Qed.

Lemma findOne_stored (i : ObjectId) (d : Doc.t) (coll : list (ObjectId * Doc.t)) :
  ids_unique coll -> In (i, d) coll -> findOne i coll = Some (i, d).
Proof.
  unfold ids_unique.
  induction coll as [| [j x] rest IH]; cbn [findOne map fst In]; [intros _ [] |].
  intros Hnd Hin. apply NoDup_cons in Hnd as [Hnotin Hnd].
  destruct (N.eqb j i) eqn:Hj.
  - apply N.eqb_eq in Hj. subst j. destruct Hin as [E | Hin]; [rewrite E; reflexivity |].
    exfalso. apply Hnotin. apply list_elem_of_In. apply (in_map fst) in Hin. exact Hin.
  - destruct Hin as [E | Hin]; [| exact (IH Hnd Hin)].
    injection E as -> _. rewrite N.eqb_refl in Hj. discriminate.
Qed.

(** X9: an id that is not 24 hex digits reaches no query: [get_by_id],
    [update] and [delete] answer [null], [null] and [false], the only
    driver call they make is [getDb], and the datastore is as before. *)
Lemma malformed_id_is_never_queried (id : string) (updateFields : Partial.t) (w : World) :
  is_val (new_ObjectId id) = false ->
  let got := run (ContactFormSubmission.get_by_id id) w in
  let updated := run (ContactFormSubmission.update id updateFields) w in
  let deleted := run (ContactFormSubmission.delete id) w in
  (fst got = Val None /\ db (snd got) = db w /\
   issued (proc (snd got)) = GetDb :: issued (proc w)) /\
  (fst updated = Val None /\ db (snd updated) = db w /\
   issued (proc (snd updated)) = GetDb :: issued (proc w)) /\
  (fst deleted = Val false /\ db (snd deleted) = db w /\
   issued (proc (snd deleted)) = GetDb :: issued (proc w)).
Proof.
  destruct w as [[st subs] [en fl lg cr rr aw iss oid]].
  destruct (new_ObjectId id) as [_id | e] eqn:Hid; [discriminate |]. intros _.
  unfold ContactFormSubmission.get_by_id, ContactFormSubmission.update,
    ContactFormSubmission.delete.
  rewrite Hid. cbn. unfold attempt. cbn.
  destruct (oracle en aw) as [| | e0]; cbn; repeat split; reflexivity.
Qed.

(** X10: every stored submission is found under the hex form of its id, with
    its stored fields, and the lookup leaves the datastore as it is. *)
Lemma stored_submission_is_found (i : ObjectId) (d : Doc.t) (w : World) :
  calm 2 (proc w) ->
  ids_unique (contact_form_submissions (db w)) ->
  (i < 16 ^ 24)%N ->
  In (i, d) (contact_form_submissions (db w)) ->
  let got := run (ContactFormSubmission.get_by_id (toHexString i)) w in
  fst got =
    Val (Some (ContactFormSubmission.Make (toHexString i) (Doc.name d) (Doc.email d)
                 (Doc.subject d) (Doc.message d) (Doc.submission_timestamp d))) /\
  db (snd got) = db w.
Proof.
  destruct w as [[st subs] [en fl lg cr rr aw iss oid]].
  cbn [proc db contact_form_submissions].
  intros Hcalm Hu Hi Hin.
  pose proof (calm_at 2 0 _ Hcalm ltac:(lia)) as H0.
  pose proof (calm_at 2 1 _ Hcalm ltac:(lia)) as H1.
  cbn [env awaits Nat.add] in H0, H1.
  unfold ContactFormSubmission.get_by_id. rewrite (ObjectId_of_its_hex i Hi).
  cbn. unfold attempt. cbn. rewrite H0. cbn. rewrite H1. cbn.
  rewrite (findOne_stored i d subs Hu Hin). split; reflexivity.
Qed.

Lemma get_by_id_frame (id : string) (w : World) :
  db (snd (run (ContactFormSubmission.get_by_id id) w)) = db w /\
  env (proc (snd (run (ContactFormSubmission.get_by_id id) w))) = env (proc w).
Proof.
  destruct w as [[st subs] [en fl lg cr rr aw iss oid]].
  unfold ContactFormSubmission.get_by_id.
  destruct (new_ObjectId id) as [_id | e] eqn:Hid; cbn; unfold attempt; cbn;
    destruct (oracle en aw) as [| | e0]; cbn; try (split; reflexivity);
    destruct (oracle en (S aw)) as [| | e1]; cbn; split; reflexivity.
Qed.

(** X11: [delete] removes the document stored under the id and no other: it
    answers [true] exactly when there was one, the other documents stay in
    their order, the status collection is untouched, and [get_by_id] of the
    same id then answers [null]. *)
Lemma deleted_submission_is_gone (id : string) (_id : ObjectId) (w : World) :
  new_ObjectId id = Val _id ->
  calm 4 (proc w) ->
  ids_unique (contact_form_submissions (db w)) ->
  let deleted := run (ContactFormSubmission.delete id) w in
  fst deleted =
    Val (match findOne _id (contact_form_submissions (db w)) with
         | Some _ => true
         | None => false
         end) /\
  contact_form_submissions (db (snd deleted)) =
    without _id (contact_form_submissions (db w)) /\
  mock_data_execution (db (snd deleted)) = mock_data_execution (db w) /\
  fst (run (ContactFormSubmission.get_by_id id) (snd deleted)) = Val None.
Proof.
  destruct w as [[st subs] [en fl lg cr rr aw iss oid]].
  cbn [proc db contact_form_submissions mock_data_execution].
  intros Hid Hcalm Hu.
  pose proof (calm_at 4 0 _ Hcalm ltac:(lia)) as H0.
  pose proof (calm_at 4 1 _ Hcalm ltac:(lia)) as H1.
  pose proof (calm_at 4 2 _ Hcalm ltac:(lia)) as H2.
  pose proof (calm_at 4 3 _ Hcalm ltac:(lia)) as H3.
  cbn [env awaits Nat.add] in H0, H1, H2, H3.
  unfold ContactFormSubmission.delete, ContactFormSubmission.get_by_id. rewrite Hid.
  cbn. unfold attempt. cbn. rewrite H0. cbn. rewrite H1. cbn.
  assert (Hdel : deleteOne _id subs =
                 (without _id subs,
                  match findOne _id subs with Some _ => 1%N | None => 0%N end) /\
                 findOne _id (without _id subs) = None).
  { destruct (findOne _id subs) as [x |] eqn:Hf.
    - exact (deleteOne_stored _id subs x Hu Hf).
    - rewrite (deleteOne_missing _id subs Hf).
      pose proof (proj1 (findOne_None _id subs) Hf) as Hno.
      rewrite (without_absent _id subs Hno). split; [reflexivity | exact Hf]. }
  destruct Hdel as [Hdel Hgone]. rewrite Hdel. cbn.
  rewrite H2. cbn. rewrite H3. cbn. rewrite Hgone.
  destruct (findOne _id subs); repeat split; reflexivity.
Qed.

(** X12: [update] writes the given fields over the document stored under the
    id and over no other, answers the document as it is after the write
    ([null] when there is none), and [get_by_id] then reads the same
    answer. *)
Lemma updated_submission_is_read_back (id : string) (_id : ObjectId)
    (updateFields : Partial.t) (w : World) :
  new_ObjectId id = Val _id ->
  calm 4 (proc w) ->
  ids_unique (contact_form_submissions (db w)) ->
  let updated := run (ContactFormSubmission.update id updateFields) w in
  fst updated =
    Val (ContactFormSubmission.fromDocument
           (match findOne _id (contact_form_submissions (db w)) with
            | Some (i, d) => Some (i, set_fields updateFields d)
            | None => None
            end)) /\
  contact_form_submissions (db (snd updated)) =
    patched _id updateFields (contact_form_submissions (db w)) /\
  mock_data_execution (db (snd updated)) = mock_data_execution (db w) /\
  fst (run (ContactFormSubmission.get_by_id id) (snd updated)) = fst updated.
Proof.
  destruct w as [[st subs] [en fl lg cr rr aw iss oid]].
  cbn [proc db contact_form_submissions mock_data_execution].
  intros Hid Hcalm Hu.
  pose proof (calm_at 4 0 _ Hcalm ltac:(lia)) as H0.
  pose proof (calm_at 4 1 _ Hcalm ltac:(lia)) as H1.
  pose proof (calm_at 4 2 _ Hcalm ltac:(lia)) as H2.
  pose proof (calm_at 4 3 _ Hcalm ltac:(lia)) as H3.
  cbn [env awaits Nat.add] in H0, H1, H2, H3.
  unfold ContactFormSubmission.update, ContactFormSubmission.get_by_id. rewrite Hid.
  cbn. unfold attempt. cbn. rewrite H0. cbn. rewrite H1. cbn.
  assert (Hupd : findOneAndUpdate _id updateFields subs =
                 (patched _id updateFields subs,
                  match findOne _id subs with
                  | Some (i, d) => Some (i, set_fields updateFields d)
                  | None => None
                  end)).
  { destruct (findOne _id subs) as [[i d] |] eqn:Hf.
    - destruct (findOne_Some_id _id subs _ Hf) as [Hi _]. cbn [fst] in Hi. subst i.
      exact (findOneAndUpdate_stored _id updateFields subs d Hu Hf).
    - rewrite (findOneAndUpdate_missing _id updateFields subs Hf).
      pose proof (proj1 (findOne_None _id subs) Hf) as Hno.
      rewrite (patched_absent _id updateFields subs Hno). reflexivity. }
  rewrite Hupd. cbn. rewrite H2. cbn. rewrite H3. cbn.
  rewrite findOne_patched. repeat split; reflexivity.
Qed.

Lemma created_submission_is_read_back_witness :
  let w := MkWorld one_submission_db (boot_proc steady_env) in
  let created := run (ContactFormSubmission.create "Ravi" "ravi@example.com" "Hi" "Hello") w in
  exists s : ContactFormSubmission.t,
    fst created = Val (Some s) /\
    ContactFormSubmission.toDocument s =
      Doc.Make "Ravi" "ravi@example.com" "Hi" "Hello" 1700000000 /\
    contact_form_submissions (db (snd created)) =
      (contact_form_submissions one_submission_db ++
       [(100%N, ContactFormSubmission.toDocument s)])%list /\
    fst (run (ContactFormSubmission.get_by_id (ContactFormSubmission.id s)) (snd created)) =
      Val (Some s).
Proof.
  exact (created_submission_is_read_back "Ravi" "ravi@example.com" "Hi" "Hello"
           (MkWorld one_submission_db (boot_proc steady_env))
           (calm_steady 4 (boot_proc steady_env) eq_refl) eq_refl eq_refl eq_refl).
Defined.

Lemma malformed_id_is_never_queried_witness :
  let w := MkWorld one_submission_db (boot_proc steady_env) in
  let deleted := run (ContactFormSubmission.delete "1") w in
  fst deleted = Val false /\ db (snd deleted) = one_submission_db /\
  issued (proc (snd deleted)) = [GetDb].
Proof.
  exact (proj2 (proj2 (malformed_id_is_never_queried "1" (only_subject "Changed")
                         (MkWorld one_submission_db (boot_proc steady_env)) eq_refl))).
Defined.

Lemma stored_submission_is_found_witness :
  fst (run (ContactFormSubmission.get_by_id (toHexString 1))
           (MkWorld one_submission_db (boot_proc steady_env))) =
  Val (Some (ContactFormSubmission.Make (toHexString 1) "Asha" "asha@example.com" "Hello"
               "A question" 1700000000)).
Proof.
  refine (proj1 (stored_submission_is_found 1
                   (Doc.Make "Asha" "asha@example.com" "Hello" "A question" 1700000000)
                   (MkWorld one_submission_db (boot_proc steady_env))
                   (calm_steady 2 (boot_proc steady_env) eq_refl) _ eq_refl
                   (or_introl eq_refl))).
  unfold ids_unique. cbn. apply NoDup_cons. split; [apply not_elem_of_nil | apply NoDup_nil_2].
Defined.

Lemma deleted_submission_is_gone_witness :
  let deleted := run (ContactFormSubmission.delete "000000000000000000000001")
                     (MkWorld one_submission_db (boot_proc steady_env)) in
  fst deleted = Val true /\
  contact_form_submissions (db (snd deleted)) = [] /\
  fst (run (ContactFormSubmission.get_by_id "000000000000000000000001") (snd deleted)) =
    Val None.
Proof.
  assert (Hu : ids_unique (contact_form_submissions one_submission_db)).
  { unfold ids_unique. cbn. apply NoDup_cons.
    split; [apply not_elem_of_nil | apply NoDup_nil_2]. }
  destruct (deleted_submission_is_gone "000000000000000000000001" 1
              (MkWorld one_submission_db (boot_proc steady_env)) eq_refl
              (calm_steady 4 (boot_proc steady_env) eq_refl) Hu) as (H1 & H2 & _ & H4).
  split; [exact H1 |]. split; [exact H2 | exact H4].
Defined.

Lemma updated_submission_is_read_back_witness :
  let updated := run (ContactFormSubmission.update "000000000000000000000001"
                        (only_subject "Changed"))
                     (MkWorld one_submission_db (boot_proc steady_env)) in
  fst updated =
    Val (Some (ContactFormSubmission.Make (toHexString 1) "Asha" "asha@example.com"
                 "Changed" "A question" 1700000000)) /\
  fst (run (ContactFormSubmission.get_by_id "000000000000000000000001") (snd updated)) =
    fst updated.
Proof.
  assert (Hu : ids_unique (contact_form_submissions one_submission_db)).
  { unfold ids_unique. cbn. apply NoDup_cons.
    split; [apply not_elem_of_nil | apply NoDup_nil_2]. }
  destruct (updated_submission_is_read_back "000000000000000000000001" 1
              (only_subject "Changed")
              (MkWorld one_submission_db (boot_proc steady_env)) eq_refl
              (calm_steady 4 (boot_proc steady_env) eq_refl) Hu) as (H1 & _ & _ & H4).
  split; [exact H1 | exact H4].
Defined.

(** ** The pattern of the create handler *)

Lemma append_nil_l (s : string) : "" ++ s = s.
Proof. reflexivity. Qed.

Lemma append_cons (c : ascii) (s1 s2 : string) : String c s1 ++ s2 = String c (s1 ++ s2).
Proof. reflexivity. Qed.

Lemma append_eq_nil (s1 s2 : string) : s1 ++ s2 = "" -> s1 = "" /\ s2 = "".
Proof.
  destruct s1; [rewrite append_nil_l; intros ->; split; reflexivity |].
  rewrite append_cons. discriminate.
Qed.

Lemma matches_cat_inv (r1 r2 : regex) (s : string) :
  matches (Cat r1 r2) s ->
  exists s1 s2 : string, s = s1 ++ s2 /\ matches r1 s1 /\ matches r2 s2.
Proof. inversion 1; subst. eauto. Qed.

Lemma matches_alt_inv (r1 r2 : regex) (s : string) :
  matches (Alt r1 r2) s -> matches r1 s \/ matches r2 s.
Proof. inversion 1; subst; [left | right]; assumption. Qed.

Lemma matches_class_inv (f : ascii -> bool) (s : string) :
  matches (Class f) s -> exists c : ascii, s = String c "" /\ f c = true.
Proof. inversion 1; subst. eauto. Qed.

Lemma nullable_spec (r : regex) : nullable r = true <-> matches r "".
Proof.
  induction r as [| | f | r1 IH1 r2 IH2 | r1 IH1 r2 IH2 | r IH]; cbn [nullable].
  - split; [discriminate | inversion 1].
  - split; [intros _; constructor | reflexivity].
  - split; [discriminate | inversion 1].
  - rewrite andb_true_iff, IH1, IH2. split.
    + intros [H1 H2]. exact (matches_cat r1 r2 "" "" H1 H2).
    + intros H. destruct (matches_cat_inv _ _ _ H) as (s1 & s2 & E & H1 & H2).
      symmetry in E. destruct (append_eq_nil _ _ E) as [-> ->]. split; assumption.
  - rewrite orb_true_iff, IH1, IH2. split.
    + intros [H | H]; [apply matches_alt_l | apply matches_alt_r]; exact H.
    + apply matches_alt_inv.
  - split; [intros _; constructor | reflexivity].
Qed.

Lemma matches_star_inv (r : regex) (c : ascii) (s : string) :
  matches (Star r) (String c s) ->
  exists s1 s2 : string, s = s1 ++ s2 /\ matches r (String c s1) /\ matches (Star r) s2.
Proof.
  intros H. remember (Star r) as r' eqn:Er. remember (String c s) as t eqn:Et.
  revert s Et. induction H as [| | | | | | r0 s1 s2 H1 _ H2 IH2]; try discriminate.
  injection Er as ->. intros s Et. destruct s1 as [| c1 s1].
  - rewrite append_nil_l in Et. exact (IH2 eq_refl s Et).
  - rewrite append_cons in Et. injection Et as -> <-. exists s1, s2. repeat split; assumption.
Qed.

Lemma derive_spec (r : regex) (c : ascii) (s : string) :
  matches (derive c r) s <-> matches r (String c s).
Proof.
  revert s.
  induction r as [| | f | r1 IH1 r2 IH2 | r1 IH1 r2 IH2 | r IH]; intros s; cbn [derive].
  - split; inversion 1.
  - split; inversion 1.
  - destruct (f c) eqn:Hf; split.
    + inversion 1; subst. constructor. exact Hf.
    + intros H. destruct (matches_class_inv _ _ H) as (c' & [= <- ->] & _). constructor.
    + inversion 1.
    + intros H. destruct (matches_class_inv _ _ H) as (c' & [= <- ->] & Hc). congruence.
  - assert (Hcat : matches (Cat (derive c r1) r2) s -> matches (Cat r1 r2) (String c s)).
    { intros H. destruct (matches_cat_inv _ _ _ H) as (s1 & s2 & -> & H1 & H2).
      apply IH1 in H1. exact (matches_cat r1 r2 (String c s1) s2 H1 H2). }
    assert (Hinv : matches (Cat r1 r2) (String c s) ->
                   matches (Cat (derive c r1) r2) s \/
                   (matches r1 "" /\ matches (derive c r2) s)).
    { intros H. destruct (matches_cat_inv _ _ _ H) as (s1 & s2 & E & H1 & H2).
      destruct s1 as [| c1 s1]; [rewrite append_nil_l in E | rewrite append_cons in E].
      - right. subst s2. split; [exact H1 | apply IH2; exact H2].
      - injection E as -> ->. left. apply matches_cat; [apply IH1; exact H1 | exact H2]. }
    destruct (nullable r1) eqn:Hn; split.
    + intros H. destruct (matches_alt_inv _ _ _ H) as [H1 | H1]; [exact (Hcat H1) |].
      apply IH2 in H1. apply nullable_spec in Hn.
      exact (matches_cat r1 r2 "" (String c s) Hn H1).
    + intros H. destruct (Hinv H) as [H1 | [_ H1]];
        [apply matches_alt_l | apply matches_alt_r]; exact H1.
    + exact Hcat.
    + intros H. destruct (Hinv H) as [H1 | [H1 _]]; [exact H1 |].
      apply nullable_spec in H1. congruence.
  - split; intros H; destruct (matches_alt_inv _ _ _ H) as [H1 | H1];
      [apply matches_alt_l, IH1 | apply matches_alt_r, IH2
      | apply matches_alt_l, IH1 | apply matches_alt_r, IH2]; exact H1.
  - split.
    + intros H. destruct (matches_cat_inv _ _ _ H) as (s1 & s2 & -> & H1 & H2).
      apply IH in H1. exact (matches_star_cons r (String c s1) s2 H1 H2).
    + intros H. destruct (matches_star_inv r c s H) as (s1 & s2 & -> & H1 & H2).
      apply matches_cat; [apply IH; exact H1 | exact H2].
Qed.

Lemma test_spec (r : regex) (s : string) : test r s = true <-> matches r s.
Proof.
  revert r. induction s as [| c s IH]; intros r; cbn [test].
  - apply nullable_spec.
  - rewrite IH. apply derive_spec.
Qed.

Lemma matches_star_class (f : ascii -> bool) (s : string) :
  matches (Star (Class f)) s <-> all_chars f s = true.
Proof.
  split.
  - intros H. remember (Star (Class f)) as r eqn:Er.
    induction H as [| | | | | | r0 s1 s2 H1 _ H2 IH2]; try discriminate; [reflexivity |].
    injection Er as ->. destruct (matches_class_inv _ _ H1) as (c & -> & Hc).
    rewrite append_cons, append_nil_l. cbn [all_chars]. rewrite (IH2 eq_refl), Hc. reflexivity.
  - induction s as [| c s IH]; cbn [all_chars]; [intros _; constructor |].
    rewrite andb_true_iff. intros [Hc Hs].
    exact (matches_star_cons (Class f) (String c "") s (matches_class f c Hc) (IH Hs)).
Qed.

Lemma matches_plus_class (f : ascii -> bool) (s : string) :
  matches (Plus (Class f)) s <-> s <> "" /\ all_chars f s = true.
Proof.
  unfold Plus. split.
  - intros H. destruct (matches_cat_inv _ _ _ H) as (s1 & s2 & -> & H1 & H2).
    destruct (matches_class_inv _ _ H1) as (c & -> & Hc).
    apply matches_star_class in H2. rewrite append_cons, append_nil_l.
    split; [discriminate |]. cbn [all_chars]. rewrite H2, Hc. reflexivity.
  - intros [Hne Hall]. destruct s as [| c s]; [congruence |].
    cbn [all_chars] in Hall. apply andb_true_iff in Hall as [Hc Hs].
    exact (matches_cat (Class f) (Star (Class f)) (String c "") s
             (matches_class f c Hc) (proj2 (matches_star_class f s) Hs)).
Qed.

Lemma matches_chr (c : ascii) (s : string) : matches (Chr c) s <-> s = String c "".
Proof.
  unfold Chr. split.
  - intros H. destruct (matches_class_inv _ _ H) as (c' & -> & Hc).
    apply Ascii.eqb_eq in Hc. subst c'. reflexivity.
  - intros ->. constructor. apply Ascii.eqb_refl.
Qed.

Lemma matches_emailRegex (s : string) :
  matches emailRegex s <->
  exists local domain tld : string,
    s = local ++ "@" ++ domain ++ "." ++ tld /\
    (local <> "" /\ all_chars not_space_or_at local = true) /\
    (domain <> "" /\ all_chars not_space_or_at domain = true) /\
    (tld <> "" /\ all_chars not_space_or_at tld = true).
Proof.
  unfold emailRegex. split.
  - intros H.
    destruct (matches_cat_inv _ _ _ H) as (l & s1 & -> & Hl & H1).
    destruct (matches_cat_inv _ _ _ H1) as (a & s2 & -> & Ha & H2).
    destruct (matches_cat_inv _ _ _ H2) as (d & s3 & -> & Hd & H3).
    destruct (matches_cat_inv _ _ _ H3) as (p & t & -> & Hp & Ht).
    apply matches_chr in Ha, Hp. subst a p.
    apply matches_plus_class in Hl, Hd, Ht.
    exists l, d, t. split; [reflexivity |]. split; [exact Hl |]. split; [exact Hd | exact Ht].
  - intros (l & d & t & -> & Hl & Hd & Ht).
    apply matches_plus_class in Hl, Hd, Ht.
    apply matches_cat; [exact Hl |].
    apply (matches_cat _ _ "@"); [apply matches_chr; reflexivity |].
    apply matches_cat; [exact Hd |].
    apply (matches_cat _ _ "."); [apply matches_chr; reflexivity | exact Ht].
Qed.

(** X13: the pattern accepts exactly the strings [local@domain.tld] whose three
    parts are not empty and hold neither white space nor [@]: one [@], a
    dot somewhere after it with something on both sides, and no white
    space anywhere. *)
Lemma emailRegex_accepts (s : string) :
  test emailRegex s = true <->
  exists local domain tld : string,
    s = local ++ "@" ++ domain ++ "." ++ tld /\
    (local <> "" /\ all_chars not_space_or_at local = true) /\
    (domain <> "" /\ all_chars not_space_or_at domain = true) /\
    (tld <> "" /\ all_chars not_space_or_at tld = true).
Proof. rewrite test_spec. apply matches_emailRegex. Qed.

(** ** Trimming *)

Lemma length_zero (s : string) : Nat.eqb (String.length s) 0 = true <-> s = "".
Proof. destruct s; cbn; split; congruence. Qed.

Lemma length_nonzero (s : string) : s <> "" -> Nat.eqb (String.length s) 0 = false.
Proof. destruct s; cbn; congruence. Qed.

Lemma trimEnd_cons (c : ascii) (s : string) :
  trimEnd (String c s) =
  match trimEnd s with
  | EmptyString => if is_white_space c then EmptyString else String c EmptyString
  | t => String c t
  end.
Proof. reflexivity. Qed.

Lemma trimEnd_idem (s : string) : trimEnd (trimEnd s) = trimEnd s.
Proof.
  induction s as [| c s IH]; [reflexivity |]. rewrite trimEnd_cons.
  destruct (trimEnd s) as [| c' t] eqn:Ht.
  - destruct (is_white_space c) eqn:Hc; [reflexivity |].
    rewrite trimEnd_cons. cbn [trimEnd]. rewrite Hc. reflexivity.
  - rewrite trimEnd_cons, IH. reflexivity.
Qed.

Lemma trimEnd_head (c : ascii) (s : string) :
  is_white_space c = false -> exists t : string, trimEnd (String c s) = String c t.
Proof.
  intros Hc. cbn [trimEnd]. destruct (trimEnd s) as [| c' t]; [rewrite Hc |]; eauto.
Qed.

Lemma trimStart_head (s : string) :
  trimStart s = "" \/
  exists (c : ascii) (t : string), trimStart s = String c t /\ is_white_space c = false.
Proof.
  induction s as [| c s IH]; [left; reflexivity |]. cbn [trimStart].
  destruct (is_white_space c) eqn:Hc; [exact IH | right; eauto].
Qed.

Lemma trim_idem (s : string) : trim (trim s) = trim s.
Proof.
  unfold trim. destruct (trimStart_head s) as [-> | (c & t & -> & Hc)]; [reflexivity |].
  destruct (trimEnd_head c t Hc) as (t' & Ht). rewrite Ht.
  cbn [trimStart]. rewrite Hc, <- Ht. apply trimEnd_idem.
Qed.

Lemma trim_nonempty (s : string) : trim s <> "" -> s <> "".
Proof. intros H ->. apply H. reflexivity. Qed.

Lemma no_space_trimStart (s : string) :
  all_chars not_space_or_at s = true -> trimStart s = s.
Proof.
  destruct s as [| c s]; [reflexivity |]. cbn [all_chars trimStart]. unfold not_space_or_at.
  destruct (is_white_space c); [discriminate | reflexivity].
Qed.

Lemma no_space_trimEnd (s : string) :
  all_chars not_space_or_at s = true -> trimEnd s = s.
Proof.
  induction s as [| c s IH]; [reflexivity |]. cbn [all_chars]. rewrite trimEnd_cons.
  rewrite andb_true_iff. intros [Hc H]. rewrite (IH H).
  unfold not_space_or_at in Hc. destruct (is_white_space c); [discriminate |].
  destruct s; reflexivity.
Qed.

Lemma all_chars_app (f : ascii -> bool) (s1 s2 : string) :
  all_chars f (s1 ++ s2) = all_chars f s1 && all_chars f s2.
Proof.
  induction s1 as [| c s IH]; [reflexivity |].
  rewrite append_cons. cbn [all_chars]. rewrite IH, andb_assoc. reflexivity.
Qed.

Lemma append_nonempty_r (u v : string) : v <> "" -> u ++ v <> "".
Proof. intros Hv E. apply append_eq_nil in E as [_ E]. exact (Hv E). Qed.

Lemma trimEnd_app (u v : string) : v <> "" -> trimEnd v = v -> trimEnd (u ++ v) = u ++ v.
Proof.
  intros Hv Hev. induction u as [| c u IH]; [exact Hev |].
  rewrite append_cons, trimEnd_cons, IH.
  destruct (u ++ v) eqn:E; [| reflexivity].
  exfalso. exact (append_nonempty_r u v Hv E).
Qed.

(** A string the pattern accepts holds no white space at either end, so
    trimming it changes nothing. *)
Lemma accepted_email_is_trimmed (s : string) :
  test emailRegex s = true -> s <> "" /\ trim s = s.
Proof.
  intros H. apply test_spec, matches_emailRegex in H as (l & d & t & -> & [Hl Hla] & _ & [Ht Hta]).
  assert (Hne : l ++ "@" ++ d ++ "." ++ t <> "").
  { destruct l; [congruence | rewrite append_cons; discriminate]. }
  split; [exact Hne |]. unfold trim.
  assert (Hstart : trimStart (l ++ "@" ++ d ++ "." ++ t) = l ++ "@" ++ d ++ "." ++ t).
  { destruct l as [| c l]; [congruence |]. rewrite append_cons. cbn [trimStart].
    cbn [all_chars] in Hla. unfold not_space_or_at in Hla.
    destruct (is_white_space c); [discriminate | reflexivity]. }
  rewrite Hstart.
  pose proof (no_space_trimEnd t Hta) as Hend.
  repeat (apply trimEnd_app; [repeat apply append_nonempty_r; exact Ht |]).
  exact Hend.
Qed.

(** ** The create handler *)

(** The four conditions under which the handler goes on to store. *)
Lemma validation (body : Body.t) :
  (exists msg : string,
     forall w : World,
       run (createContactFormSubmission body) w = (Val (Responded 400 (ErrorJson msg)), w)) \/
  (exists name email subject message : string,
     body = body_of name email subject message /\
     trim name <> "" /\ test emailRegex email = true /\
     trim subject <> "" /\ trim message <> "").
Proof.
  destruct body as [bn be bs bm]. unfold createContactFormSubmission.
  cbn [Body.name Body.email Body.subject Body.message].
  destruct bn as [| | [] | [] | name |]; cbn [truthy negb];
    try (left; eexists; intros w; reflexivity).
  destruct (Nat.eqb (String.length name) 0) eqn:Hn0; cbn [negb];
    [left; eexists; intros w; reflexivity |].
  destruct (Nat.eqb (String.length (trim name)) 0) eqn:Hn;
    [left; eexists; intros w; reflexivity |].
  destruct be as [| | [] | [] | email |]; cbn [truthy negb];
    try (left; eexists; intros w; reflexivity).
  destruct (Nat.eqb (String.length email) 0) eqn:He0; cbn [negb];
    [left; eexists; intros w; reflexivity |].
  destruct (Nat.eqb (String.length (trim email)) 0) eqn:He;
    [left; eexists; intros w; reflexivity |].
  destruct (test emailRegex email) eqn:Hre; cbn [negb];
    [| left; eexists; intros w; reflexivity].
  destruct bs as [| | [] | [] | subject |]; cbn [truthy negb];
    try (left; eexists; intros w; reflexivity).
  destruct (Nat.eqb (String.length subject) 0) eqn:Hs0; cbn [negb];
    [left; eexists; intros w; reflexivity |].
  destruct (Nat.eqb (String.length (trim subject)) 0) eqn:Hs;
    [left; eexists; intros w; reflexivity |].
  destruct bm as [| | [] | [] | message |]; cbn [truthy negb];
    try (left; eexists; intros w; reflexivity).
  destruct (Nat.eqb (String.length message) 0) eqn:Hm0; cbn [negb];
    [left; eexists; intros w; reflexivity |].
  destruct (Nat.eqb (String.length (trim message)) 0) eqn:Hm;
    [left; eexists; intros w; reflexivity |].
  right. exists name, email, subject, message.
  split; [reflexivity |].
  repeat split; try exact Hre; intros E; rewrite E in *; discriminate.
Qed.

(** What the handler does with a body that passes the checks, in terms of
    the two model operations it calls. *)
Lemma accepted_run (name email subject message : string) (w : World) :
  trim name <> "" -> test emailRegex email = true ->
  trim subject <> "" -> trim message <> "" ->
  run (createContactFormSubmission (body_of name email subject message)) w =
  match run (ContactFormSubmission.create (trim name) email (trim subject) (trim message)) w with
  | (Exn e, w') => (Val (Next e), w')
  | (Val None, w') =>
      (Val (Next (new_Error "Failed to create contact form submission")), w')
  | (Val (Some created), w') =>
      match run (ContactFormSubmission.get_by_id (ContactFormSubmission.id created)) w' with
      | (Exn e, w'') => (Val (Next e), w'')
      | (Val None, w'') =>
          (Val (Next (new_Error "Failed to retrieve created contact form submission")), w'')
      | (Val (Some saved), w'') =>
          (Val (Responded 201
                  (SubmissionJson (ContactFormSubmission.id saved)
                     (ContactFormSubmission.name saved)
                     (ContactFormSubmission.email saved)
                     (ContactFormSubmission.subject saved)
                     (ContactFormSubmission.message saved)
                     (ContactFormSubmission.submission_timestamp saved))), w'')
      end
  end.
Proof.
  intros Hn Hre Hs Hm.
  destruct (accepted_email_is_trimmed email Hre) as [He Hte].
  unfold createContactFormSubmission.
  cbn [body_of Body.name Body.email Body.subject Body.message truthy].
  rewrite (length_nonzero name (trim_nonempty name Hn)), (length_nonzero (trim name) Hn).
  rewrite (length_nonzero email He), Hte, (length_nonzero email He), Hre.
  rewrite (length_nonzero subject (trim_nonempty subject Hs)), (length_nonzero (trim subject) Hs).
  rewrite (length_nonzero message (trim_nonempty message Hm)),
    (length_nonzero (trim message) Hm).
  cbn [negb].
  change (mbind ?f ?p) with (bind p f).
  rewrite run_try_catch, run_bind.
  destruct (run (ContactFormSubmission.create _ _ _ _) w) as [[[created |] | e] w'];
    [| reflexivity | reflexivity].
  change (mbind ?f ?p) with (bind p f). rewrite run_bind.
  destruct (run (ContactFormSubmission.get_by_id _) w') as [[[saved |] | e] w''];
    reflexivity.
Qed.

Lemma calm_shift (n k : nat) (p p' : Proc) :
  calm (k + n) p -> env p' = env p -> awaits p' = k + awaits p -> calm n p'.
Proof.
  intros H He Ha i Hi. rewrite He, Ha.
  replace (i + (k + awaits p)) with ((k + i) + awaits p) by lia. apply H. lia.
Qed.

Lemma faulted_shift (n k : nat) (p p' : Proc) :
  (exists (i : nat) (e : error),
     k <= i < k + n /\ oracle (env p) (i + awaits p) = Fault e) ->
  env p' = env p -> awaits p' = k + awaits p -> faulted n p'.
Proof.
  intros (i & e & Hi & Ho) He Ha. exists (i - k), e. split; [lia |].
  rewrite He, Ha. replace (i - k + (k + awaits p)) with (i + awaits p) by lia. exact Ho.
Qed.

(** [create] when the driver does not fail. *)
Lemma create_calm (name email subject message : string) (w : World) :
  calm 2 (proc w) ->
  let r := run (ContactFormSubmission.create name email subject message) w in
  let now := (clock (env (proc w)) (clock_reads (proc w)) / 1000)%Z in
  fst r =
    Val (if write_concern_ack (env (proc w))
         then Some (ContactFormSubmission.Make (toHexString (next_oid (proc w)))
                      name email subject message now)
         else None) /\
  db (snd r) =
    MkDb (mock_data_execution (db w))
         (contact_form_submissions (db w) ++
          [(next_oid (proc w), Doc.Make name email subject message now)]) /\
  env (proc (snd r)) = env (proc w) /\
  awaits (proc (snd r)) = 2 + awaits (proc w).
Proof.
  destruct w as [[st subs] [en fl lg cr rr aw iss oid]].
  cbn [proc db env next_oid contact_form_submissions clock_reads awaits mock_data_execution].
  intros Hcalm.
  pose proof (calm_at 2 0 _ Hcalm ltac:(lia)) as H0.
  pose proof (calm_at 2 1 _ Hcalm ltac:(lia)) as H1.
  cbn [env awaits Nat.add] in H0, H1.
  unfold ContactFormSubmission.create. cbn. unfold attempt. cbn.
  rewrite H0. cbn. rewrite H1. cbn.
  destruct (write_concern_ack en); cbn; repeat split; reflexivity.
Qed.

(** [create] in general: the status collection is untouched, and the
    submissions are as before or have the new document at the end. *)
Lemma create_cases (name email subject message : string) (w : World) :
  let r := run (ContactFormSubmission.create name email subject message) w in
  let now := (clock (env (proc w)) (clock_reads (proc w)) / 1000)%Z in
  mock_data_execution (db (snd r)) = mock_data_execution (db w) /\
  env (proc (snd r)) = env (proc w) /\
  (exists c : option ContactFormSubmission.t, fst r = Val c) /\
  (contact_form_submissions (db (snd r)) = contact_form_submissions (db w) \/
   contact_form_submissions (db (snd r)) =
     (contact_form_submissions (db w) ++
      [(next_oid (proc w), Doc.Make name email subject message now)])%list).
Proof.
  destruct w as [[st subs] [en fl lg cr rr aw iss oid]].
  unfold ContactFormSubmission.create. cbn. unfold attempt. cbn.
  destruct (oracle en aw) as [| | e0]; cbn;
    try (repeat split; eauto; fail);
    (destruct (oracle en (S aw)) as [| | e1]; cbn;
     try destruct (write_concern_ack en); cbn; repeat split; eauto).
Qed.

(** [get_by_id] when the driver does not fail. *)
Lemma get_by_id_calm (id : string) (_id : ObjectId) (w : World) :
  new_ObjectId id = Val _id ->
  calm 2 (proc w) ->
  let r := run (ContactFormSubmission.get_by_id id) w in
  fst r = Val (ContactFormSubmission.fromDocument
                 (findOne _id (contact_form_submissions (db w)))) /\
  awaits (proc (snd r)) = 2 + awaits (proc w).
Proof.
  destruct w as [[st subs] [en fl lg cr rr aw iss oid]].
  cbn [proc db contact_form_submissions awaits].
  intros Hid Hcalm.
  pose proof (calm_at 2 0 _ Hcalm ltac:(lia)) as H0.
  pose proof (calm_at 2 1 _ Hcalm ltac:(lia)) as H1.
  cbn [env awaits Nat.add] in H0, H1.
  unfold ContactFormSubmission.get_by_id. rewrite Hid.
  cbn. unfold attempt. cbn. rewrite H0. cbn. rewrite H1. cbn. split; reflexivity.
Qed.

Lemma length_toHexString (id : ObjectId) : toHexString id <> "".
Proof.
  intros E. pose proof (length_hex_digits 24 id "") as H.
  unfold toHexString in E. rewrite E in H. discriminate H.
Qed.

(** X14: a request the handler answers with 400 has had no effect at all: no
    driver call, no clock reading, no log line, and the datastore is as it
    was. *)
Lemma rejected_request_touches_nothing (body : Body.t) (w : World) (j : json) :
  fst (run (createContactFormSubmission body) w) = Val (Responded 400 j) ->
  snd (run (createContactFormSubmission body) w) = w.
Proof.
  destruct (validation body) as [[msg H] | (n & e & s & m & -> & Hn & He & Hs & Hm)].
  - rewrite H. reflexivity.
  - rewrite (accepted_run n e s m w Hn He Hs Hm).
    destruct (run (ContactFormSubmission.create _ _ _ _) w) as [[[created |] | e0] w'];
      cbn [fst]; try discriminate.
    destruct (run (ContactFormSubmission.get_by_id _) w') as [[[saved |] | e0] w''];
      cbn [fst]; discriminate.
Qed.

(** X15: whatever the body and whatever the driver answers, the handler leaves
    the submissions as they were or appends one document, under the next
    identifier, and that document is well formed: every field is non-empty
    and has no white space around it, the email matches the pattern, and
    the timestamp is the clock reading in seconds.  The status collection
    is never touched. *)
Lemma handler_stores_only_well_formed (body : Body.t) (w : World) :
  let r := run (createContactFormSubmission body) w in
  mock_data_execution (db (snd r)) = mock_data_execution (db w) /\
  (contact_form_submissions (db (snd r)) = contact_form_submissions (db w) \/
   exists d : Doc.t,
     contact_form_submissions (db (snd r)) =
       (contact_form_submissions (db w) ++ [(next_oid (proc w), d)])%list /\
     well_formed d /\
     Doc.submission_timestamp d =
       (clock (env (proc w)) (clock_reads (proc w)) / 1000)%Z).
Proof.
  cbv zeta.
  destruct (validation body) as [[msg H] | (n & e & s & m & -> & Hn & He & Hs & Hm)].
  - rewrite H. split; [reflexivity | left; reflexivity].
  - rewrite (accepted_run n e s m w Hn He Hs Hm).
    pose proof (create_cases (trim n) e (trim s) (trim m) w) as Hc. cbv zeta in Hc.
    destruct (run (ContactFormSubmission.create _ _ _ _) w) as [[[created |] | e0] w'];
      cbn [fst snd] in Hc |- *.
    + pose proof (get_by_id_frame (ContactFormSubmission.id created) w') as [Hg _].
      destruct (run (ContactFormSubmission.get_by_id _) w') as [[[saved |] | e1] w''];
        cbn [fst snd] in Hg |- *; rewrite Hg;
        (destruct Hc as (Hst & _ & _ & [Hsame | Hnew]);
         (split; [exact Hst |]); [left; exact Hsame | right]);
        (eexists; split; [exact Hnew |]; split; [| reflexivity];
         destruct (accepted_email_is_trimmed e He) as [Hne Hte];
         repeat split; cbn [Doc.name Doc.email Doc.subject Doc.message];
         try assumption; apply trim_idem).
    + destruct Hc as (Hst & _ & _ & [Hsame | Hnew]);
        (split; [exact Hst |]); [left; exact Hsame | right].
      eexists; split; [exact Hnew |]; split; [| reflexivity].
      destruct (accepted_email_is_trimmed e He) as [Hne Hte].
      repeat split; cbn [Doc.name Doc.email Doc.subject Doc.message];
        try assumption; apply trim_idem.
    + destruct Hc as (_ & _ & [c Hc] & _). discriminate Hc.
Qed.

(** The handler on a body that passes the checks, when neither the driver
    nor the write concern lets it down: everything about the outcome. *)
Lemma accepted_post (name email subject message : string) (w : World) :
  trim name <> "" -> test emailRegex email = true ->
  trim subject <> "" -> trim message <> "" ->
  calm 4 (proc w) ->
  write_concern_ack (env (proc w)) = true ->
  (next_oid (proc w) < 16 ^ 24)%N ->
  findOne (next_oid (proc w)) (contact_form_submissions (db w)) = None ->
  let r := run (createContactFormSubmission (body_of name email subject message)) w in
  let now := (clock (env (proc w)) (clock_reads (proc w)) / 1000)%Z in
  fst r =
    Val (Responded 201
           (SubmissionJson (toHexString (next_oid (proc w)))
              (trim name) email (trim subject) (trim message) now)) /\
  db (snd r) =
    MkDb (mock_data_execution (db w))
         (contact_form_submissions (db w) ++
          [(next_oid (proc w), Doc.Make (trim name) email (trim subject) (trim message) now)]) /\
  env (proc (snd r)) = env (proc w) /\
  awaits (proc (snd r)) = 4 + awaits (proc w).
Proof.
  intros Hn He Hs Hm Hcalm Hack Hoid Hfresh. cbv zeta.
  rewrite (accepted_run name email subject message w Hn He Hs Hm).
  assert (Hcalm2 : calm 2 (proc w)) by (intros i Hi; apply Hcalm; lia).
  pose proof (create_calm (trim name) email (trim subject) (trim message) w Hcalm2) as Hc.
  cbv zeta in Hc. rewrite Hack in Hc.
  destruct (run (ContactFormSubmission.create _ _ _ _) w) as [r0 w'].
  cbn [fst snd] in Hc. destruct Hc as (-> & Hdb & Henv & Haw).
  cbn [ContactFormSubmission.id].
  assert (Hcalm' : calm 2 (proc w')) by exact (calm_shift 2 2 (proc w) (proc w') Hcalm Henv Haw).
  pose proof (get_by_id_calm _ _ w' (ObjectId_of_its_hex _ Hoid) Hcalm') as [Hg Haw'].
  pose proof (get_by_id_frame (toHexString (next_oid (proc w))) w') as [Hgdb Hgenv].
  destruct (run (ContactFormSubmission.get_by_id _) w') as [r1 w''].
  cbn [fst snd] in Hg, Haw', Hgdb, Hgenv. subst r1.
  rewrite Hdb. cbn [contact_form_submissions].
  rewrite (findOne_app_new _ _ _ Hfresh). cbn [ContactFormSubmission.fromDocument].
  cbn [fst snd Doc.name Doc.email Doc.subject Doc.message Doc.submission_timestamp
       ContactFormSubmission.id ContactFormSubmission.name ContactFormSubmission.email
       ContactFormSubmission.subject ContactFormSubmission.message
       ContactFormSubmission.submission_timestamp].
  split; [reflexivity |]. split; [rewrite Hgdb; exact Hdb |].
  split; [rewrite Hgenv; exact Henv | rewrite Haw', Haw; reflexivity].
Qed.

(** X16: a body whose four fields are strings with something other than white
    space in them, and whose email matches the pattern, is stored with the
    name, subject and message trimmed and answered with 201 and the stored
    fields, the hex form of the new identifier, and the clock reading in
    seconds. *)
Lemma accepted_request_is_stored_trimmed (name email subject message : string) (w : World) :
  trim name <> "" -> test emailRegex email = true ->
  trim subject <> "" -> trim message <> "" ->
  calm 4 (proc w) ->
  write_concern_ack (env (proc w)) = true ->
  (next_oid (proc w) < 16 ^ 24)%N ->
  findOne (next_oid (proc w)) (contact_form_submissions (db w)) = None ->
  let r := run (createContactFormSubmission (body_of name email subject message)) w in
  let now := (clock (env (proc w)) (clock_reads (proc w)) / 1000)%Z in
  fst r =
    Val (Responded 201
           (SubmissionJson (toHexString (next_oid (proc w)))
              (trim name) email (trim subject) (trim message) now)) /\
  contact_form_submissions (db (snd r)) =
    (contact_form_submissions (db w) ++
     [(next_oid (proc w), Doc.Make (trim name) email (trim subject) (trim message) now)])%list.
Proof.
  intros Hn He Hs Hm Hcalm Hack Hoid Hfresh.
  destruct (accepted_post name email subject message w Hn He Hs Hm Hcalm Hack Hoid Hfresh)
    as (Hr & Hdb & _). cbv zeta. split; [exact Hr | rewrite Hdb; reflexivity].
Qed.

(** X17: when the insert went through and the read-back fails (at [getDb] or at
    [findOne]), the handler hands [Failed to retrieve created contact form
    submission] to [next], and the submission stays stored. *)
Lemma failed_read_back_leaves_the_submission (name email subject message : string)
    (w : World) :
  trim name <> "" -> test emailRegex email = true ->
  trim subject <> "" -> trim message <> "" ->
  calm 2 (proc w) ->
  write_concern_ack (env (proc w)) = true ->
  (exists (i : nat) (e : error),
     2 <= i < 4 /\ oracle (env (proc w)) (i + awaits (proc w)) = Fault e) ->
  let r := run (createContactFormSubmission (body_of name email subject message)) w in
  let now := (clock (env (proc w)) (clock_reads (proc w)) / 1000)%Z in
  fst r = Val (Next (new_Error "Failed to retrieve created contact form submission")) /\
  contact_form_submissions (db (snd r)) =
    (contact_form_submissions (db w) ++
     [(next_oid (proc w), Doc.Make (trim name) email (trim subject) (trim message) now)])%list.
Proof.
  intros Hn He Hs Hm Hcalm Hack Hfault. cbv zeta.
  rewrite (accepted_run name email subject message w Hn He Hs Hm).
  pose proof (create_calm (trim name) email (trim subject) (trim message) w Hcalm) as Hc.
  cbv zeta in Hc. rewrite Hack in Hc.
  destruct (run (ContactFormSubmission.create _ _ _ _) w) as [r0 w'].
  cbn [fst snd] in Hc. destruct Hc as (-> & Hdb & Henv & Haw).
  cbn [ContactFormSubmission.id].
  pose proof (faulted_shift 2 2 (proc w) (proc w') Hfault Henv Haw) as Hf.
  destruct (get_by_id_returns (toHexString (next_oid (proc w))) w') as (g & Hg & Hnone).
  pose proof (get_by_id_frame (toHexString (next_oid (proc w))) w') as [Hgdb _].
  destruct (run (ContactFormSubmission.get_by_id _) w') as [r1 w''].
  cbn [fst snd] in Hg, Hgdb. subst r1. rewrite (Hnone (or_introl Hf)).
  cbn [fst snd]. split; [reflexivity |]. rewrite Hgdb, Hdb. reflexivity.
Qed.

(** ** The get handler *)

(** X18: the get handler always answers, with 400, 404 or 200, and never hands
    an error to [next]; it answers 400 exactly for the empty id; a
    malformed id and a failing driver are both answered 404; and the
    datastore is as before. *)
Lemma get_handler_always_answers (contactFormSubmissionId : string) (w : World) :
  let r := run (getContactFormSubmission contactFormSubmissionId) w in
  db (snd r) = db w /\
  exists (status : nat) (j : json),
    fst r = Val (Responded status j) /\
    (status = 400 \/ status = 404 \/ status = 200) /\
    (status = 400 <-> contactFormSubmissionId = "") /\
    (contactFormSubmissionId <> "" ->
     faulted 2 (proc w) \/ is_val (new_ObjectId contactFormSubmissionId) = false ->
     status = 404).
Proof.
  cbv zeta. unfold getContactFormSubmission. cbn [truthy].
  destruct contactFormSubmissionId as [| c id].
  - cbn. split; [reflexivity |]. exists 400, (ErrorJson "Contact form submission ID is required").
    repeat split; auto. intros H. congruence.
  - cbn [String.length Nat.eqb negb].
    change (mbind ?f ?p) with (bind p f). rewrite run_try_catch, run_bind.
    destruct (get_by_id_returns (String c id) w) as (g & Hg & Hnone).
    pose proof (get_by_id_frame (String c id) w) as [Hgdb _].
    destruct (run (ContactFormSubmission.get_by_id _) w) as [r1 w'].
    cbn [fst snd] in Hg, Hgdb. subst r1.
    destruct g as [found |]; cbn [run fst snd]; (split; [exact Hgdb |]).
    + exists 200. eexists. split; [reflexivity |]. split; [auto |].
      split; [split; [lia | discriminate] |]. intros _ H. discriminate (Hnone H).
    + exists 404. eexists. split; [reflexivity |]. split; [auto |].
      split; [split; [lia | discriminate] | reflexivity].
Qed.

(** X19: the id a 201 answer carries fetches the same JSON: the get handler,
    called with it afterwards, answers 200 with the body the create
    handler sent. *)
Lemma posted_submission_can_be_fetched (name email subject message : string) (w : World) :
  trim name <> "" -> test emailRegex email = true ->
  trim subject <> "" -> trim message <> "" ->
  calm 6 (proc w) ->
  write_concern_ack (env (proc w)) = true ->
  (next_oid (proc w) < 16 ^ 24)%N ->
  findOne (next_oid (proc w)) (contact_form_submissions (db w)) = None ->
  let posted := run (createContactFormSubmission (body_of name email subject message)) w in
  exists (id : string) (n e s m : string) (t : Z),
    fst posted = Val (Responded 201 (SubmissionJson id n e s m t)) /\
    fst (run (getContactFormSubmission id) (snd posted)) =
      Val (Responded 200 (SubmissionJson id n e s m t)).
Proof.
  intros Hn He Hs Hm Hcalm Hack Hoid Hfresh. cbv zeta.
  assert (Hcalm4 : calm 4 (proc w)) by (intros i Hi; apply Hcalm; lia).
  destruct (accepted_post name email subject message w Hn He Hs Hm Hcalm4 Hack Hoid Hfresh)
    as (Hr & Hdb & Henv & Haw).
  cbv zeta in Hr, Hdb, Henv, Haw.
  destruct (run (createContactFormSubmission _) w) as [r0 w'].
  cbn [fst snd] in Hr, Hdb, Henv, Haw |- *. subst r0.
  do 6 eexists. split; [reflexivity |].
  unfold getContactFormSubmission. cbn [truthy].
  rewrite (length_nonzero _ (length_toHexString (next_oid (proc w)))). cbn [negb].
  change (mbind ?f ?p) with (bind p f). rewrite run_try_catch, run_bind.
  assert (Hcalm' : calm 2 (proc w')) by exact (calm_shift 2 4 (proc w) (proc w') Hcalm Henv Haw).
  pose proof (get_by_id_calm _ _ w' (ObjectId_of_its_hex _ Hoid) Hcalm') as [Hg _].
  destruct (run (ContactFormSubmission.get_by_id _) w') as [r1 w''].
  cbn [fst snd] in Hg. subst r1. rewrite Hdb. cbn [contact_form_submissions].
  rewrite (findOne_app_new _ _ _ Hfresh). reflexivity.
Qed.

Lemma rejected_request_touches_nothing_witness :
  snd (run (createContactFormSubmission
              (Body.Make (JString "Ravi") (JString "ravi at example.com") JNull JUndefined))
           (MkWorld one_submission_db (boot_proc steady_env))) =
  MkWorld one_submission_db (boot_proc steady_env).
Proof.
  exact (rejected_request_touches_nothing
           (Body.Make (JString "Ravi") (JString "ravi at example.com") JNull JUndefined)
           (MkWorld one_submission_db (boot_proc steady_env))
           (ErrorJson "Email must be a valid email address") eq_refl).
Defined.

Lemma accepted_request_is_stored_trimmed_witness :
  let r := run (createContactFormSubmission
                  (body_of "  Ravi " "ravi@example.com" "Hi " " Hello there"))
               (MkWorld one_submission_db (boot_proc steady_env)) in
  fst r =
    Val (Responded 201
           (SubmissionJson (toHexString 100) "Ravi" "ravi@example.com" "Hi" "Hello there"
              1700000000)) /\
  contact_form_submissions (db (snd r)) =
    (contact_form_submissions one_submission_db ++
     [(100%N, Doc.Make "Ravi" "ravi@example.com" "Hi" "Hello there" 1700000000)])%list.
Proof.
  apply (accepted_request_is_stored_trimmed "  Ravi " "ravi@example.com" "Hi " " Hello there"
           (MkWorld one_submission_db (boot_proc steady_env)));
    [discriminate | reflexivity | discriminate | discriminate
    | apply calm_steady; reflexivity | reflexivity | reflexivity | reflexivity].
Defined.

Lemma failed_read_back_leaves_the_submission_witness :
  let r := run (createContactFormSubmission
                  (body_of "Ravi" "ravi@example.com" "Hi" "Hello there"))
               (fresh_world [Normal; Normal; Fault connection_lost]) in
  fst r = Val (Next (new_Error "Failed to retrieve created contact form submission")) /\
  contact_form_submissions (db (snd r)) =
    [(100%N, Doc.Make "Ravi" "ravi@example.com" "Hi" "Hello there" 1700000000)].
Proof.
  apply (failed_read_back_leaves_the_submission "Ravi" "ravi@example.com" "Hi" "Hello there"
           (fresh_world [Normal; Normal; Fault connection_lost]));
    [discriminate | reflexivity | discriminate | discriminate | | reflexivity |].
  - apply (calm_scripted 2 [Normal; Normal; Fault connection_lost]); [reflexivity .. |].
    intros [| [| i]] Hi; [reflexivity | reflexivity | lia].
  - exists 2, connection_lost. split; [lia | reflexivity].
Defined.

Lemma posted_submission_can_be_fetched_witness :
  let posted := run (createContactFormSubmission
                       (body_of "Ravi" "ravi@example.com" "Hi" "Hello there"))
                    (MkWorld one_submission_db (boot_proc steady_env)) in
  exists (id : string) (n e s m : string) (t : Z),
    fst posted = Val (Responded 201 (SubmissionJson id n e s m t)) /\
    fst (run (getContactFormSubmission id) (snd posted)) =
      Val (Responded 200 (SubmissionJson id n e s m t)).
Proof.
  apply (posted_submission_can_be_fetched "Ravi" "ravi@example.com" "Hi" "Hello there"
           (MkWorld one_submission_db (boot_proc steady_env)));
    [discriminate | reflexivity | discriminate | discriminate
    | apply calm_steady; reflexivity | reflexivity | reflexivity | reflexivity].
Defined.
